(** * Ireland_deals: the discovery, extraction and merge pipeline

    A shallow embedding of [src/osm_discover.py], [src/promo_discover.py],
    [src/extract_deals.py] and [src/export_feed.py], the properties of their
    specification, and further properties of the four stages.

    Conventions of the embedding.
    - A Python [str] is a list of Unicode code points ([list N]); literals
      are written [py "..."] and decoded from UTF-8.
    - Code that can raise returns a [result]; [Raise e] is an exception that
      nothing catches.
    - Library calls whose full behaviour is outside the repository
      ([float], [int], [datetime.fromisoformat], [urljoin], [urlparse], and the
      case mappings [str.lower] and [str.upper] of the Unicode database)
      are the fields of small interfaces; every general theorem holds for
      all their implementations, and a reference implementation is given to
      evaluate the code on concrete inputs.
    - The wall clock ([now_iso]) is a function from the number of earlier
      calls to the string it returns. *)

From Stdlib Require Import NArith ZArith Lia List Ascii String Bool.
From stdpp Require Import base option list strings gmap sorting.

Local Open Scope N_scope.

(** ** Python strings *)
Module Py.

Definition char := N.
Definition str := list char.

(** Decoding of a UTF-8 byte sequence into code points (used for literals). *)
Fixpoint utf8_decode (bs : list N) : str :=
  match bs with
  | [] => []
  | b :: r =>
    if b <? 128 then b :: utf8_decode r
    else if b <? 224 then
      match r with
      | c1 :: r1 => ((b - 192) * 64 + (c1 - 128)) :: utf8_decode r1
      | _ => []
      end
    else if b <? 240 then
      match r with
      | c1 :: c2 :: r2 =>
        ((b - 224) * 4096 + (c1 - 128) * 64 + (c2 - 128)) :: utf8_decode r2
      | _ => []
      end
    else
      match r with
      | c1 :: c2 :: c3 :: r3 =>
        ((b - 240) * 262144 + (c1 - 128) * 4096 + (c2 - 128) * 64 + (c3 - 128))
          :: utf8_decode r3
      | _ => []
      end
  end.

Definition py (s : string) : str :=
  utf8_decode (map N_of_ascii (list_ascii_of_string s)).

(** [s.encode("utf-8")] *)
Definition utf8_encode_char (c : char) : list N :=
  if c <? 128 then [c]
  else if c <? 2048 then [192 + c / 64; 128 + c mod 64]
  else if c <? 65536 then [224 + c / 4096; 128 + (c / 64) mod 64; 128 + c mod 64]
  else [240 + c / 262144; 128 + (c / 4096) mod 64; 128 + (c / 64) mod 64; 128 + c mod 64].

Definition encode_utf8 (s : str) : list N := flat_map utf8_encode_char s.

(** [ch.isspace()], which is also the class [\s] of [re] on [str] patterns. *)
Definition isspace (c : char) : bool :=
  ((9 <=? c) && (c <=? 13)) || ((28 <=? c) && (c <=? 32))
  || (c =? 133) || (c =? 160) || (c =? 5760)
  || ((8192 <=? c) && (c <=? 8202))
  || (c =? 8232) || (c =? 8233) || (c =? 8239) || (c =? 8287) || (c =? 12288).

(** The digits 0-9 (the range [0-9] of a character class) and their
    values. *)
Definition isdigit (c : char) : bool := (48 <=? c) && (c <=? 57).
Definition digit_value (c : char) : N := c - 48.

(** The decimal digits of Unicode (category Nd; Unicode 14.0, the database
    of CPython 3.11): the class [\d] of [re] on [str] patterns, and the
    digits that [int] and [float] read. They come in runs of ten, for 0 to
    9 in order; [decimal_runs] lists the first code point of each run. *)
Definition decimal_runs : list N :=
  [48; 1632; 1776; 1984; 2406; 2534; 2662; 2790; 2918; 3046; 3174; 3302; 3430; 3558;
   3664; 3792; 3872; 4160; 4240; 6112; 6160; 6470; 6608; 6784; 6800; 6992; 7088; 7232;
   7248; 42528; 43216; 43264; 43472; 43504; 43600; 44016; 65296; 66720; 68912; 69734;
   69872; 69942; 70096; 70384; 70736; 70864; 71248; 71360; 71472; 71904; 72016; 72784;
   73040; 73120; 92768; 92864; 93008; 120782; 120792; 120802; 120812; 120822; 123200;
   123632; 125264; 130032].
Definition in_run (c : char) (first : N) : bool := (first <=? c) && (c <? first + 10).
Definition isdecimal (c : char) : bool := existsb (in_run c) decimal_runs.
Definition decimal_value (c : char) : N :=
  match List.find (in_run c) decimal_runs with
  | Some first => c - first
  | None => 0
  end.

(** The letters A-Z and a-z in the other case; other code points are left
    as they are. This is how [re.IGNORECASE] matches the letters of the
    patterns used here, which no character outside ASCII matches. *)
Definition tolower (c : char) : char :=
  if (65 <=? c) && (c <=? 90) then c + 32 else c.
Definition toupper (c : char) : char :=
  if (97 <=? c) && (c <=? 122) then c - 32 else c.

Definition eqb (a b : str) : bool := bool_decide (a = b).

(** [s.lstrip()], [s.rstrip()], [s.strip()] *)
Fixpoint lstrip (s : str) : str :=
  match s with
  | c :: r => if isspace c then lstrip r else s
  | [] => []
  end.
Definition rstrip (s : str) : str := rev (lstrip (rev s)).
Definition strip (s : str) : str := rstrip (lstrip s).

(** [s.lstrip(ch)] for a one-character argument *)
Fixpoint lstrip_char (ch : char) (s : str) : str :=
  match s with
  | c :: r => if c =? ch then lstrip_char ch r else s
  | [] => []
  end.

(** [s.startswith(p)], [s.endswith(p)], [p in s] *)
Fixpoint startswith (s p : str) : bool :=
  match p, s with
  | [], _ => true
  | a :: p', b :: s' => (a =? b) && startswith s' p'
  | _ :: _, [] => false
  end.
Definition endswith (s p : str) : bool := startswith (rev s) (rev p).
Fixpoint contains (p s : str) : bool :=
  startswith s p || match s with [] => false | _ :: r => contains p r end.

(** [s.replace(a, b)] for a one-character [a] *)
Definition replace_char (a : char) (b : str) (s : str) : str :=
  flat_map (fun c => if c =? a then b else [c]) s.

(** [s.split(ch)[0]] *)
Fixpoint before_char (ch : char) (s : str) : str :=
  match s with
  | c :: r => if c =? ch then [] else c :: before_char ch r
  | [] => []
  end.

(** [sep.join(parts)] *)
Fixpoint join (sep : str) (parts : list str) : str :=
  match parts with
  | [] => []
  | [p] => p
  | p :: rest => p ++ sep ++ join sep rest
  end.

(** [a < b] on strings: lexicographic on code points. *)
Fixpoint ltb (a b : str) : bool :=
  match a, b with
  | _, [] => false
  | [], _ :: _ => true
  | x :: a', y :: b' => (x <? y) || ((x =? y) && ltb a' b')
  end.

(** [x or d] for an optional string: [None] and the empty string are falsy. *)
Definition or_else (x : option str) (d : str) : str :=
  match x with
  | Some (c :: r) => c :: r
  | _ => d
  end.

(** The number that a string of the digits 0-9 writes *)
Definition int_of_digits (s : str) : N :=
  fold_left (fun acc c => 10 * acc + digit_value c) s 0.

(** [int(s)] for a string of decimal digits *)
Definition int_of_decimals (s : str) : N :=
  fold_left (fun acc c => 10 * acc + decimal_value c) s 0.

(** [str(n)] for a natural number *)
Fixpoint digits_of (fuel : nat) (n : N) (acc : str) : str :=
  match fuel with
  | O => acc
  | S f => if n <? 10 then (48 + n) :: acc else digits_of f (n / 10) ((48 + n mod 10) :: acc)
  end.
Definition str_of_N (n : N) : str := digits_of (S (N.to_nat (N.log2 n))) n [].

(** Exceptions that escape, and results of code that may raise. *)
Inductive exn := TypeError | ValueError.
Inductive result (A : Type) := Ok (a : A) | Raise (e : exn).
Arguments Ok {A} a.
Arguments Raise {A} e.

Definition bind {A B} (r : result A) (f : A -> result B) : result B :=
  match r with
  | Ok a => f a
  | Raise e => Raise e
  end.

(** The exception a computation ended with, if it did. *)
Definition raised {A} (r : result A) : option exn :=
  match r with
  | Ok _ => None
  | Raise e => Some e
  end.

(** A [dict] with string keys, in insertion order: assigning to a key that
    is present keeps its place, a new key goes last. *)
Fixpoint dict_get {V} (k : str) (d : list (str * V)) : option V :=
  match d with
  | [] => None
  | (k', v) :: rest => if eqb k' k then Some v else dict_get k rest
  end.
Fixpoint dict_set {V} (k : str) (v : V) (d : list (str * V)) : list (str * V) :=
  match d with
  | [] => [(k, v)]
  | (k', v') :: rest => if eqb k' k then (k, v) :: rest else (k', v') :: dict_set k v rest
  end.

(** [sorted(l, key=...)]: a stable sort; [before x y] says that [x]'s key
    comes strictly before [y]'s in the requested order. *)
Fixpoint insert_sorted {A} (before : A -> A -> bool) (x : A) (l : list A) : list A :=
  match l with
  | [] => [x]
  | y :: l' => if before y x then y :: insert_sorted before x l' else x :: l
  end.
Definition sorted {A} (before : A -> A -> bool) (l : list A) : list A :=
  foldr (insert_sorted before) [] l.

End Py.

Notation "'let*' x := r 'in' k" := (Py.bind r (fun x => k))
  (at level 10, x pattern, r at level 100, k at level 200).

(** ** The fragment of [re] the sources use *)
Module Re.
Import Py.

Inductive regex :=
| Class (p : char -> bool)
| Cat (r1 r2 : regex)
| Or (r1 r2 : regex)
| Maybe (r : regex)
| Repeat (lo hi : nat) (p : char -> bool)
| Star (p : char -> bool)
| Group (name : string) (r : regex).

Definition captures := list (string * str).

(** [p{lo,hi}], greedy, with backtracking *)
Fixpoint repeat_greedy {R} (p : char -> bool) (lo hi : nat) (s : str)
    (k : str -> option R) : option R :=
  let stop := match lo with O => k s | S _ => None end in
  match hi with
  | O => stop
  | S hi' =>
    match s with
    | c :: s' =>
      if p c then
        match repeat_greedy p (pred lo) hi' s' k with
        | Some x => Some x
        | None => stop
        end
      else stop
    | [] => stop
    end
  end.

(** [p*], greedy, with backtracking *)
Fixpoint star_greedy {R} (p : char -> bool) (s : str) (k : str -> option R) : option R :=
  match s with
  | c :: s' =>
    if p c then
      match star_greedy p s' k with
      | Some x => Some x
      | None => k s
      end
    else k s
  | [] => k s
  end.

(** The text consumed between the input [s] and its suffix [s']. *)
Definition consumed (s s' : str) : str := take (length s - length s') s.

(** A backtracking matcher in continuation-passing style: alternatives in
    order, repetitions greedy, as [re] tries them. *)
Fixpoint run {R} (r : regex) (s : str) (caps : captures)
    (k : str -> captures -> option R) : option R :=
  match r with
  | Class p =>
    match s with
    | c :: s' => if p c then k s' caps else None
    | [] => None
    end
  | Cat r1 r2 => run r1 s caps (fun s' caps' => run r2 s' caps' k)
  | Or r1 r2 =>
    match run r1 s caps k with
    | Some x => Some x
    | None => run r2 s caps k
    end
  | Maybe r1 =>
    match run r1 s caps k with
    | Some x => Some x
    | None => k s caps
    end
  | Repeat lo hi p => repeat_greedy p lo hi s (fun s' => k s' caps)
  | Star p => star_greedy p s (fun s' => k s' caps)
  | Group name r1 => run r1 s caps (fun s' caps' => k s' ((name, consumed s s') :: caps'))
  end.

(** A match object: the groups and the text after the match. *)
Definition match_at (r : regex) (s : str) : option (captures * str) :=
  run r s [] (fun s' caps => Some (caps, s')).

(** [m.group(name)] *)
Fixpoint group (name : string) (caps : captures) : str :=
  match caps with
  | [] => []
  | (n, t) :: rest => if String.eqb n name then t else group name rest
  end.

(** [re.finditer]: the matches from left to right, none overlapping. [skip]
    counts the characters still inside the previous match. *)
Fixpoint finditer_from (r : regex) (skip : nat) (s : str) : list captures :=
  match skip with
  | S n => match s with [] => [] | _ :: s' => finditer_from r n s' end
  | O =>
    match match_at r s with
    | Some (caps, rest) =>
      caps :: match s with
              | [] => []
              | _ :: s' => finditer_from r (pred (length s - length rest)) s'
              end
    | None => match s with [] => [] | _ :: s' => finditer_from r 0 s' end
    end
  end.
Definition finditer (r : regex) (s : str) : list captures := finditer_from r 0 s.

(** [re.search]: the leftmost match *)
Definition search (r : regex) (s : str) : option captures := head (finditer r s).

(** [re.sub(r, repl, s)] for a pattern that matches no empty string *)
Fixpoint sub_from (r : regex) (repl : str) (skip : nat) (s : str) : str :=
  match skip with
  | S n => match s with [] => [] | _ :: s' => sub_from r repl n s' end
  | O =>
    match s with
    | [] => []
    | c :: s' =>
      match match_at r s with
      | Some (_, rest) => repl ++ sub_from r repl (pred (length s - length rest)) s'
      | None => c :: sub_from r repl 0 s'
      end
    end
  end.
Definition sub (r : regex) (repl : str) (s : str) : str := sub_from r repl 0 s.

(** A literal character, and one matched under [re.IGNORECASE]. *)
Definition chr (c : char) : regex := Class (N.eqb c).
Definition chr_i (c : char) : regex := Class (fun x => tolower x =? tolower c).
Fixpoint lit_with (f : char -> regex) (s : str) : regex :=
  match s with
  | [] => Maybe (Class (fun _ => false))
  | [c] => f c
  | c :: r => Cat (f c) (lit_with f r)
  end.
Definition lit (s : string) : regex := lit_with chr (py s).
Definition lit_i (s : string) : regex := lit_with chr_i (py s).

(** The words a regex matches, for reasoning about what a group holds. *)
Fixpoint lang (r : regex) (w : str) : Prop :=
  match r with
  | Class p => exists c, w = [c] /\ p c = true
  | Cat r1 r2 => exists w1 w2, w = w1 ++ w2 /\ lang r1 w1 /\ lang r2 w2
  | Or r1 r2 => lang r1 w \/ lang r2 w
  | Maybe r1 => w = [] \/ lang r1 w
  | Repeat lo hi p => (lo <= length w <= hi)%nat /\ forallb p w = true
  | Star p => forallb p w = true
  | Group _ r1 => lang r1 w
  end.

End Re.

(** ** [hashlib.sha1]: SHA-1 on bytes, 32-bit words as [N] with explicit wrap-around *)
Module Sha1.

Definition mask32 : N := 4294967295.
Definition add32 (a b : N) : N := N.land (a + b) mask32.
Definition not32 (a : N) : N := N.lxor a mask32.
Definition rotl (n : N) (x : N) : N :=
  N.land (N.lor (N.shiftl x n) (N.shiftr x (32 - n))) mask32.

(** Padding: a 1 bit, zeros up to 56 mod 64, the bit length on 8 bytes. *)
Definition be_bytes (width : nat) (n : N) : list N :=
  map (fun i => N.land (N.shiftr n (8 * N.of_nat i)) 255) (rev (seq 0 width)).
Definition pad (msg : list N) : list N :=
  let len := N.of_nat (length msg) in
  let zeros := N.to_nat ((119 - len mod 64) mod 64) in
  msg ++ [128] ++ repeat 0 zeros ++ be_bytes 8 (8 * len).

Fixpoint words (bs : list N) : list N :=
  match bs with
  | a :: b :: c :: d :: rest =>
    (N.shiftl a 24 + N.shiftl b 16 + N.shiftl c 8 + d) :: words rest
  | _ => []
  end.

Fixpoint blocks (fuel : nat) (ws : list N) : list (list N) :=
  match fuel, ws with
  | S f, _ :: _ => take 16 ws :: blocks f (drop 16 ws)
  | _, _ => []
  end.

(** The message schedule, most recent word first. *)
Fixpoint schedule (n : nat) (recent : list N) : list N :=
  match n with
  | O => recent
  | S n' =>
    let w := rotl 1 (N.lxor (N.lxor (nth 2 recent 0) (nth 7 recent 0))
                            (N.lxor (nth 13 recent 0) (nth 15 recent 0))) in
    schedule n' (w :: recent)
  end.

Record state := State { h0 : N; h1 : N; h2 : N; h3 : N; h4 : N }.

Definition init : state :=
  State 1732584193 4023233417 2562383102 271733878 3285377520.

Definition round (t : nat) (st : state) (w : N) : state :=
  let '(State a b c d e) := st in
  let '(f, k) :=
    if (t <? 20)%nat then (N.lor (N.land b c) (N.land (not32 b) d), 1518500249)
    else if (t <? 40)%nat then (N.lxor (N.lxor b c) d, 1859775393)
    else if (t <? 60)%nat then
      (N.lor (N.lor (N.land b c) (N.land b d)) (N.land c d), 2400959708)
    else (N.lxor (N.lxor b c) d, 3395469782) in
  State (add32 (add32 (add32 (add32 (rotl 5 a) f) e) k) w) a (rotl 30 b) c d.

Fixpoint rounds (t : nat) (ws : list N) (st : state) : state :=
  match ws with
  | [] => st
  | w :: rest => rounds (S t) rest (round t st w)
  end.

Definition compress (st : state) (block : list N) : state :=
  let r := rounds 0 (rev (schedule 64 (rev block))) st in
  State (add32 (h0 st) (h0 r)) (add32 (h1 st) (h1 r)) (add32 (h2 st) (h2 r))
        (add32 (h3 st) (h3 r)) (add32 (h4 st) (h4 r)).

Definition digest (msg : list N) : state :=
  let ws := words (pad msg) in
  fold_left compress (blocks (length ws) ws) init.

Definition hex_digit (n : N) : N := if n <? 10 then 48 + n else 87 + n.
Definition hex8 (w : N) : Py.str :=
  map (fun i => hex_digit (N.land (N.shiftr w (4 * N.of_nat i)) 15)) [7; 6; 5; 4; 3; 2; 1; 0]%nat.

(** [hashlib.sha1(msg).hexdigest()] *)
Definition hexdigest (msg : list N) : Py.str :=
  let st := digest msg in
  hex8 (h0 st) ++ hex8 (h1 st) ++ hex8 (h2 st) ++ hex8 (h3 st) ++ hex8 (h4 st).

End Sha1.

(** ** Library interfaces: [str.lower], [float], [int], [datetime], [urllib.parse] *)
Module Lib.
Import Py.

(** [s.lower()] and [s.upper()]. The case mappings are those of the Unicode
    database of the interpreter (one character can give several, and the
    Greek capital sigma depends on its neighbours); on ASCII text they map
    the letters A-Z and a-z and leave the rest. *)
Class CaseLib := {
  lower : str -> str;
  upper : str -> str;
  lower_ascii : forall s : str, Forall (fun c => c < 128) s -> lower s = map tolower s;
  upper_ascii : forall s : str, Forall (fun c => c < 128) s -> upper s = map toupper s;
}.

(** Python floats: [float(s)] ([None] when it raises ValueError), [str(x)],
    and [int(x)] ([None] when it raises, on an infinity or a NaN). *)
Class FloatLib := {
  float : Type;
  float_of_str : str -> option float;
  float_str : float -> str;
  float_int : float -> option Z;
}.

(** A [datetime] is naive (microseconds of local time since
    0001-01-01T00:00:00, which is [datetime.min]) or aware (microseconds of
    UTC since then, negative when the offset reaches before it). *)
Inductive datetime := Naive (us : N) | Aware (us : Z).

(** [datetime.min] *)
Definition datetime_min : datetime := Naive 0.

(** [a > b]: naive and aware values do not compare. *)
Definition dt_gt (a b : datetime) : result bool :=
  match a, b with
  | Naive x, Naive y => Ok (y <? x)
  | Aware x, Aware y => Ok (y <? x)%Z
  | _, _ => Raise TypeError
  end.

(** [datetime.fromisoformat(s)]; [None] when it raises. *)
Class DatetimeLib := {
  fromisoformat : str -> option datetime;
}.

(** [urljoin(base, url)], and [urlparse(url).netloc] ([None] when urlparse raises). *)
Class UrlLib := {
  urljoin : str -> str -> str;
  netloc : str -> option str;
}.

(** *** Reference implementations, for evaluating the code *)

(** Case mapping of the letters A-Z and a-z only (Python maps the letters
    of every script). *)
Definition ascii_case : CaseLib :=
  {| lower := map tolower; upper := map toupper;
     lower_ascii := fun _ _ => eq_refl; upper_ascii := fun _ _ => eq_refl |}.

(** Floats written as plain decimals: an optional sign, up to 11 integer
    digits, and up to 4 fractional digits. On these [float] is exact enough
    that [str] gives back the shortest decimal; everything else is refused
    here (Python accepts more: exponents, inf, nan). *)
Record decimal := Decimal { negative : bool; units : N; fraction : list N }.

Fixpoint drop_trailing_zeros (ds : list N) : list N :=
  match ds with
  | [] => []
  | d :: r =>
    match drop_trailing_zeros r with
    | [] => if d =? 48 then [] else [d]
    | r' => d :: r'
    end
  end.

Definition split_at_char (ch : char) (s : str) : str * option str :=
  let a := before_char ch s in
  (a, if (length a <? length s)%nat then Some (drop (S (length a)) s) else None).

Definition decimal_of_str (s : str) : option decimal :=
  let s := strip s in
  let '(neg, body) :=
    match s with
    | 45 :: r => (true, r)
    | 43 :: r => (false, r)
    | _ => (false, s)
    end in
  let '(ip, fp) := split_at_char 46 body in
  let fp := match fp with Some f => f | None => py "0" end in
  if forallb isdigit ip && forallb isdigit fp
     && (1 <=? length ip)%nat && (length ip <=? 11)%nat
     && (1 <=? length fp)%nat && (length fp <=? 4)%nat
  then Some (Decimal neg (int_of_digits ip) (drop_trailing_zeros fp))
  else None.

Definition decimal_str (d : decimal) : str :=
  (if negative d then py "-" else []) ++ str_of_N (units d) ++ py "."
  ++ (match fraction d with [] => py "0" | f => f end).

Definition decimal_int (d : decimal) : option Z :=
  Some (if negative d then (- Z.of_N (units d))%Z else Z.of_N (units d)).

Definition decimal_floats : FloatLib :=
  {| float := decimal; float_of_str := decimal_of_str;
     float_str := decimal_str; float_int := decimal_int |}.

(** Timestamps of the shape the pipeline writes ([now_iso]):
    YYYY-MM-DDTHH:MM:SS, with or without an offset +HH:MM or -HH:MM.
    Everything else is refused here (Python accepts more shapes). *)
Definition number (s : str) : option Z :=
  if forallb isdigit s then Some (Z.of_N (int_of_digits s)) else None.

Definition leap (y : Z) : bool :=
  ((y mod 4 =? 0) && negb (y mod 100 =? 0) || (y mod 400 =? 0))%Z.

Definition days_in_month (y m : Z) : Z :=
  (if m =? 2 then (if leap y then 29 else 28)
   else if (m =? 4) || (m =? 6) || (m =? 9) || (m =? 11) then 30 else 31)%Z.

(** Days from 0001-01-01 to the given date of the proleptic Gregorian calendar. *)
Definition days_before (y m d : Z) : Z :=
  (let y' := y - 1 in
   let before_year := 365 * y' + y' / 4 - y' / 100 + y' / 400 in
   let before_month :=
     fold_left Z.add (map (days_in_month y) (map Z.of_nat (seq 1 (Z.to_nat (m - 1))))) 0 in
   before_year + before_month + (d - 1))%Z.

Definition iso_offset (s : str) : option (option Z) :=
  match s with
  | [] => Some None
  | sign :: rest =>
    if ((sign =? 43) || (sign =? 45)) && (length rest =? 5)%nat && (nth 2 rest 0 =? 58) then
      match number (take 2 rest), number (drop 3 rest) with
      | Some h, Some m =>
        let sgn := if sign =? 45 then (-1)%Z else 1%Z in
        if ((h <? 24) && (m <? 60))%Z
        then Some (Some (sgn * (h * 3600 + m * 60))%Z)
        else None
      | _, _ => None
      end
    else None
  end.

Definition iso_seconds_parse (s : str) : option datetime :=
  if (19 <=? length s)%nat
     && (nth 4 s 0 =? 45) && (nth 7 s 0 =? 45) && (nth 10 s 0 =? 84)
     && (nth 13 s 0 =? 58) && (nth 16 s 0 =? 58)
  then
    match number (take 4 s), number (take 2 (drop 5 s)), number (take 2 (drop 8 s)),
          number (take 2 (drop 11 s)), number (take 2 (drop 14 s)),
          number (take 2 (drop 17 s)), iso_offset (drop 19 s) with
    | Some y, Some mo, Some d, Some h, Some mi, Some sec, Some off =>
      if ((1 <=? y) && (1 <=? mo) && (mo <=? 12) && (1 <=? d) && (d <=? days_in_month y mo)
          && (h <? 24) && (mi <? 60) && (sec <? 60))%Z
      then
        let local := ((days_before y mo d * 86400 + h * 3600 + mi * 60 + sec) * 1000000)%Z in
        Some match off with
             | None => Naive (Z.to_N local)
             | Some o => Aware (local - o * 1000000)%Z
             end
      else None
    | _, _, _, _, _, _, _ => None
    end
  else None.

Definition iso_seconds : DatetimeLib := {| fromisoformat := iso_seconds_parse |}.

(** URLs of the shape scheme://host/path, without query or fragment: the
    network location is the text between "://" and the next "/", and a
    relative reference replaces what follows the last "/" of the base. *)
Fixpoint after_scheme (s : str) : option str :=
  match s with
  | 58 :: 47 :: 47 :: r => Some r
  | _ :: r => after_scheme r
  | [] => None
  end.

Definition simple_netloc (url : str) : option str :=
  Some match after_scheme url with
       | Some r => before_char 47 r
       | None => []
       end.

Fixpoint from_char (ch : char) (s : str) : str :=
  match s with
  | c :: r => if c =? ch then s else from_char ch r
  | [] => []
  end.

Definition simple_urljoin (base url : str) : str :=
  rev (from_char 47 (rev base)) ++ url.

Definition simple_urls : UrlLib := {| urljoin := simple_urljoin; netloc := simple_netloc |}.

(** [int(s)] on a string; [None] when it raises ValueError. *)
Class IntLib := {
  int_of_str : str -> option Z;
}.

(** Integers written as an optional sign and the digits 0-9, with
    whitespace around them (Python accepts more: other digits, and
    underscores between digits). *)
Definition simple_int (s : str) : option Z :=
  let s := strip s in
  let '(neg, body) :=
    match s with
    | 45 :: r => (true, r)
    | 43 :: r => (false, r)
    | _ => (false, s)
    end in
  if forallb isdigit body && (1 <=? length body)%nat
  then Some (if neg then (- Z.of_N (int_of_digits body))%Z else Z.of_N (int_of_digits body))
  else None.

Definition simple_ints : IntLib := {| int_of_str := simple_int |}.

End Lib.

(** ** [src/export_feed.py]: the feed merger *)
Module ExportFeed.
Import Py Re Lib.

(** A row of [csv.DictReader]: the cell under each column name, [None] for
    a column the record is too short for. *)
Abbreviation row := (gmap string (option str)).

(** [row.get(k)] *)
Definition get (r : row) (k : string) : option str := mjoin (r !! k).

Section Merger.
Context {C : CaseLib} {F : FloatLib} {D : DatetimeLib}.

Definition parse_iso (s : str) : datetime :=
  match fromisoformat (replace_char 90 (py "+00:00") s) with
  | Some d => d
  | None => datetime_min
  end.

Definition spaces : regex := Cat (Class isspace) (Star isspace).
Definition title_char (c : char) : bool :=
  ((97 <=? c) && (c <=? 122)) || isdigit c
  || existsb (N.eqb c) (py " €£%.-_/").
Definition not_title_char : regex := Class (fun c => negb (title_char c)).

Definition norm_title (s : str) : str :=
  let s := lower (strip s) in
  let s := sub spaces (py " ") s in
  let s := sub not_title_char [] s in
  take 220 s.

(** The f-string rendering of [new_price]. *)
Definition fmt_price (p : option float) : str :=
  match p with
  | Some x => float_str x
  | None => py "None"
  end.

Definition deterministic_id (store_domain title : str) (new_price : option float)
    (source_url : str) : str :=
  let base := lower store_domain ++ py "|" ++ norm_title title ++ py "|"
              ++ fmt_price new_price ++ py "|" ++ strip source_url in
  Sha1.hexdigest (encode_utf8 base).

Definition to_float (v : option str) : option float :=
  match v with
  | None => None
  | Some v =>
    let s := strip v in
    if eqb s [] || eqb (lower s) (py "nan") then None
    else float_of_str s
  end.

Definition to_int (v : option str) : option Z :=
  match v with
  | None => None
  | Some v =>
    let s := strip v in
    if eqb s [] || eqb (lower s) (py "nan") then None
    else x ← float_of_str s; float_int x
  end.

Definition to_bool (v : option str) : option bool :=
  match v with
  | None => None
  | Some v =>
    let s := lower (strip v) in
    if existsb (eqb s) [py "true"; py "1"; py "yes"; py "y"] then Some true
    else if existsb (eqb s) [py "false"; py "0"; py "no"; py "n"] then Some false
    else None
  end.

(** [v is True] *)
Definition is_True (v : option bool) : bool :=
  match v with
  | Some true => true
  | _ => false
  end.

Record item := Item {
  id : str;
  title : str;
  store_name : str;
  category : str;
  new_price : option float;
  old_price : option float;
  discount_percent : option Z;
  in_store_confidence : str;
  needs_review : bool;
  source_url : str;
  addr : str;
  lat : option float;
  lon : option float;
  captured_at : str;
}.

(** The dict [it] of the loop body; [now] is what [now_iso()] returns if it
    is called, which happens only when the row has no [captured_at]. *)
Definition make_item (r : row) (now : str) : item :=
  let store_domain := lower (strip (or_else (get r "website_domain") [])) in
  let title := or_else (Some (strip (or_else (get r "title") []))) (py "(untitled)") in
  let source_url := strip (or_else (get r "source_url") []) in
  let new_price := to_float (get r "new_price") in
  {| id := deterministic_id store_domain title new_price source_url;
     title := title;
     store_name := strip (or_else (get r "store_name") []);
     category := strip (or_else (get r "category") []);
     new_price := new_price;
     old_price := to_float (get r "old_price");
     discount_percent := to_int (get r "discount_percent");
     in_store_confidence := upper (strip (or_else (get r "in_store_confidence") (py "LOW")));
     needs_review := default true (to_bool (get r "needs_review"));
     source_url := source_url;
     addr := strip (or_else (get r "addr") []);
     lat := to_float (get r "lat");
     lon := to_float (get r "lon");
     captured_at := strip (or_else (get r "captured_at") now) |}.

(** Does building the item of [r] call [now_iso()]? *)
Definition needs_clock (r : row) : bool := eqb (or_else (get r "captured_at") []) [].

(** The loop's state: [latest_by_id], and how often [now_iso] was called. *)
Record state := St { latest_by_id : list (str * item); ticks : nat }.

(** Lines 141-146: keep the row already held for the id unless the new one
    is strictly later. *)
Definition resolve (latest : list (str * item)) (it : item) : result (list (str * item)) :=
  match dict_get (id it) latest with
  | None => Ok (dict_set (id it) it latest)
  | Some existing =>
    let* later := dt_gt (parse_iso (captured_at it)) (parse_iso (captured_at existing)) in
    Ok (if later then dict_set (id it) it latest else latest)
  end.

Variable now_iso : nat -> str.

(** One pass of the loop over [rows] (lines 112-146). *)
Definition step (should_filter_publish : bool) (st : state) (r : row) : result state :=
  if should_filter_publish && negb (is_True (to_bool (get r "publish"))) then Ok st
  else
    let it := make_item r (now_iso (ticks st)) in
    let ticks' := if needs_clock r then S (ticks st) else ticks st in
    let* latest := resolve (latest_by_id st) it in
    Ok (St latest ticks').

Fixpoint loop (should_filter_publish : bool) (st : state) (rows : list row) : result state :=
  match rows with
  | [] => Ok st
  | r :: rest =>
    let* st' := step should_filter_publish st r in
    loop should_filter_publish st' rest
  end.

Definition has_publish (rows : list row) : bool :=
  match rows with
  | r0 :: _ => bool_decide (is_Some (r0 !! "publish"))
  | [] => false
  end.

Definition should_filter_publish (rows : list row) : bool :=
  let publish_values :=
    if has_publish rows then map (fun x => to_bool (get x "publish")) rows else [] in
  has_publish rows && existsb is_True publish_values.

Record feed := Feed { generated_at : str; count : nat; items : list item }.

(** [main], from the rows read from deals.csv to the feed that is written. *)
Definition main (rows : list row) : result feed :=
  let* st := loop (should_filter_publish rows) (St [] 0) rows in
  let items := sorted (fun x y => ltb (id x) (id y)) (map snd (latest_by_id st)) in
  Ok {| generated_at := now_iso (ticks st); count := length items; items := items |}.

End Merger.
End ExportFeed.

(** ** [src/extract_deals.py]: the deal extractor *)
Module ExtractDeals.
Import Py Re Lib.

Definition PRICE_RE : regex :=
  Cat (Group "cur" (Or (lit "€") (Or (lit_i "eur") (Or (lit "£") (lit_i "gbp")))))
  (Cat (Star isspace)
       (Group "amt" (Cat (Repeat 1 5 isdecimal)
                         (Maybe (Cat (Class (fun c => (c =? 46) || (c =? 44)))
                                     (Repeat 2 2 isdecimal)))))).

Definition PERCENT_RE : regex :=
  Cat (Group "1" (Repeat 1 3 isdecimal)) (Cat (Star isspace) (chr 37)).

Definition INSTORE_HIGH : list str :=
  map py ["in-store"; "in store"; "participating stores"; "while stocks last";
          "selected stores"; "in selected stores"; "available in store"].
Definition INSTORE_LOW : list str :=
  map py ["delivery"; "shipping"; "checkout"; "add to cart"; "add to basket";
          "buy now"; "order online"; "cart"].

(** A price: the float an amount of [PRICE_RE] denotes, in hundredths.
    [float] sends the decimals d{1,5} and d{1,5}.dd to distinct doubles in
    increasing order, so [==], [<] and sorting on those floats are the ones
    of the hundredths. *)
Definition price := N.

(** [float(s)] on a decimal with two fractional digits or none; [None] when
    it raises. [float] reads the decimal digits of every script by their
    values. *)
Definition float_of_amount (s : str) : option price :=
  let ip := before_char 46 s in
  let fp := drop (S (length ip)) s in
  if forallb isdecimal s && (1 <=? length s)%nat then Some (100 * int_of_decimals s)
  else if forallb isdecimal ip && (1 <=? length ip)%nat
          && forallb isdecimal fp && (length fp =? 2)%nat
  then Some (100 * int_of_decimals ip + int_of_decimals fp)
  else None.

Definition to_float (s : str) : option price :=
  float_of_amount (replace_char 44 (py ".") s).

Section Confidence.
Context {C : CaseLib}.

Definition confidence_from_text (t : str) : str :=
  let tl := lower t in
  if existsb (fun k => contains k tl) INSTORE_HIGH then py "HIGH"
  else if existsb (fun k => contains k tl) INSTORE_LOW then py "LOW"
  else py "MEDIUM".

End Confidence.

Definition extract_prices (text : str) : option price * option price * option Z :=
  let matches := finditer PRICE_RE text in
  let prices := omap (fun m => to_float (group "amt" m)) (take 6 matches) in
  let discount :=
    match search PERCENT_RE text with
    | Some pm => Some (Z.of_N (int_of_decimals (group "1" pm)))
    | None => None
    end in
  match prices with
  | [] => (None, None, discount)
  | [p] => (Some p, None, discount)
  | _ =>
    let p_sorted := sorted (fun x y => y <? x) (take 2 prices) in
    (p_sorted !! 1%nat, p_sorted !! 0%nat, discount)
  end.

(** *** The parsed page

    [BeautifulSoup(html, "lxml")] is a tree of elements and text; the
    parser itself is outside the model. An element carries its tag name and
    the value of its class attribute (empty when it has none). *)
#[warnings="-register-all"]
Inductive node :=
| Text (s : str)
| Elem (tag : str) (class_ : str) (children : list node).

(** The text nodes below a node, in document order. *)
Fixpoint strings (n : node) : list str :=
  match n with
  | Text s => [s]
  | Elem _ _ kids => flat_map strings kids
  end.

(** [n.get_text(sep, strip=True)] *)
Definition get_text (sep : str) (n : node) : str :=
  join sep (filter (fun s => s ≠ []) (map strip (strings n))).

(** The elements below a node, in document order. *)
Fixpoint descendants (n : node) : list node :=
  match n with
  | Text _ => []
  | Elem _ _ kids =>
    flat_map (fun k => match k with
                       | Text _ => []
                       | Elem _ _ _ => k :: descendants k
                       end) kids
  end.

Definition has_tag (t : str) (n : node) : bool :=
  match n with
  | Elem t' _ _ => eqb t' t
  | Text _ => false
  end.
Definition class_contains (sub : str) (n : node) : bool :=
  match n with
  | Elem _ c _ => contains sub c
  | Text _ => false
  end.

(** [n.select("[class*='sub']")] and [n.select_one(tag)] *)
Definition select_class (sub : str) (n : node) : list node :=
  filter (fun e => class_contains sub e = true) (descendants n).
Definition select_one (tag : str) (n : node) : option node :=
  head (filter (fun e => has_tag tag e = true) (descendants n)).

(** The first of [els] that has text, rendered with single spaces and cut
    to 160 characters. *)
Fixpoint first_with_text (els : list (option node)) : option str :=
  match els with
  | [] => None
  | Some el :: rest =>
    if eqb (get_text [] el) [] then first_with_text rest
    else Some (take 160 (get_text (py " ") el))
  | None :: rest => first_with_text rest
  end.

Definition best_title (soup : node) (fallback : str) : str :=
  match first_with_text (map (fun sel => select_one (py sel) soup) ["h1"; "h2"; "title"]) with
  | Some t => t
  | None => or_else (Some (take 160 (strip fallback))) (py "(untitled)")
  end.

(** A row of promo_urls.csv, as [csv.DictReader] gives it. *)
Abbreviation promo_row := (gmap string (option str)).

Section Extractor.
Context {C : CaseLib} {F : FloatLib} {U : UrlLib}.

Definition domain_of (url : str) : str :=
  match netloc url with
  | Some n => lower n
  | None => []
  end.

Record DealRow := {
  store_name : str;
  category : str;
  website_domain : str;
  source_url : str;
  title : str;
  new_price : option price;
  old_price : option price;
  discount_percent : option Z;
  in_store_confidence : str;
  needs_review : bool;
  addr : str;
  lat : option float;
  lon : option float;
  captured_at : str;
  publish : option bool;
}.

Definition tile_selectors : list str := map py ["product"; "tile"; "item"; "card"].

(** The key under which a tile is remembered in [seen_titles]. *)
Definition tile_key : Type := str * option price * option price * option Z.

Section Page.
Variables (soup : node) (page_url store_name_ category_ addr_ : str).
Variables (lat_ lon_ : option float).
(** [now_iso], counted from the entry into the function. *)
Variable now_iso : nat -> str.

Definition deal (title_ : str) (p : option price * option price * option Z)
    (conf : str) (calls : nat) : DealRow :=
  {| store_name := store_name_; category := category_;
     website_domain := domain_of page_url; source_url := page_url;
     title := title_; new_price := p.1.1; old_price := p.1.2; discount_percent := p.2;
     in_store_confidence := conf; needs_review := true;
     addr := addr_; lat := lat_; lon := lon_;
     captured_at := now_iso calls; publish := None |}.

(** The body of the loop over the tiles of one family (lines 166-206).
    Every candidate appended so far has called [now_iso] once. *)
Definition scan_tile (conf : str) (acc : list DealRow * list tile_key) (t : node)
    : list DealRow * list tile_key :=
  let '(candidates, seen_titles) := acc in
  let txt := get_text (py " ") t in
  if (length txt <? 20)%nat then acc
  else
    let p := extract_prices txt in
    match p with
    | (None, None, None) => acc
    | _ =>
      let guess :=
        first_with_text (map (fun hsel => select_one (py hsel) t) ["h3"; "h2"; "h4"; "a"; "span"]) in
      let title_ := or_else guess (best_title soup (py "Offer")) in
      let key := (lower title_, p.1.1, p.1.2, p.2) in
      if bool_decide (key ∈ seen_titles) then acc
      else (candidates ++ [deal title_ p conf (length candidates)], key :: seen_titles)
    end.

(** The loop over the first 40 tiles of a family. *)
Definition scan_tiles (conf : str) (acc : list DealRow * list tile_key) (tiles : list node)
    : list DealRow * list tile_key :=
  foldl (scan_tile conf) acc (take 40 tiles).

(** The loop over the selector families (lines 161-209). *)
Fixpoint try_selectors (conf : str) (sels : list str) (acc : list DealRow * list tile_key)
    : list DealRow :=
  match sels with
  | [] => acc.1
  | sel :: rest =>
    let tiles := select_class sel soup in
    if (length tiles <? 4)%nat then try_selectors conf rest acc
    else
      let acc' := scan_tiles conf acc tiles in
      match acc'.1 with
      | [] => try_selectors conf rest acc'
      | _ => acc'.1
      end
  end.

(** The candidates before the cap of line 236. *)
Definition page_candidates : list DealRow :=
  let page_text := get_text (py " ") soup in
  let conf := confidence_from_text page_text in
  match try_selectors conf tile_selectors ([], []) with
  | [] => [deal (best_title soup store_name_) (extract_prices page_text) conf 0]
  | candidates => candidates
  end.

Definition extract_deals_from_page : list DealRow := take 12 page_candidates.

End Page.

(** *** The loop of [main] over the promo rows (lines 279-298) *)

Record meta := Meta { meta_addr : str; meta_lat : str; meta_lon : str }.

(** [float(meta[k]) if meta.get(k) not in (None, "", "nan") else None] *)
Definition meta_float (v : option str) : result (option float) :=
  match v with
  | None => Ok None
  | Some s =>
    if eqb s [] || eqb s (py "nan") then Ok None
    else match float_of_str s with
         | Some x => Ok (Some x)
         | None => Raise ValueError
         end
  end.

(** [store_meta] is the lookup built from stores_with_websites.csv; [page]
    gives the parsed body of a fetch that succeeds with a non-empty body.
    The state is the list [deals] and the number of calls of [now_iso]. *)
Fixpoint main_loop (store_meta : gmap str meta) (page : str -> option node)
    (now_iso : nat -> str) (promo_rows : list promo_row) (deals : list DealRow) (ticks : nat)
    : result (list DealRow) :=
  match promo_rows with
  | [] => Ok deals
  | pr :: rest =>
    let store_name_ := or_else (Some (strip (or_else (mjoin (pr !! "store_name")) [])))
                               (py "(unnamed)") in
    let category_ := or_else (Some (strip (or_else (mjoin (pr !! "category")) [])))
                             (py "unknown") in
    let url := strip (or_else (mjoin (pr !! "promo_url")) []) in
    let dom := lower (strip (or_else (mjoin (pr !! "website_domain")) (domain_of url))) in
    let m := store_meta !! dom in
    let addr_ := from_option meta_addr [] m in
    let* lat_ := meta_float (meta_lat <$> m) in
    let* lon_ := meta_float (meta_lon <$> m) in
    match page url with
    | None => main_loop store_meta page now_iso rest deals ticks
    | Some soup =>
      let clock := fun n => now_iso (ticks + n)%nat in
      let found := page_candidates soup url store_name_ category_ addr_ lat_ lon_ clock in
      main_loop store_meta page now_iso rest (deals ++ take 12 found) (ticks + length found)%nat
    end
  end.

End Extractor.

(** *** [main]: the loop over the promo pages *)
Section Main.
Context {C : CaseLib} {F : FloatLib} {U : UrlLib} {I : IntLib}.

(** [promo_rows[:n]] *)
Definition slice_to {A} (n : Z) (l : list A) : list A :=
  if (0 <=? n)%Z then take (Z.to_nat n) l
  else take (length l - Z.to_nat (- n)) l.

(** The sort key of a promo row (lines 268-272). *)
Definition score (r : promo_row) : Z :=
  match mjoin (r !! "priority_score") with
  | Some (c :: s) => default 0%Z (int_of_str (c :: s))
  | _ => 0%Z
  end.

(** The lookup built from the rows of stores_with_websites.csv (lines
    247-258); there are no rows when the file is missing. *)
Definition store_meta_of (stores : list promo_row) : gmap str meta :=
  fold_left (fun m r =>
               let dom := strip (or_else (mjoin (r !! "website")) []) in
               if eqb dom [] then m
               else <[ domain_of dom :=
                         Meta (strip (or_else (mjoin (r !! "addr")) []))
                              (strip (or_else (mjoin (r !! "lat")) []))
                              (strip (or_else (mjoin (r !! "lon")) [])) ]> m)
            stores ∅.

(** The rows of promo_urls.csv that [main] visits, in the order of the
    visits (lines 274-275). *)
Definition visited (max_pages : Z) (promo_rows : list promo_row) : list promo_row :=
  slice_to max_pages (sorted (fun x y => (score y <? score x)%Z) promo_rows).

(** [main] for a promo_urls.csv that exists (without it [main] returns 2
    at once): from the rows of the two tables to the rows that it then
    writes to deals.csv and deals.xlsx. *)
Definition main (stores : list promo_row) (promo_rows : list promo_row) (max_pages : Z)
    (page : str -> option node) (now_iso : nat -> str) : result (list DealRow) :=
  main_loop (store_meta_of stores) page now_iso (visited max_pages promo_rows) [] 0.

End Main.
End ExtractDeals.

(** ** [src/promo_discover.py]: the promo URL discoverer *)
Module PromoDiscover.
Import Py Lib.

Definition PROMO_PATHS : list str :=
  map py ["/sale"; "/sales"; "/offers"; "/offer"; "/promotions"; "/promotion";
          "/clearance"; "/deals"; "/deal"; "/weekly-ad"; "/weeklyad";
          "/catalogue"; "/catalog"; "/brochure"; "/leaflet"; "/special-offers";
          "/outlet"].

Definition PROMO_KEYWORDS : list str :=
  map py ["sale"; "offer"; "offers"; "promotion"; "promotions"; "clearance";
          "deals"; "discount"; "save"; "special"; "outlet"; "black-friday";
          "leaflet"; "catalogue"; "catalog"; "weekly"].

Definition normalize_url (url : str) : str :=
  let url := strip url in
  if eqb url [] then []
  else if startswith url (py "http://") || startswith url (py "https://") then url
  else py "https://" ++ url.

Section Scoring.
Context {C : CaseLib}.

Definition score_url (url discovered_via : str) : Z :=
  let u := lower url in
  let s := 0%Z in
  let s := fold_left (fun s kw => if contains kw u then (s + 8)%Z else s) PROMO_KEYWORDS s in
  let s := if endswith u (py ".pdf") then (s + 10)%Z else s in
  let s := if contains (py "sitemap") discovered_via then (s + 3)%Z else s in
  let s := if contains (py "common_path") discovered_via then (s + 5)%Z else s in
  let s := if contains (py "homepage_scan") discovered_via then (s + 4)%Z else s in
  s.

End Scoring.

Record PromoUrlRow := {
  store_name : str;
  category : str;
  website : str;
  website_domain : str;
  promo_url : str;
  priority_score : Z;
  discovered_via : str;
  captured_at : str;
}.

(** What the network answers. [sitemap_urls site] is the set that
    [sitemap_urls(site, timeout)] returns and [homepage_links site] the set
    that [extract_links_from_html] returns for the fetched homepage (empty
    when the fetch fails), each in the order in which the set is iterated. *)
Record web := Web {
  sitemap_urls : str -> list str;
  homepage_links : str -> list str;
}.

Abbreviation store := (gmap string (option str)).

Section Discoverer.
Context {C : CaseLib} {U : UrlLib}.

Definition domain_of (url : str) : str :=
  match netloc url with
  | Some n => lower n
  | None => []
  end.

Definition same_domain (a b : str) : bool := eqb (domain_of a) (domain_of b).

Definition has_keyword (u : str) : bool :=
  existsb (fun kw => contains kw (lower u)) PROMO_KEYWORDS.

Variables (w : web) (max_per_store max_pages : Z).
(** [now_iso]: every row appended has called it once. *)
Variable now_iso : nat -> str.

(** The dict [store_candidates] after the three strategies (lines 184-208). *)
Definition store_candidates (website : str) : list (str * (Z * str)) :=
  let base := if endswith website (py "/") then website else website ++ py "/" in
  let c :=
    fold_left (fun c p =>
                 let u := urljoin base (lstrip_char 47 p) in
                 dict_set u (score_url u (py "common_path"), py "common_path") c)
              PROMO_PATHS [] in
  let c :=
    fold_left (fun c u =>
                 if has_keyword u
                 then dict_set u (score_url u (py "sitemap"), py "sitemap") c
                 else c)
              (sitemap_urls w website) c in
  fold_left (fun c u =>
               if has_keyword u && same_domain u website
               then dict_set u (score_url u (py "homepage_scan"), py "homepage_scan") c
               else c)
            (homepage_links w website) c.

Definition ranked (website : str) : list (str * (Z * str)) :=
  sorted (fun x y => (y.2.1 <? x.2.1)%Z) (store_candidates website).

(** The loop's state: the rows, [seen_global], and the stores processed. *)
Record state := St { rows : list PromoUrlRow; seen_global : list str; processed : nat }.

(** Rank + cap (lines 213-232). *)
Fixpoint keep (store_name_ category_ website_ dom : str) (cands : list (str * (Z * str)))
    (kept : Z) (seen : list str) (rs : list PromoUrlRow) : list str * list PromoUrlRow :=
  match cands with
  | [] => (seen, rs)
  | (u, (sc, via)) :: rest =>
    if (max_per_store <=? kept)%Z then (seen, rs)
    else if bool_decide (u ∈ seen) then keep store_name_ category_ website_ dom rest kept seen rs
    else
      let r := {| store_name := or_else (Some store_name_) (py "(unnamed)");
                  category := or_else (Some category_) (py "unknown");
                  website := website_; website_domain := dom; promo_url := u;
                  priority_score := sc; discovered_via := via;
                  captured_at := now_iso (length rs) |} in
      keep store_name_ category_ website_ dom rest (kept + 1)%Z (u :: seen) (rs ++ [r])
  end.

(** A store that has a website (lines 184-232). *)
Definition process_store (s : store) (website_ dom : str) (st : state) : state :=
  let store_name_ := strip (or_else (mjoin (s !! "name")) []) in
  let category_ := strip (or_else (mjoin (s !! "category")) []) in
  let '(seen, rs) := keep store_name_ category_ website_ dom (ranked website_) 0
                          (seen_global st) (rows st) in
  St rs seen (S (processed st)).

(** The loop over the stores (lines 176-242), with its [continue] and [break]. *)
Fixpoint discover (stores : list store) (st : state) : state :=
  match stores with
  | [] => st
  | s :: rest =>
    let website_ := normalize_url (or_else (mjoin (s !! "website")) []) in
    let dom := domain_of website_ in
    if eqb website_ [] || eqb dom [] then discover rest st
    else
      let st' := process_store s website_ dom st in
      if (max_pages <=? Z.of_nat (length (rows st')))%Z then st'
      else discover rest st'
  end.

(** The rows written to promo_urls.csv. *)
Definition main (stores : list store) : list PromoUrlRow :=
  sorted (fun x y => (priority_score y <? priority_score x)%Z)
         (rows (discover stores (St [] [] 0))).

End Discoverer.
End PromoDiscover.


(** ** [src/promo_discover.py]: reading sitemaps and homepages *)
Module PromoLinks.
Import Py Re Lib.

Definition SITEMAP_CANDIDATES : list str :=
  map py ["/sitemap.xml"; "/sitemap_index.xml"; "/sitemap-index.xml"].

(** [p*?], lazy, with backtracking *)
Fixpoint star_lazy {R} (p : char -> bool) (s : str) (k : str -> option R) : option R :=
  match k s with
  | Some x => Some x
  | None =>
    match s with
    | c :: s' => if p c then star_lazy p s' k else None
    | [] => None
    end
  end.

(** A match of [<loc>\s*(.*?)\s*</loc>] under [re.IGNORECASE] at the head
    of [s]: group 1 and the text after the match. The dot matches every
    character but the newline. *)
Definition match_loc (s : str) : option (str * str) :=
  run (lit_i "<loc>") s [] (fun s1 _ =>
    star_greedy isspace s1 (fun s2 =>
      star_lazy (fun c => negb (c =? 10)) s2 (fun s3 =>
        star_greedy isspace s3 (fun s4 =>
          run (lit_i "</loc>") s4 [] (fun s5 _ => Some (consumed s2 s3, s5)))))).

(** [re.findall] of that pattern: group 1 of the matches from left to
    right, none overlapping. [skip] counts the characters still inside the
    previous match. *)
Fixpoint findall_loc_from (skip : nat) (s : str) : list str :=
  match skip with
  | S n => match s with [] => [] | _ :: s' => findall_loc_from n s' end
  | O =>
    match s with
    | [] => []
    | _ :: s' =>
      match match_loc s with
      | Some (g, rest) => g :: findall_loc_from (pred (length s - length rest)) s'
      | None => findall_loc_from 0 s'
      end
    end
  end.
Definition findall_loc (s : str) : list str := findall_loc_from 0 s.

(** [found.add(x)] on a set that is listed in the order of first insertion *)
Definition add (x : str) (found : list str) : list str :=
  if bool_decide (x ∈ found) then found else found ++ [x].

(** The loop over the [loc] elements of one document (lines 143-147). *)
Definition add_locs (max_urls : nat) (xml : str) (found : list str) : list str :=
  fold_left (fun found loc =>
               let loc := strip loc in
               if startswith loc (py "http://") || startswith loc (py "https://")
               then add (before_char 35 loc) found
               else found)
            (take max_urls (findall_loc xml)) found.

Section Fetching.
Context {U : UrlLib}.
(** [fetch(url, timeout)]: the body of a response with a 2xx status, [None]
    otherwise and when the request raises. *)
Variable fetch : str -> option str.

Fixpoint sitemap_scan (site_base : str) (max_urls : nat) (paths : list str) (found : list str)
    : list str :=
  match paths with
  | [] => found
  | path :: rest =>
    match fetch (urljoin site_base path) with
    | Some (c :: xml) =>
      match add_locs max_urls (c :: xml) found with
      | [] => sitemap_scan site_base max_urls rest []
      | found' => found'
      end
    | _ => sitemap_scan site_base max_urls rest found
    end
  end.

(** [sitemap_urls(site_base, timeout)], with the default [max_urls] *)
Definition sitemap_urls (site_base : str) : list str :=
  sitemap_scan site_base 4000 SITEMAP_CANDIDATES [].

(** [extract_links_from_html(base_url, html)]; [hrefs] are the values of the
    [href] attributes of the elements that [a[href]] selects in the parsed
    page, in document order. *)
Definition extract_links_from_html (base_url : str) (hrefs : list str) : list str :=
  fold_left (fun out href =>
               let href := strip href in
               if eqb href [] then out
               else
                 let absu := urljoin base_url href in
                 if startswith absu (py "http://") || startswith absu (py "https://")
                 then add (before_char 35 absu) out
                 else out)
            hrefs [].

(** What steps 2 and 3 of [main] get for a website (lines 193-203);
    [anchors] gives the [href] values of a page. *)
Definition homepage_links (anchors : str -> list str) (website : str) : list str :=
  match fetch website with
  | Some (c :: html) => extract_links_from_html website (anchors (c :: html))
  | _ => []
  end.

End Fetching.
End PromoLinks.


(** ** [src/osm_discover.py]: the store discovery *)
Module OsmDiscover.
Import Py Lib.

Definition OVERPASS_ENDPOINTS : list str :=
  map py ["https://overpass-api.de/api/interpreter";
          "https://overpass.kumi.systems/api/interpreter";
          "https://overpass.nchc.org.tw/api/interpreter"].

Definition normalize_website (url : str) : str :=
  let url := strip url in
  if eqb url [] then []
  else if startswith url (py "http://") || startswith url (py "https://") then url
  else py "https://" ++ url.

(** The tags of an element: OSM tag values are strings. *)
Abbreviation tags := (gmap string str).

Definition build_addr (t : tags) : str :=
  let parts :=
    omap (fun k => match t !! k with
                   | Some (c :: v) => Some (strip (c :: v))
                   | _ => None
                   end)
         ["addr:housenumber"; "addr:street"; "addr:suburb"; "addr:city"; "addr:postcode"]%string in
  join (py ", ") (filter (fun p => p ≠ []) parts).

Section Category.
Context {C : CaseLib}.

Definition infer_category (t : tags) : str :=
  let shop := lower (or_else (t !! "shop") []) in
  let amenity := lower (or_else (t !! "amenity") []) in
  if existsb (eqb shop) (map py ["electronics"; "mobile_phone"; "computer"; "hifi"; "radiotechnics"])
  then py "gadgets/electronics"
  else if existsb (eqb shop) (map py ["clothes"; "fashion"; "shoes"; "boutique"])
  then py "clothes"
  else if existsb (eqb shop) (map py ["jewelry"; "jewellery"])
  then py "jewellery"
  else if existsb (eqb shop) (map py ["perfume"; "beauty"; "cosmetics"; "chemist"; "hairdresser"])
  then py "perfumes/beauty"
  else if existsb (eqb shop) (map py ["appliance"; "houseware"; "furniture"])
  then py "home appliances"
  else if existsb (eqb amenity) (map py ["department_store"])
  then py "gadgets/electronics"
  else py "gadgets/electronics".

End Category.

(** What [request_with_retry] ends with. *)
Inductive outcome (A : Type) :=
| Returned (a : option A)
| ZeroDivisionError.
Arguments Returned {A} a.
Arguments ZeroDivisionError {A}.

(** The loop of [request_with_retry] from attempt number [attempt], with
    [left] attempts to go. [post attempt endpoint] is the parsed body of a
    response with status 200, [None] for another status, for a request
    that raises and for a body that is not JSON. The second component
    counts the requests made. *)
Fixpoint retry {A} (post : nat -> str -> option A) (urls : list str) (attempt left : nat)
    : outcome A * nat :=
  match left with
  | O => (Returned None, O)
  | S left' =>
    match urls with
    | [] => (ZeroDivisionError, O)
    | u0 :: _ =>
      let endpoint := nth ((attempt - 1) mod length urls) urls u0 in
      match post attempt endpoint with
      | Some data => (Returned (Some data), 1%nat)
      | None => let '(r, n) := retry post urls (S attempt) left' in (r, S n)
      end
    end
  end.

Definition request_with_retry {A} (post : nat -> str -> option A) (urls : list str)
    (max_retries : Z) : outcome A * nat :=
  retry post urls 1 (Z.to_nat max_retries).

Section Discoverer.
Context {C : CaseLib} {F : FloatLib}.

Record StoreRow := {
  osm_type : str;
  osm_id : str;
  name : str;
  category : str;
  website : str;
  phone : str;
  opening_hours : str;
  addr : str;
  lat : option float;
  lon : option float;
  source : str;
  captured_at : str;
}.

(** An element of the Overpass answer. [el_id] is [str] of its id; a
    coordinate is the [float] of the number under its key. *)
Record element := {
  el_type : option str;
  el_id : option str;
  el_tags : option tags;
  el_lat : option float;
  el_lon : option float;
  el_center : option (option float * option float);
}.

Definition element_center (el : element) : option float * option float :=
  match el_lat el, el_lon el with
  | Some a, Some b => (Some a, Some b)
  | _, _ =>
    match el_center el with
    | Some (Some a, Some b) => (Some a, Some b)
    | _ => (None, None)
    end
  end.

(** The loop of [main] over the elements (lines 175-207). *)
Fixpoint scan (captured : str) (elements : list element) (seen : list str) (rows : list StoreRow)
    : list StoreRow :=
  match elements with
  | [] => rows
  | el :: rest =>
    let t := default ∅ (el_tags el) in
    let osm_type_ := default [] (el_type el) in
    let osm_id_ := default [] (el_id el) in
    let key := osm_type_ ++ py ":" ++ osm_id_ in
    if bool_decide (key ∈ seen) then scan captured rest seen rows
    else
      let name_ := strip (or_else (t !! "name") (or_else (t !! "brand") [])) in
      let '(lat_, lon_) := element_center el in
      let row :=
        {| osm_type := osm_type_; osm_id := osm_id_;
           name := or_else (Some name_) (py "(unnamed)");
           category := infer_category t;
           website := normalize_website
                        (strip (or_else (t !! "website") (or_else (t !! "contact:website") [])));
           phone := strip (or_else (t !! "phone") (or_else (t !! "contact:phone") []));
           opening_hours := strip (or_else (t !! "opening_hours") []);
           addr := build_addr t;
           lat := lat_; lon := lon_;
           source := py "OpenStreetMap Overpass";
           captured_at := captured |} in
      scan captured rest (key :: seen) (rows ++ [row])
  end.

(** [s.split(ch)] *)
Fixpoint split_char (ch : char) (s : str) : list str :=
  match s with
  | [] => [[]]
  | c :: r =>
    if c =? ch then [] :: split_char ch r
    else match split_char ch r with
         | p :: ps => (c :: p) :: ps
         | [] => [[c]]
         end
  end.

(** What [main] leaves: its return code, the rows of stores_dublin.csv and
    those of stores_with_websites.csv, and the number of requests made.
    The spreadsheet dublin_stores.xlsx holds the rows of stores_dublin.csv
    again, with a map link; writing the three files is outside the model. *)
Record outputs := Outputs {
  code : Z;
  stores_dublin : list StoreRow;
  stores_with_websites : list StoreRow;
  requests : nat;
}.

(** [main]. The answer of Overpass is a JSON object: [None] when it is
    empty, else the list under its key "elements" (empty without the
    key). *)
Definition main (bbox_raw : str) (max_retries : Z)
    (post : nat -> str -> option (option (list element))) (now_iso : nat -> str) : result outputs :=
  let parts := map strip (split_char 44 bbox_raw) in
  if negb (length parts =? 4)%nat then Ok (Outputs 2 [] [] 0)
  else if negb (forallb (fun p => bool_decide (is_Some (float_of_str p))) parts)
  then Raise ValueError
  else
    match request_with_retry post OVERPASS_ENDPOINTS max_retries with
    | (Returned (Some (Some elements)), n) =>
      let rows := scan (now_iso 0%nat) elements [] [] in
      Ok (Outputs 0 rows (filter (fun r => website r ≠ []) rows) n)
    | (_, n) => Ok (Outputs 1 [] [] n)
    end.

End Discoverer.
End OsmDiscover.

(** * The vocabulary of the statements

    Notions that the statements below use, and the small tables and pages
    on which the code is evaluated. *)

(** ** Scoring and identity *)
Section ScoringTerms.
Import Py Lib PromoDiscover.
Context {C : CaseLib}.

(** The promotional keywords that the lowercased URL contains. *)
Definition keyword_hits (url : str) : list str :=
  List.filter (fun kw => contains kw (lower url)) PROMO_KEYWORDS.

End ScoringTerms.

(** The characters of a lowercase hexadecimal numeral. *)
Definition is_hex (c : Py.char) : Prop := 48 <= c <= 57 \/ 97 <= c <= 102.


(** ** Extraction *)
Section ExtractionTerms.
Import Py Lib ExtractDeals.
Context {C : CaseLib} {F : FloatLib} {U : UrlLib}.
Variables (soup : node) (page_url store_name_ category_ addr_ : str).
Variables (lat_ lon_ : option float) (now_iso : nat -> str).

(** The candidates that the tiles of one family give, scanned on their own. *)
Definition family_candidates (sel : str) : list DealRow :=
  (scan_tiles soup page_url store_name_ category_ addr_ lat_ lon_ now_iso
     (confidence_from_text (get_text (py " ") soup)) ([], []) (select_class sel soup)).1.

(** The single row of the whole-page fallback. *)
Definition fallback_deal : DealRow :=
  deal page_url store_name_ category_ addr_ lat_ lon_ now_iso
       (best_title soup store_name_) (extract_prices (get_text (py " ") soup))
       (confidence_from_text (get_text (py " ") soup)) 0%nat.

(** Is [sel] a family with at least 4 elements that gives a candidate? *)
Definition family_wins (sel : str) : bool :=
  (4 <=? length (select_class sel soup))%nat
  && match family_candidates sel with [] => false | _ => true end.

End ExtractionTerms.

Section ExtractionData.
Import Py Lib ExtractDeals.

(** Four elements of class "product" with too little text to be tiles, then
    four list items of class "tile" that each hold a title and two prices. *)
Definition teaser : node := Elem (py "div") (py "product") [Text (py "Soon")].
Definition offer (name now_ was : string) : node :=
  Elem (py "li") (py "tile")
       [Elem (py "h3") [] [Text (py name)];
        Elem (py "p") [] [Text (py " Now "); Text (py now_); Text (py " was "); Text (py was)]].
Definition listing : node :=
  Elem (py "[document]") []
    [Elem (py "html") []
       [Elem (py "head") [] [Elem (py "title") [] [Text (py "Offers")]];
        Elem (py "body") []
          [teaser; teaser; teaser; teaser;
           offer "Kettle" "€11.99" "€21.99"; offer "Toaster" "€12.99" "€22.99";
           offer "Blender" "€13.99" "€23.99"; offer "Iron" "€14.99" "€24.99"]]].

Definition listing_deals : list (@DealRow decimal_floats) :=
  @extract_deals_from_page ascii_case decimal_floats simple_urls listing (py "https://shop.ie/offers")
    (py "Shop") (py "retail") [] None None (fun _ => py "2024-06-01T00:00:00+00:00").

(** The reading of the specification: the first family, in the fixed order,
    that has at least 4 elements. *)
Definition first_family_with_four (soup : node) : option str :=
  List.find (fun sel => (4 <=? length (select_class sel soup))%nat) (@tile_selectors).

(** A promo row for the listing, and store metadata whose latitude is text. *)
Definition listing_row : promo_row :=
  {[ "store_name" := Some (py "Shop"); "category" := Some (py "retail");
     "promo_url" := Some (py "https://shop.ie/offers");
     "website_domain" := Some (py "shop.ie") ]}.
Definition shop_meta : gmap str meta :=
  {[ py "shop.ie" := Meta (py "1 Main St") (py "n/a") (py "-6.26") ]}.

(** A page with text only: no price, no percentage, no element that a tile
    selector matches. *)
Definition plain_page : node :=
  Elem (py "[document]") []
    [Elem (py "html") [] [Elem (py "body") [] [Elem (py "p") [] [Text (py "Welcome to our shop")]]]].

Definition plain_page_deals : list (@DealRow decimal_floats) :=
  @extract_deals_from_page ascii_case decimal_floats simple_urls plain_page (py "https://shop.ie/offers")
    (py "Shop") (py "retail") [] None None (fun _ => py "2024-06-01T00:00:00+00:00").

End ExtractionData.

(** ** Discovery *)
Section DiscoveryData.
Import Py Lib PromoDiscover.

(** No sitemap and no homepage answer: only the common paths are found. *)
Definition offline : web := Web (fun _ => []) (fun _ => []).

Definition shop (n : nat) : store :=
  {[ "name" := Some (py "Shop " ++ str_of_N (N.of_nat n));
     "category" := Some (py "retail");
     "website" := Some (py "shop" ++ str_of_N (N.of_nat n) ++ py ".ie") ]}.

Definition shops : list store := map shop (seq 1 21).

End DiscoveryData.

(** ** The merge *)
Section MergeTerms.
Import Py Lib ExportFeed.
Context {C : CaseLib} {F : FloatLib} {D : DatetimeLib}.

(** [a <= b] on timestamps that compare. *)
Definition dt_le (a b : datetime) : Prop := dt_gt a b = Ok false.

(** Does the row carry [publish = true]? *)
Definition published (r : row) : bool := is_True (to_bool (get r "publish")).

(** The id of the item of a row (it does not depend on the clock). *)
Definition row_id (r : row) : str := id (make_item r []).

(** The items of the rows that pass the publish filter, in the order of
    arrival, each with the clock reading its row gets. *)
Fixpoint arrivals (now_iso : nat -> str) (filtering : bool) (ticks : nat) (rows : list row)
    : list item :=
  match rows with
  | [] => []
  | r :: rest =>
    if filtering && negb (published r) then arrivals now_iso filtering ticks rest
    else make_item r (now_iso ticks)
         :: arrivals now_iso filtering (if needs_clock r then S ticks else ticks) rest
  end.

Fixpoint ticks_after (filtering : bool) (ticks : nat) (rows : list row) : nat :=
  match rows with
  | [] => ticks
  | r :: rest =>
    if filtering && negb (published r) then ticks_after filtering ticks rest
    else ticks_after filtering (if needs_clock r then S ticks else ticks) rest
  end.

Fixpoint resolve_all (latest : list (str * item)) (its : list item)
    : result (list (str * item)) :=
  match its with
  | [] => Ok latest
  | it :: rest => let* latest' := resolve latest it in resolve_all latest' rest
  end.

(** The timestamp the merge compares. *)
Definition stamp (it : item) : datetime := parse_iso (captured_at it).

(** [w] is, among the arrivals with its id, the first of those with the
    latest timestamp. *)
Definition wins (its : list item) (w : item) : Prop :=
  exists i, its !! i = Some w
    /\ forall j it, its !! j = Some it -> id it = id w ->
         dt_le (stamp it) (stamp w) /\ (dt_le (stamp w) (stamp it) -> (i <= j)%nat).

Record merged (its : list item) (latest : list (str * item)) : Prop := {
  merged_nodup : NoDup (map fst latest);
  merged_wins : forall k w, dict_get k latest = Some w -> id w = k /\ wins its w;
  merged_seen : forall it, it ∈ its -> is_Some (dict_get (id it) latest);
}.

End MergeTerms.

Section MergeData.
Import Py Lib ExportFeed.

(** A row of deals.csv for one kettle offer of shop.ie. *)
Definition kettle (store captured publish_ : string) : row :=
  list_to_map
    [("store_name", Some (py store)); ("category", Some (py "retail"));
     ("website_domain", Some (py "shop.ie")); ("source_url", Some (py "https://shop.ie/offers"));
     ("title", Some (py "Kettle")); ("new_price", Some (py "19.50"));
     ("old_price", Some (py "29.50")); ("discount_percent", Some (py ""));
     ("in_store_confidence", Some (py "MEDIUM")); ("needs_review", Some (py "True"));
     ("addr", Some (py "")); ("lat", Some (py "")); ("lon", Some (py ""));
     ("captured_at", Some (py captured)); ("publish", Some (py publish_))].

(** The same row for another product, which has another id. *)
Definition toaster (store captured publish_ : string) : row :=
  <[ "title" := Some (py "Toaster") ]> (kettle store captured publish_).

(** A clock that stands still. *)
Definition at_ (time : string) : nat -> str := fun _ => py time.

(** The feed of a run with the reference [float] and [datetime]. *)
Definition run (now_iso : nat -> str) (rows : list row) : result (@feed decimal_floats) :=
  @main ascii_case decimal_floats iso_seconds now_iso rows.
Definition feed_of (r : result (@feed decimal_floats)) : @feed decimal_floats :=
  match r with
  | Ok f => f
  | Raise _ => Feed [] 0 []
  end.

Definition same_instant : list row :=
  [kettle "First" "2024-01-01T00:00:00+00:00" ""; kettle "Second" "2024-01-01T00:00:00+00:00" ""].
Definition january_june : list row :=
  [kettle "January" "2024-01-01T00:00:00+00:00" ""; kettle "June" "2024-06-01T00:00:00+00:00" ""].
Definition undated_dated : list row :=
  [kettle "Undated" "" ""; kettle "Dated" "2024-06-01T00:00:00+00:00" ""].
Definition curated : list row :=
  [kettle "Reviewed" "2024-01-01T00:00:00+00:00" "true";
   toaster "Unreviewed" "2024-01-01T00:00:00+00:00" "";
   toaster "Rejected" "2024-02-01T00:00:00+00:00" "false"].
Definition unparsable_then_aware : list row :=
  [kettle "Unparsable" "yesterday" ""; kettle "Aware" "2024-06-01T00:00:00+00:00" ""].

End MergeData.

(** ** The run of the extractor *)
Section ExtractorTerms.
Import Py Lib ExtractDeals.
Context {C : CaseLib} {F : FloatLib} {U : UrlLib}.

(** The key under which the row of a tile was remembered. *)
Definition deal_key (d : DealRow) : tile_key :=
  (lower (title d), new_price d, old_price d, discount_percent d).

(** Does the row hold a price or a discount? *)
Definition has_offer (d : DealRow) : bool :=
  bool_decide (new_price d <> None) || bool_decide (old_price d <> None)
  || bool_decide (discount_percent d <> None).

(** A coordinate of the store table that [main] converts without raising. *)
Definition coordinate_ok (s : str) : Prop :=
  s = [] \/ s = py "nan" \/ is_Some (float_of_str s).

(** The URL that [main] fetches for a promo row. *)
Definition promo_url_of (pr : promo_row) : str :=
  strip (or_else (mjoin (pr !! "promo_url")) []).

(** The domain under which [main] looks up the metadata of a promo row. *)
Definition promo_domain (pr : promo_row) : str :=
  lower (strip (or_else (mjoin (pr !! "website_domain")) (domain_of (promo_url_of pr)))).

(** The invariant of the scan: the remembered keys are those of the
    candidates, no two alike; every candidate has a title and an offer, and
    was stamped at its turn. *)
Definition scanned (now_iso : nat -> str) (acc : list DealRow * list tile_key) : Prop :=
  map deal_key acc.1 = rev acc.2
  /\ NoDup acc.2
  /\ Forall (fun d => has_offer d = true /\ title d <> [] /\ (length (title d) <= 160)%nat) acc.1
  /\ map captured_at acc.1 = map now_iso (seq 0 (length acc.1)).

Definition deals_of (r : result (list DealRow)) : list DealRow :=
  match r with
  | Ok ds => ds
  | Raise _ => []
  end.

End ExtractorTerms.


(** ** The rows of promo discovery *)
Section DiscoveryTerms.
Import Py Lib PromoDiscover.
Context {C : CaseLib} {U : UrlLib}.

(** The URLs of the common promo paths of a website (line 188). *)
Definition common_urls (website : str) : list str :=
  map (fun p => urljoin (if endswith website (py "/") then website else website ++ py "/")
                        (lstrip_char 47 p))
      PROMO_PATHS.

(** The three strategies, as [discovered_via] names them. *)
Definition strategies : list str := map py ["common_path"; "sitemap"; "homepage_scan"].

(** Does the URL begin with http:// or https://? *)
Definition is_http (u : str) : bool :=
  startswith u (py "http://") || startswith u (py "https://").

(** What every candidate of a store satisfies: its score is the one of
    its URL under its strategy; a URL found by the sitemap or the homepage
    scan is one of those the network gave and holds a promo keyword, and
    one found by the homepage scan is on the domain of the website; one
    recorded as a common path is one. *)
Definition candidate_ok (w : web) (website : str) (c : str * (Z * str)) : Prop :=
  c.2.1 = score_url c.1 c.2.2
  /\ c.2.2 ∈ strategies
  /\ (c.2.2 = py "common_path" -> c.1 ∈ common_urls website)
  /\ (c.2.2 = py "sitemap" -> c.1 ∈ sitemap_urls w website /\ has_keyword c.1 = true)
  /\ (c.2.2 = py "homepage_scan" ->
      c.1 ∈ homepage_links w website /\ has_keyword c.1 = true
      /\ same_domain c.1 website = true).

(** What every row of promo_urls.csv satisfies. *)
Definition row_ok (w : web) (stores : list store) (r : PromoUrlRow) : Prop :=
  store_name r <> [] /\ category r <> []
  /\ is_http (website r) = true
  /\ website_domain r = domain_of (website r) /\ website_domain r <> []
  /\ candidate_ok w (website r) (promo_url r, (priority_score r, discovered_via r))
  /\ exists s, s ∈ stores /\ website r = normalize_url (or_else (mjoin (s !! "website")) []).

(** The invariant of the loop over the stores. *)
Definition discovered (w : web) (now_iso : nat -> str) (stores : list store) (seen : list str)
    (rs : list PromoUrlRow) : Prop :=
  Forall (row_ok w stores) rs
  /\ NoDup (map promo_url rs)
  /\ (forall r, r ∈ rs -> promo_url r ∈ seen)
  /\ map captured_at rs = map now_iso (seq 0 (length rs)).

End DiscoveryTerms.


(** ** The crawl *)
Section CrawlTerms.
Import Py Lib PromoDiscover.
Context {C : CaseLib} {U : UrlLib}.

(** An absolute URL as the crawl keeps it: http or https, without a
    fragment and without a line break. *)
Definition clean_url (u : str) : Prop :=
  is_http u = true /\ (35 ∉ u) /\ (10 ∉ u).

(** The network as [main] reads it through [sitemap_urls] and
    [extract_links_from_html]. *)
Definition crawled (fetch : str -> option str) (anchors : str -> list str) : web :=
  Web (PromoLinks.sitemap_urls fetch) (PromoLinks.homepage_links fetch anchors).

End CrawlTerms.


(** ** Store discovery *)
Section OsmTerms.
Import Py Lib OsmDiscover.
Context {C : CaseLib} {F : FloatLib}.



(** The categories of the application. *)
Definition categories : list str :=
  map py ["gadgets/electronics"; "clothes"; "jewellery"; "perfumes/beauty"; "home appliances"].


End OsmTerms.


(** ** Further tables and documents *)
Section FurtherData.
Import Py Lib.

(** The feed of the curated table. *)
Definition curated_feed : @ExportFeed.feed decimal_floats :=
  feed_of (run (at_ "2024-07-01T00:00:00+00:00") curated).

(** The January and June rows in the other order. *)
Definition june_january : list ExportFeed.row := rev january_june.

(** The row of the store table for shop.ie, and a run of the extractor on
    the listing. *)
Definition shop_store : ExtractDeals.promo_row :=
  {[ "name" := Some (py "Shop"); "website" := Some (py "https://shop.ie");
     "addr" := Some (py "1 Main St"); "lat" := Some (py " 53.34 "); "lon" := Some (py "-6.26") ]}.
Definition listing_run : result (list (@ExtractDeals.DealRow decimal_floats)) :=
  @ExtractDeals.main ascii_case decimal_floats simple_urls simple_ints [shop_store] [listing_row] 350
    (fun _ => Some listing) (at_ "2024-06-01T00:00:00+00:00").

(** A sitemap with four [loc] elements: one padded, one in capitals with a
    line break and a fragment, one that is not http, one repeated. *)
Definition sitemap_xml : str :=
  py "<urlset><url><loc> https://shop.ie/sale </loc></url><url><LOC>"
  ++ [10] ++ py "https://shop.ie/offers#top</LOC></url><url><loc>ftp://shop.ie/x</loc></url><url><loc>https://shop.ie/sale</loc></url></urlset>".

(** An element of an Overpass answer with an address. *)
Definition address_tags : OsmDiscover.tags :=
  {[ "addr:housenumber" := py "12"; "addr:street" := py " Main St ";
     "addr:suburb" := py "  "; "addr:postcode" := py "D02";
     "shop" := py "Clothes"; "amenity" := py "department_store" ]}.

End FurtherData.


(** * Properties *)

(** ** The library models on known values *)
Section KnownValues.
Import Py Lib.

(** SHA-1 of "abc" and of the empty message (FIPS 180 test vectors). *)
Example sha1_test_vectors :
  Sha1.hexdigest (encode_utf8 (py "abc")) = py "a9993e364706816aba3e25717850c26c9cd0d89d"
  /\ Sha1.hexdigest [] = py "da39a3ee5e6b4b0d3255bfef95601890afd80709".
Proof. split; by vm_compute. Qed.

(** The euro sign is one character, U+20AC, and three bytes. *)
Example euro_sign : py "€" = [8364] /\ encode_utf8 (py "€") = [226; 130; 172].
Proof. split; by vm_compute. Qed.

(** Timestamps: 2024-01-01 at midnight UTC, the same without offset, and
    text that is no timestamp. *)
Example iso_seconds_values :
  iso_seconds_parse (py "2024-01-01T00:00:00+00:00") = Some (Aware 63839664000000000)
  /\ iso_seconds_parse (py "2024-01-01T00:00:00") = Some (Naive 63839664000000000)
  /\ iso_seconds_parse (py "0001-01-01T00:00:00") = Some datetime_min
  /\ iso_seconds_parse (py "yesterday") = None.
Proof. repeat split; by vm_compute. Qed.

(** Floats: [str(float("19.50"))] is "19.5", and "n/a" is no float. *)
Example decimal_values :
  decimal_str <$> decimal_of_str (py "19.50") = Some (py "19.5")
  /\ decimal_str <$> decimal_of_str (py " 5 ") = Some (py "5.0")
  /\ decimal_of_str (py "n/a") = None.
Proof. repeat split; by vm_compute. Qed.

(** The amounts of the extractor, in hundredths. *)
Example amount_values :
  ExtractDeals.to_float (py "49.99") = Some 4999
  /\ ExtractDeals.to_float (py "89,99") = Some 8999
  /\ ExtractDeals.to_float (py "19.50") = Some 1950
  /\ ExtractDeals.to_float (py "5") = Some 500.
Proof. repeat split; by vm_compute. Qed.

(** Digits of other scripts are digits too: Arabic-Indic and fullwidth
    digits in prices and discounts, alone and mixed with 0-9. *)
Example decimal_digit_values :
  length decimal_runs = 66%nat
  /\ map isdecimal (py "0٤７a.,") = [true; true; true; false; false; false]
  /\ map decimal_value (py "0٤７") = [0; 4; 7]
  /\ ExtractDeals.extract_prices (py "€٤٩.٩٩ ٤٠%") = (Some 4999, None, Some 40%Z)
  /\ ExtractDeals.extract_prices (py "EUR 1٢,3٤ gbp７ 5４%") = (Some 700, Some 1234, Some 54%Z).
Proof. repeat split; by vm_compute. Qed.

End KnownValues.

(** ** Sorting *)
Section Sorting.
Import Py.
Context {A : Type} (before : A -> A -> bool).

Lemma insert_sorted_perm (x : A) (l : list A) : insert_sorted before x l ≡ₚ x :: l.
Proof.
  induction l as [|y l IH]; simpl; [done|].
  destruct (before y x); [|done].
  rewrite IH. apply Permutation_swap.
Qed.

Lemma sorted_perm (l : list A) : sorted before l ≡ₚ l.
Proof.
  induction l as [|x l IH]; simpl; [done|].
  rewrite insert_sorted_perm. by rewrite IH.
Qed.

Lemma sorted_length (l : list A) : length (sorted before l) = length l.
Proof. by rewrite sorted_perm. Qed.

Hypothesis before_asym : forall x y, before x y = true -> before y x = false.
Hypothesis before_negtrans :
  forall x y z, before y x = false -> before z y = false -> before z x = false.

Lemma insert_sorted_sorted (x : A) (l : list A) :
  StronglySorted (fun a b => before b a = false) l ->
  StronglySorted (fun a b => before b a = false) (insert_sorted before x l).
Proof.
  induction 1 as [|y l Hl IH Hy]; simpl.
  - repeat constructor.
  - destruct (before y x) eqn:E.
    + constructor; [done|].
      rewrite insert_sorted_perm. constructor; [by apply before_asym|done].
    + constructor; [by constructor|].
      constructor; [done|].
      eapply Forall_impl; [exact Hy|]. intros z Hz. by eapply before_negtrans.
Qed.

Lemma sorted_sorted (l : list A) :
  StronglySorted (fun a b => before b a = false) (sorted before l).
Proof.
  induction l as [|x l IH]; simpl; [constructor|].
  by apply insert_sorted_sorted.
Qed.

End Sorting.

(** ** Promo scoring *)
Section Scoring.
Import Py Lib PromoDiscover.
Context {C : CaseLib}.

Lemma fold_keywords (u : str) (kws : list str) (s0 : Z) :
  fold_left (fun s kw => if contains kw u then (s + 8)%Z else s) kws s0
  = (s0 + 8 * Z.of_nat (length (List.filter (fun kw => contains kw u) kws)))%Z.
Proof.
  revert s0. induction kws as [|kw kws IH]; intros s0; simpl; [lia|].
  rewrite IH. destruct (contains kw u); simpl; lia.
Qed.

Lemma score_url_sum (url via : str) :
  score_url url via
  = (8 * Z.of_nat (length (keyword_hits url))
     + (if endswith (lower url) (py ".pdf") then 10 else 0)
     + (if contains (py "sitemap") via then 3 else 0)
     + (if contains (py "common_path") via then 5 else 0)
     + (if contains (py "homepage_scan") via then 4 else 0))%Z.
Proof.
  unfold score_url, keyword_hits. rewrite fold_keywords.
  repeat match goal with |- context [if ?b then _ else _] => destruct b end; lia.
Qed.

(** C4. [score_url] adds 8 for each keyword of the fixed list that the
    lowercased URL contains, 10 when it ends in ".pdf", and 3, 5 or 4 for the
    strategy sitemap, common_path or homepage_scan. Hence a common-path URL
    with exactly two keywords that ends in ".pdf" scores 31, a homepage-scan
    URL with exactly one keyword (and no ".pdf") scores 12, and the sort by
    descending score puts a row of score 31 before one of score 12. *)
Theorem score_url_policy :
  (forall url : str,
     let base := (8 * Z.of_nat (length (keyword_hits url))
                  + (if endswith (lower url) (py ".pdf") then 10 else 0))%Z in
     score_url url (py "sitemap") = (base + 3)%Z
     /\ score_url url (py "common_path") = (base + 5)%Z
     /\ score_url url (py "homepage_scan") = (base + 4)%Z)
  /\ (forall a b : str,
        length (keyword_hits a) = 2%nat -> endswith (lower a) (py ".pdf") = true ->
        length (keyword_hits b) = 1%nat -> endswith (lower b) (py ".pdf") = false ->
        score_url a (py "common_path") = 31%Z /\ score_url b (py "homepage_scan") = 12%Z)
  /\ (forall ra rb : PromoUrlRow,
        priority_score ra = 31%Z -> priority_score rb = 12%Z ->
        let desc := fun x y => (priority_score y <? priority_score x)%Z in
        sorted desc [rb; ra] = [ra; rb] /\ sorted desc [ra; rb] = [ra; rb]).
Proof.
  split; [|split].
  - intros url base. rewrite !score_url_sum.
    change (contains (py "sitemap") (py "sitemap")) with true.
    change (contains (py "common_path") (py "sitemap")) with false.
    change (contains (py "homepage_scan") (py "sitemap")) with false.
    change (contains (py "sitemap") (py "common_path")) with false.
    change (contains (py "common_path") (py "common_path")) with true.
    change (contains (py "homepage_scan") (py "common_path")) with false.
    change (contains (py "sitemap") (py "homepage_scan")) with false.
    change (contains (py "common_path") (py "homepage_scan")) with false.
    change (contains (py "homepage_scan") (py "homepage_scan")) with true.
    subst base. lia.
  - intros a b Ha Hpa Hb Hpb. rewrite !score_url_sum, Ha, Hpa, Hb, Hpb.
    change (contains (py "sitemap") (py "common_path")) with false.
    change (contains (py "common_path") (py "common_path")) with true.
    change (contains (py "homepage_scan") (py "common_path")) with false.
    change (contains (py "sitemap") (py "homepage_scan")) with false.
    change (contains (py "common_path") (py "homepage_scan")) with false.
    change (contains (py "homepage_scan") (py "homepage_scan")) with true.
    split; reflexivity.
  - intros ra rb Ha Hb desc. unfold sorted, desc; simpl. rewrite Ha, Hb. by simpl.
Qed.

End Scoring.

(** *** The two URLs of the specification *)
Section ScoringExample.
Import Py Lib PromoDiscover.

(** The scores of the specification's two URLs, computed. *)
Lemma score_url_policy_witness :
  @score_url ascii_case (py "https://shop.ie/sale-offer.pdf") (py "common_path") = 31%Z
  /\ @score_url ascii_case (py "https://shop.ie/deals") (py "homepage_scan") = 12%Z.
Proof.
  apply (proj1 (proj2 (@score_url_policy ascii_case))); reflexivity.
Defined.

End ScoringExample.

(** ** The derived identity *)
Section Identity.
Import Py Lib ExportFeed.
Context {C : CaseLib} {F : FloatLib}.

Lemma hex_digit_is_hex (n : N) : n < 16 -> is_hex (Sha1.hex_digit n).
Proof.
  intros Hn. unfold is_hex, Sha1.hex_digit.
  destruct (N.ltb_spec n 10); lia.
Qed.

Lemma hex8_is_hex (w : N) : Forall is_hex (Sha1.hex8 w).
Proof.
  unfold Sha1.hex8. apply Forall_fmap, Forall_forall. intros i _. simpl.
  apply hex_digit_is_hex.
  change 15 with (N.ones 4). rewrite N.land_ones.
  apply N.mod_lt. discriminate.
Qed.

Lemma hexdigest_length (msg : list N) : length (Sha1.hexdigest msg) = 40%nat.
Proof. unfold Sha1.hexdigest, Sha1.hex8. by rewrite !length_app, !length_map. Qed.

Lemma hexdigest_is_hex (msg : list N) : Forall is_hex (Sha1.hexdigest msg).
Proof. unfold Sha1.hexdigest. rewrite !Forall_app. auto using hex8_is_hex. Qed.

Lemma deterministic_id_congr (d1 d2 t1 t2 u1 u2 : str) (p1 p2 : option float) :
  lower d1 = lower d2 -> norm_title t1 = norm_title t2 -> p1 = p2 -> strip u1 = strip u2 ->
  deterministic_id d1 t1 p1 u1 = deterministic_id d2 t2 p2 u2.
Proof. intros Hd Ht Hp Hu. unfold deterministic_id. by rewrite Hd, Ht, Hp, Hu. Qed.

(** C9. The derived id is a function of the lowercased store domain, the
    normalized title, the parsed price and the trimmed source URL: two calls
    that agree on these four give the same id, which is a string of 40
    lowercase hexadecimal digits. *)
Theorem deterministic_id_stable (d1 d2 t1 t2 u1 u2 : str) (p1 p2 : option float) :
  lower d1 = lower d2 ->
  norm_title t1 = norm_title t2 ->
  p1 = p2 ->
  strip u1 = strip u2 ->
  deterministic_id d1 t1 p1 u1 = deterministic_id d2 t2 p2 u2
  /\ length (deterministic_id d1 t1 p1 u1) = 40%nat
  /\ Forall is_hex (deterministic_id d1 t1 p1 u1).
Proof.
  intros Hd Ht Hp Hu. split; [by apply deterministic_id_congr|].
  unfold deterministic_id. auto using hexdigest_length, hexdigest_is_hex.
Qed.

(** The same for the rows of two runs: the id of a row's item depends on
    neither the clock nor the other columns. *)
Lemma item_id_stable (r1 r2 : row) (now1 now2 : str) :
  lower (strip (or_else (get r1 "website_domain") []))
  = lower (strip (or_else (get r2 "website_domain") [])) ->
  norm_title (or_else (Some (strip (or_else (get r1 "title") []))) (py "(untitled)"))
  = norm_title (or_else (Some (strip (or_else (get r2 "title") []))) (py "(untitled)")) ->
  to_float (get r1 "new_price") = to_float (get r2 "new_price") ->
  strip (or_else (get r1 "source_url") []) = strip (or_else (get r2 "source_url") []) ->
  id (make_item r1 now1) = id (make_item r2 now2).
Proof.
  intros Hd Ht Hp Hu. unfold make_item. cbn [id].
  apply deterministic_id_congr; [by rewrite Hd|done|done|by rewrite Hu].
Qed.

End Identity.

(** Two spellings of one deal, and the id they share. *)
Lemma deterministic_id_stable_witness :
  let C := Lib.ascii_case in
  let F := Lib.decimal_floats in
  let p := Lib.float_of_str (Py.py "19.50") in
  ExportFeed.deterministic_id (Py.py "Shop.IE") (Py.py "  Big   SALE: 50% off!") p
                              (Py.py " https://shop.ie/sale ")
  = ExportFeed.deterministic_id (Py.py "shop.ie") (Py.py "big sale 50% off") p
                                (Py.py "https://shop.ie/sale")
  /\ length (ExportFeed.deterministic_id (Py.py "Shop.IE") (Py.py "  Big   SALE: 50% off!") p
                                         (Py.py " https://shop.ie/sale ")) = 40%nat
  /\ Forall is_hex (ExportFeed.deterministic_id (Py.py "Shop.IE")
                      (Py.py "  Big   SALE: 50% off!") p (Py.py " https://shop.ie/sale ")).
Proof.
  intros C F p.
  apply (@deterministic_id_stable C F (Py.py "Shop.IE") (Py.py "shop.ie")
           (Py.py "  Big   SALE: 50% off!") (Py.py "big sale 50% off")
           (Py.py " https://shop.ie/sale ") (Py.py "https://shop.ie/sale") p p);
    [by vm_compute|by vm_compute|reflexivity|by vm_compute].
Defined.

(** ** Extraction of the deals of a page *)
Section Extraction.
Import Py Lib ExtractDeals.
Context {C : CaseLib} {F : FloatLib} {U : UrlLib}.
Variables (soup : node) (page_url store_name_ category_ addr_ : str).
Variables (lat_ lon_ : option float) (now_iso : nat -> str).

Local Abbreviation conf := (confidence_from_text (get_text (py " ") soup)).
Local Abbreviation scan :=
  (scan_tiles soup page_url store_name_ category_ addr_ lat_ lon_ now_iso conf).
Local Abbreviation new_deal := (deal page_url store_name_ category_ addr_ lat_ lon_ now_iso).
Local Abbreviation candidates_of :=
  (family_candidates soup page_url store_name_ category_ addr_ lat_ lon_ now_iso).
Local Abbreviation the_fallback :=
  (fallback_deal soup page_url store_name_ category_ addr_ lat_ lon_ now_iso).
Local Abbreviation wins_family :=
  (family_wins soup page_url store_name_ category_ addr_ lat_ lon_ now_iso).

Lemma scan_tile_step (acc : list DealRow * list tile_key) (t : node) :
  let acc' := scan_tile soup page_url store_name_ category_ addr_ lat_ lon_ now_iso conf acc t in
  acc' = acc \/ exists title_ p key, acc' = (acc.1 ++ [new_deal title_ p conf (length acc.1)], key :: acc.2).
Proof.
  destruct acc as [cands seen]. unfold scan_tile. cbv zeta.
  destruct (_ <? 20)%nat; [by left|].
  destruct (extract_prices _) as [[np op] d].
  case_bool_decide; destruct np, op, d; cbn [fst snd]; eauto.
Qed.

Lemma scan_tiles_inv (P : list DealRow * list tile_key -> Prop) :
  (forall acc title_ p key,
     P acc -> P (acc.1 ++ [new_deal title_ p conf (length acc.1)], key :: acc.2)) ->
  forall tiles acc, P acc -> P (scan acc tiles).
Proof.
  intros Hstep tiles acc. unfold scan_tiles.
  generalize (take 40 tiles) as ts. intros ts. revert acc.
  induction ts as [|t ts IH]; intros acc Hacc; simpl; [done|].
  apply IH.
  destruct (scan_tile_step acc t) as [->|(title_ & p & key & ->)]; auto.
Qed.

Lemma scan_tiles_seen (tiles : list node) (acc : list DealRow * list tile_key) :
  (acc.1 = [] -> acc.2 = []) ->
  (scan acc tiles).1 = [] -> (scan acc tiles).2 = [].
Proof.
  apply (scan_tiles_inv (fun a => a.1 = [] -> a.2 = [])).
  intros a title_ p key _. simpl. by destruct a.1.
Qed.

Lemma try_selectors_find (sels : list str) :
  try_selectors soup page_url store_name_ category_ addr_ lat_ lon_ now_iso conf sels ([], [])
  = match List.find wins_family sels with
    | Some sel => candidates_of sel
    | None => []
    end.
Proof.
  induction sels as [|sel sels IH]; simpl; [done|].
  unfold family_wins at 1, family_candidates at 1.
  destruct (Nat.ltb_spec (length (select_class sel soup)) 4) as [Hlt|Hge].
  - replace (4 <=? length (select_class sel soup))%nat with false
      by (symmetry; apply Nat.leb_gt; lia).
    exact IH.
  - replace (4 <=? length (select_class sel soup))%nat with true
      by (symmetry; apply Nat.leb_le; lia).
    simpl.
    pose proof (scan_tiles_seen (select_class sel soup) ([], []) (fun _ => eq_refl)) as Hseen.
    destruct (scan ([], []) (select_class sel soup)) as [cands seen] eqn:E. simpl in *.
    destruct cands as [|c cands]; [|unfold family_candidates; by rewrite E].
    rewrite (Hseen eq_refl). exact IH.
Qed.

Lemma find_family_wins (sels : list str) (sel : str) :
  List.find wins_family sels = Some sel -> candidates_of sel <> [].
Proof.
  intros H. apply find_some in H as [_ H]. unfold family_wins in H.
  destruct (candidates_of sel); [|done].
  by rewrite andb_false_r in H.
Qed.

Lemma page_candidates_find :
  page_candidates soup page_url store_name_ category_ addr_ lat_ lon_ now_iso
  = match List.find wins_family tile_selectors with
    | Some sel => candidates_of sel
    | None => [the_fallback]
    end.
Proof.
  unfold page_candidates. rewrite try_selectors_find.
  destruct (List.find wins_family tile_selectors) as [sel|] eqn:E; [|done].
  apply find_family_wins in E. by destruct (candidates_of sel).
Qed.

Lemma family_candidates_deals (P : DealRow -> Prop) (sel : str) :
  (forall title_ p n, P (new_deal title_ p conf n)) ->
  Forall P (candidates_of sel).
Proof.
  intros HP. unfold family_candidates.
  apply (scan_tiles_inv (fun a => Forall P a.1)); [|by constructor].
  intros acc title_ p key Hacc. simpl. apply Forall_app. split; [done|].
  constructor; [apply HP|constructor].
Qed.

Lemma extract_deals_find :
  extract_deals_from_page soup page_url store_name_ category_ addr_ lat_ lon_ now_iso
  = match List.find wins_family tile_selectors with
    | Some sel => take 12 (candidates_of sel)
    | None => [the_fallback]
    end.
Proof.
  unfold extract_deals_from_page. rewrite page_candidates_find.
  by destruct (List.find wins_family tile_selectors).
Qed.

Lemma extract_deals_few_tiles :
  (forall sel, sel ∈ tile_selectors -> (length (select_class sel soup) < 4)%nat) ->
  extract_deals_from_page soup page_url store_name_ category_ addr_ lat_ lon_ now_iso
  = [the_fallback].
Proof.
  intros Hsmall. rewrite extract_deals_find.
  destruct (List.find wins_family tile_selectors) as [sel|] eqn:E; [|done].
  apply find_some in E as [Hin E]. unfold family_wins in E.
  apply andb_true_iff in E as [E _]. apply Nat.leb_le in E.
  apply list_elem_of_In, Hsmall in Hin. lia.
Qed.

(** C7, as the code has it. The selector families are tried in their fixed
    order; a family with fewer than 4 elements is skipped, and so is a family
    whose tiles give no candidate. The first family with at least 4 elements
    that gives a candidate supplies the rows (at most 12); when there is none,
    and so on every page where each family has fewer than 4 elements, the
    result is exactly the one row built from the whole-page title and the
    whole-page prices. *)
Theorem tile_family_selection :
  extract_deals_from_page soup page_url store_name_ category_ addr_ lat_ lon_ now_iso
  = match List.find wins_family tile_selectors with
    | Some sel => take 12 (candidates_of sel)
    | None => [the_fallback]
    end
  /\ ((forall sel, sel ∈ tile_selectors -> (length (select_class sel soup) < 4)%nat) ->
      extract_deals_from_page soup page_url store_name_ category_ addr_ lat_ lon_ now_iso
      = [the_fallback]).
Proof. split; [exact extract_deals_find|exact extract_deals_few_tiles]. Qed.

(** C10. Every page gives between 1 and 12 rows, each with
    [needs_review = True] and [publish = None]; a page on which no selector
    family matches anything gives exactly the whole-page row, whatever its
    text holds. *)
Theorem extract_deals_bounds :
  let found := extract_deals_from_page soup page_url store_name_ category_ addr_ lat_ lon_ now_iso in
  (1 <= length found <= 12)%nat
  /\ Forall (fun d => needs_review d = true /\ publish d = None) found
  /\ ((forall sel, sel ∈ tile_selectors -> select_class sel soup = []) ->
      found = [the_fallback]).
Proof.
  intros found. subst found. split; [|split].
  - unfold extract_deals_from_page. rewrite page_candidates_find, length_take.
    destruct (List.find wins_family tile_selectors) as [sel|] eqn:E; [|cbn [length]; lia].
    apply find_family_wins in E. destruct (candidates_of sel); [done|cbn [length]; lia].
  - rewrite extract_deals_find.
    destruct (List.find wins_family tile_selectors) as [sel|].
    + apply Forall_take, family_candidates_deals. done.
    + by repeat constructor.
  - intros Hnone. apply extract_deals_few_tiles.
    intros sel Hsel. rewrite (Hnone sel Hsel). simpl. lia.
Qed.

End Extraction.

(** *** A page whose first family matches but gives nothing *)
Section ExtractionExamples.
Import Py Lib ExtractDeals.

(** C7, as the specification words it, fails. On the listing the first
    family with at least 4 elements is "product"; its elements give no
    candidate, and the rows returned are those of the later family "tile",
    not the whole-page row either. *)
Lemma first_family_with_four_not_used :
  first_family_with_four listing = Some (py "product")
  /\ length (@family_candidates ascii_case decimal_floats simple_urls listing (py "https://shop.ie/offers")
               (py "Shop") (py "retail") [] None None (fun _ => py "2024-06-01T00:00:00+00:00")
               (py "product")) = 0%nat
  /\ map title listing_deals = map py ["Kettle"; "Toaster"; "Blender"; "Iron"]
  /\ map title listing_deals
     = map title (take 12 (@family_candidates ascii_case decimal_floats simple_urls listing
                             (py "https://shop.ie/offers") (py "Shop") (py "retail") [] None None
                             (fun _ => py "2024-06-01T00:00:00+00:00") (py "tile")))
  /\ map (fun d => (new_price d, old_price d)) listing_deals
     = [(Some 1199, Some 2199); (Some 1299, Some 2299); (Some 1399, Some 2399);
        (Some 1499, Some 2499)].
Proof. repeat split; by vm_compute. Qed.

(** The selection on the listing, by the theorem. *)
Lemma tile_family_selection_witness :
  listing_deals
  = match List.find (@family_wins ascii_case decimal_floats simple_urls listing
                       (py "https://shop.ie/offers") (py "Shop") (py "retail") [] None None
                       (fun _ => py "2024-06-01T00:00:00+00:00")) tile_selectors with
    | Some sel =>
      take 12 (@family_candidates ascii_case decimal_floats simple_urls listing
                 (py "https://shop.ie/offers") (py "Shop") (py "retail") [] None None
                 (fun _ => py "2024-06-01T00:00:00+00:00") sel)
    | None =>
      [@fallback_deal ascii_case decimal_floats simple_urls listing (py "https://shop.ie/offers")
         (py "Shop") (py "retail") [] None None (fun _ => py "2024-06-01T00:00:00+00:00")]
    end.
Proof.
  exact (proj1 (@tile_family_selection ascii_case decimal_floats simple_urls listing
                  (py "https://shop.ie/offers") (py "Shop") (py "retail") [] None None
                  (fun _ => py "2024-06-01T00:00:00+00:00"))).
Defined.

(** The plain page gives the one whole-page row, titled by the store name
    and without prices. *)
Lemma extract_deals_bounds_witness :
  map (fun d => (title d, new_price d, old_price d, discount_percent d)) plain_page_deals
  = [(py "Shop", None, None, None)]
  /\ plain_page_deals
     = [@fallback_deal ascii_case decimal_floats simple_urls plain_page (py "https://shop.ie/offers")
          (py "Shop") (py "retail") [] None None (fun _ => py "2024-06-01T00:00:00+00:00")].
Proof.
  split; [by vm_compute|].
  apply (@extract_deals_bounds ascii_case decimal_floats simple_urls plain_page (py "https://shop.ie/offers")
           (py "Shop") (py "retail") [] None None (fun _ => py "2024-06-01T00:00:00+00:00")).
  intros sel Hsel. unfold tile_selectors in Hsel. simpl in Hsel.
  repeat (apply elem_of_cons in Hsel as [->|Hsel]; [reflexivity|]).
  by apply elem_of_nil in Hsel.
Defined.

(** C8, the failing input. The store table gives the latitude "n/a" for
    shop.ie. [main] converts it with a bare [float], outside any [try], so
    the ValueError escapes and ends the run before the page is fetched. *)
Lemma lat_lon_parse_raises :
  raised (@meta_float decimal_floats (Some (py "n/a"))) = Some ValueError
  /\ raised (@main_loop ascii_case decimal_floats simple_urls shop_meta (fun _ => Some listing)
               (fun _ => py "2024-06-01T00:00:00+00:00") [listing_row] [] 0)
     = Some ValueError.
Proof. split; by vm_compute. Qed.

End ExtractionExamples.

(** For every implementation of [float]: a coordinate that is neither empty
    nor "nan" and that [float] refuses raises. *)
Lemma meta_float_raises {F : Lib.FloatLib} (s : Py.str) :
  s <> [] -> s <> Py.py "nan" -> Lib.float_of_str s = None ->
  ExtractDeals.meta_float (Some s) = Py.Raise Py.ValueError.
Proof.
  intros H1 H2 H3. unfold ExtractDeals.meta_float, Py.eqb.
  rewrite !bool_decide_eq_false_2 by done. simpl. by rewrite H3.
Qed.

(** The coercions of the merger return [None] where the conversion fails;
    being total functions into [option], they raise nothing. *)
Lemma merger_coercions {C : Lib.CaseLib} {F : Lib.FloatLib} (v : Py.str) :
  Lib.float_of_str (Py.strip v) = None ->
  ExportFeed.to_float (Some v) = None /\ ExportFeed.to_int (Some v) = None.
Proof.
  intros H. unfold ExportFeed.to_float, ExportFeed.to_int.
  destruct (_ || _); [done|]. by rewrite H.
Qed.

(** ** What the regular expressions match *)
Section RegexFacts.
Import Py Re.

Lemma repeat_greedy_sound {R} (p : char -> bool) (hi : nat) :
  forall (lo : nat) (s : str) (k : str -> option R) (x : R),
    repeat_greedy p lo hi s k = Some x ->
    exists w s', s = w ++ s' /\ (lo <= length w <= hi)%nat /\ forallb p w = true /\ k s' = Some x.
Proof.
  induction hi as [|hi IH]; intros lo s k x H; simpl in H.
  - destruct lo; [|done]. exists [], s. repeat split; simpl; auto.
  - assert (Hstop : match lo with O => k s | S _ => None end = Some x ->
              exists w s', s = w ++ s' /\ (lo <= length w <= S hi)%nat
                           /\ forallb p w = true /\ k s' = Some x).
    { destruct lo; [|done]. intros Hk. exists [], s. repeat split; simpl; auto; lia. }
    destruct s as [|c s']; [by apply Hstop|].
    destruct (p c) eqn:Hc; [|by apply Hstop].
    destruct (repeat_greedy p (pred lo) hi s' k) as [y|] eqn:E; [|by apply Hstop].
    injection H as ->.
    apply IH in E as (w & s'' & -> & Hlen & Hall & Hk).
    exists (c :: w), s''. split; [done|]. split; [simpl; lia|]. split; [|done].
    simpl. by rewrite Hc, Hall.
Qed.

Lemma star_greedy_sound {R} (p : char -> bool) :
  forall (s : str) (k : str -> option R) (x : R),
    star_greedy p s k = Some x ->
    exists w s', s = w ++ s' /\ forallb p w = true /\ k s' = Some x.
Proof.
  induction s as [|c s IH]; intros k x H; simpl in H.
  - by exists [], [].
  - destruct (p c) eqn:Hc; [|by exists [], (c :: s)].
    destruct (star_greedy p s k) as [y|] eqn:E; [|by exists [], (c :: s)].
    injection H as ->.
    apply IH in E as (w & s' & -> & Hall & Hk).
    exists (c :: w), s'. repeat split; simpl; auto. by rewrite Hc, Hall.
Qed.

(** A successful run consumed a word of the regex before calling its
    continuation. *)
Lemma run_sound {R} (r : regex) :
  forall (s : str) (caps : captures) (k : str -> captures -> option R) (x : R),
    run r s caps k = Some x ->
    exists w s' caps', s = w ++ s' /\ lang r w /\ k s' caps' = Some x.
Proof.
  induction r as [p|r1 IH1 r2 IH2|r1 IH1 r2 IH2|r1 IH1|lo hi p|p|name r1 IH1];
    intros s caps k x H; simpl in H.
  - destruct s as [|c s']; [done|]. destruct (p c) eqn:Hc; [|done].
    exists [c], s', caps. simpl. eauto.
  - apply IH1 in H as (w1 & s1 & caps1 & -> & Hw1 & H).
    apply IH2 in H as (w2 & s2 & caps2 & -> & Hw2 & H).
    exists (w1 ++ w2), s2, caps2. rewrite <- app_assoc. simpl. eauto 10.
  - destruct (run r1 s caps k) as [y|] eqn:E.
    + injection H as ->. apply IH1 in E as (w & s' & caps' & -> & Hw & H).
      exists w, s', caps'. simpl. eauto.
    + apply IH2 in H as (w & s' & caps' & -> & Hw & H).
      exists w, s', caps'. simpl. eauto.
  - destruct (run r1 s caps k) as [y|] eqn:E.
    + injection H as ->. apply IH1 in E as (w & s' & caps' & -> & Hw & H).
      exists w, s', caps'. simpl. eauto.
    + exists [], s, caps. simpl. eauto.
  - apply repeat_greedy_sound in H as (w & s' & -> & Hlen & Hall & H).
    exists w, s', caps. simpl. eauto.
  - apply star_greedy_sound in H as (w & s' & -> & Hall & H).
    exists w, s', caps. simpl. eauto.
  - apply IH1 in H as (w & s' & caps' & -> & Hw & H).
    exists w, s', ((name, consumed (w ++ s') s') :: caps'). simpl. eauto.
Qed.

Lemma consumed_app (w s : str) : consumed (w ++ s) s = w.
Proof.
  unfold consumed. rewrite length_app.
  replace (length w + length s - length s)%nat with (length w) by lia.
  by rewrite take_app_length.
Qed.

(** What a group holds when the run succeeds. *)
Lemma run_group_sound {R} (name : string) (r : regex) (s : str) (caps : captures)
    (k : str -> captures -> option R) (x : R) :
  run (Group name r) s caps k = Some x ->
  exists w s' caps', s = w ++ s' /\ lang r w /\ k s' ((name, w) :: caps') = Some x.
Proof.
  simpl. intros H.
  apply run_sound in H as (w & s' & caps' & -> & Hw & H).
  rewrite consumed_app in H. eauto 10.
Qed.

(** Every match of [finditer] is a match at some position. *)
Lemma finditer_from_match (r : regex) (caps : captures) :
  forall (s : str) (skip : nat),
    caps ∈ finditer_from r skip s -> exists s' rest, match_at r s' = Some (caps, rest).
Proof.
  induction s as [|c s IH]; intros skip H.
  - destruct skip; simpl in H; [|by apply elem_of_nil in H].
    destruct (match_at r []) as [[caps' rest]|] eqn:E; [|by apply elem_of_nil in H].
    apply list_elem_of_singleton in H as ->. eauto.
  - destruct skip; simpl in H; [|by eapply IH].
    destruct (match_at r (c :: s)) as [[caps' rest]|] eqn:E; [|by eapply IH].
    apply elem_of_cons in H as [->|H]; [eauto|by eapply IH].
Qed.

End RegexFacts.

(** ** The price heuristic *)
Section Prices.
Import Py Re ExtractDeals.

Lemma isdecimal_neq (c d : char) : isdecimal c = true -> isdecimal d = false -> (c =? d) = false.
Proof. intros Hc Hd. apply N.eqb_neq. intros ->. congruence. Qed.

(** Neither separator is a decimal digit. *)
Lemma isdecimal_comma : isdecimal 44 = false.
Proof. reflexivity. Qed.
Lemma isdecimal_dot : isdecimal 46 = false.
Proof. reflexivity. Qed.

Lemma replace_comma_digits (w : str) :
  forallb isdecimal w = true -> replace_char 44 (py ".") w = w.
Proof.
  unfold replace_char. induction w as [|c w IH]; [done|].
  intros H. cbn [forallb] in H. apply andb_true_iff in H as [Hc Hw].
  cbn [flat_map]. by rewrite (isdecimal_neq c 44 Hc isdecimal_comma), IH.
Qed.

Lemma before_dot_digits (w rest : str) :
  forallb isdecimal w = true -> before_char 46 (w ++ 46 :: rest) = w.
Proof.
  induction w as [|c w IH]; intros H.
  - done.
  - cbn [forallb] in H. apply andb_true_iff in H as [Hc Hw].
    cbn [app before_char]. by rewrite (isdecimal_neq c 46 Hc isdecimal_dot), IH.
Qed.

Lemma replace_char_app (a : char) (b s t : str) :
  replace_char a b (s ++ t) = replace_char a b s ++ replace_char a b t.
Proof. apply flat_map_app. Qed.

Lemma replace_comma_separator (c : char) :
  (c =? 46) || (c =? 44) = true -> replace_char 44 (py ".") [c] = [46].
Proof.
  intros [Hc|Hc]%orb_true_iff; apply N.eqb_eq in Hc; by subst.
Qed.

Lemma drop_past (w rest : str) (c : char) : drop (S (length w)) (w ++ c :: rest) = rest.
Proof. induction w as [|d w IH]; [done|exact IH]. Qed.

Lemma forallb_isdecimal_dot (w rest : str) : forallb isdecimal (w ++ 46 :: rest) = false.
Proof. rewrite forallb_app. cbn [forallb]. rewrite isdecimal_dot. apply andb_false_r. Qed.

(** What [to_float] gives on an amount: the value of the digits, in
    hundredths, with a dot or a comma before two decimals. *)
Lemma to_float_whole (ip : str) :
  forallb isdecimal ip = true -> (1 <= length ip)%nat ->
  to_float ip = Some (100 * int_of_decimals ip).
Proof.
  intros Hd Hlen. unfold to_float. rewrite replace_comma_digits by done.
  unfold float_of_amount. rewrite Hd.
  by replace (1 <=? length ip)%nat with true by (symmetry; apply Nat.leb_le; lia).
Qed.

Lemma to_float_decimals (ip fp : str) (sep : char) :
  forallb isdecimal ip = true -> (1 <= length ip)%nat ->
  (sep =? 46) || (sep =? 44) = true ->
  forallb isdecimal fp = true -> length fp = 2%nat ->
  to_float (ip ++ sep :: fp) = Some (100 * int_of_decimals ip + int_of_decimals fp).
Proof.
  intros Hd1 Hlen1 Hsep Hd2 Hlen2. unfold to_float.
  change (ip ++ sep :: fp) with (ip ++ [sep] ++ fp).
  rewrite !replace_char_app, (replace_comma_digits ip), (replace_comma_digits fp) by done.
  rewrite replace_comma_separator by done.
  unfold float_of_amount. cbn [app].
  rewrite forallb_isdecimal_dot, before_dot_digits by done. cbn [andb].
  rewrite drop_past, Hd1, Hd2.
  replace (1 <=? length ip)%nat with true by (symmetry; apply Nat.leb_le; lia).
  by replace (length fp =? 2)%nat with true by (symmetry; apply Nat.eqb_eq; lia).
Qed.

(** [float] accepts every amount that [PRICE_RE] captures: the [except] of
    the extractor's [to_float] is never reached from [extract_prices]. *)
Lemma to_float_amount (w : str) :
  lang (Cat (Repeat 1 5 isdecimal)
            (Maybe (Cat (Class (fun c => (c =? 46) || (c =? 44))) (Repeat 2 2 isdecimal)))) w ->
  exists p, to_float w = Some p.
Proof.
  intros (w1 & w2 & -> & [Hlen1 Hd1] & [->|(wa & wb & -> & (c & -> & Hc) & [Hlen2 Hd2])]).
  - rewrite app_nil_r. rewrite to_float_whole by (done || lia). eauto.
  - change (w1 ++ [c] ++ wb) with (w1 ++ c :: wb).
    rewrite to_float_decimals by (done || lia). eauto.
Qed.

Lemma price_match_converts (s : str) (caps : captures) (rest : str) :
  match_at PRICE_RE s = Some (caps, rest) -> exists p, to_float (group "amt" caps) = Some p.
Proof.
  unfold match_at, PRICE_RE. intros H.
  change (run (Cat ?a ?b) s [] ?k) with (run a s [] (fun s' caps' => run b s' caps' k)) in H.
  apply run_sound in H as (w0 & s0 & caps0 & _ & _ & H).
  change (run (Cat ?a ?b) s0 caps0 ?k) with (run a s0 caps0 (fun s' caps' => run b s' caps' k)) in H.
  apply run_sound in H as (w1 & s1 & caps1 & _ & _ & H).
  apply run_group_sound in H as (w & s2 & caps2 & _ & Hw & H).
  injection H as <- <-. simpl. by apply to_float_amount.
Qed.

Lemma token_converts (text : str) (m : captures) :
  m ∈ finditer PRICE_RE text -> exists p, to_float (group "amt" m) = Some p.
Proof.
  intros H. apply finditer_from_match in H as (s' & rest & H).
  by eapply price_match_converts.
Qed.

(** C3. With no currency-amount token the prices are absent; with exactly
    one it is the new price and there is no old price; with two or more the
    first two are taken, the smaller as new price and the larger as old
    price. The discount is the first percent match of the text, or absent,
    whatever the prices. The price of a token is the value of its digits
    (the decimal digits of any script), with a dot or a comma before two
    decimals; prices are written here in hundredths, so 49.99 is 4999. The
    three examples of the specification evaluate to (49.99, 89.99, 40),
    (19.50, None, None) and (None, None, None). *)
Theorem extract_prices_policy :
  (forall text : str,
     let discount := (fun pm => Z.of_N (int_of_decimals (group "1" pm)))
                       <$> search PERCENT_RE text in
     match finditer PRICE_RE text with
     | [] => extract_prices text = (None, None, discount)
     | [m] => exists p, to_float (group "amt" m) = Some p
                        /\ extract_prices text = (Some p, None, discount)
     | m1 :: m2 :: _ =>
       exists p1 p2, to_float (group "amt" m1) = Some p1 /\ to_float (group "amt" m2) = Some p2
                     /\ extract_prices text = (Some (N.min p1 p2), Some (N.max p1 p2), discount)
     end)
  /\ (forall (ip fp : str) (sep : char),
        forallb isdecimal ip = true -> (1 <= length ip)%nat ->
        to_float ip = Some (100 * int_of_decimals ip)
        /\ ((sep =? 46) || (sep =? 44) = true ->
            forallb isdecimal fp = true -> length fp = 2%nat ->
            to_float (ip ++ sep :: fp) = Some (100 * int_of_decimals ip + int_of_decimals fp)))
  /\ (forall c : char, 48 <= c <= 57 -> isdecimal c = true /\ decimal_value c = c - 48)
  /\ extract_prices (py "Now €49.99 was €89.99, save 40%") = (Some 4999, Some 8999, Some 40%Z)
  /\ extract_prices (py "€19.50 only") = (Some 1950, None, None)
  /\ extract_prices (py "no price here") = (None, None, None).
Proof.
  split; [|split; [|split; [|by vm_compute]]].
  - intros text discount. unfold extract_prices.
    assert (Hd : match search PERCENT_RE text with
                 | Some pm => Some (Z.of_N (int_of_decimals (group "1" pm)))
                 | None => None
                 end = discount) by (subst discount; by destruct (search PERCENT_RE text)).
    rewrite Hd. clear Hd.
    pose proof (token_converts text) as Hconv.
    destruct (finditer PRICE_RE text) as [|m1 [|m2 rest]]; [done| |].
    + destruct (Hconv m1) as [p Hp]; [by left|].
      exists p. split; [done|]. simpl. by rewrite Hp.
    + destruct (Hconv m1) as [p1 Hp1]; [by left|].
      destruct (Hconv m2) as [p2 Hp2]; [by right; left|].
      exists p1, p2. split; [done|]. split; [done|].
      simpl. rewrite Hp1, Hp2. simpl.
      destruct (N.ltb_spec p1 p2); simpl;
        [rewrite N.min_l, N.max_r by lia|rewrite N.min_r, N.max_l by lia]; done.
  - intros ip fp sep Hd Hlen. split; [by apply to_float_whole|].
    intros Hsep Hd2 Hlen2. by apply to_float_decimals.
  - intros c Hc. unfold isdecimal, decimal_value, decimal_runs. cbn [existsb List.find].
    assert (Hin : in_run c 48 = true).
    { unfold in_run. apply andb_true_iff. split; [apply N.leb_le|apply N.ltb_lt]; lia. }
    rewrite Hin. done.
Qed.

End Prices.

(** ** The caps of promo discovery *)
Section Caps.
Import Py Lib PromoDiscover.
Context {C : CaseLib} {U : UrlLib}.
Variables (w : web) (max_per_store max_pages : Z) (now_iso : nat -> str).

Local Abbreviation keep_ := (keep max_per_store now_iso).
Local Abbreviation process := (process_store w max_per_store now_iso).
Local Abbreviation discover_ := (discover w max_per_store max_pages now_iso).

Lemma keep_length (store_name_ category_ website_ dom : str) (cands : list (str * (Z * str))) :
  forall (kept : Z) (seen : list str) (rs : list PromoUrlRow),
    (length (keep_ store_name_ category_ website_ dom cands kept seen rs).2
     <= length rs + Z.to_nat (max_per_store - kept))%nat.
Proof.
  induction cands as [|[u [sc via]] cands IH]; intros kept seen rs; simpl; [lia|].
  destruct (Z.leb_spec max_per_store kept); simpl; [lia|].
  case_bool_decide.
  - apply IH.
  - etrans; [apply IH|]. rewrite length_app. simpl. lia.
Qed.

Lemma process_store_length (s : store) (website_ dom : str) (st : state) :
  (length (rows (process s website_ dom st)) <= length (rows st) + Z.to_nat max_per_store)%nat.
Proof.
  unfold process_store.
  pose proof (keep_length (strip (or_else (mjoin (s !! "name")) []))
                (strip (or_else (mjoin (s !! "category")) [])) website_ dom
                (ranked w website_) 0 (seen_global st) (rows st)) as H.
  destruct (keep _ _ _ _ _ _ _ _ _ _) as [seen rs]. simpl in *.
  by rewrite Z.sub_0_r in H.
Qed.

Lemma discover_length (stores : list store) :
  forall st : state,
    (length (rows (discover_ stores st))
     <= Nat.max (length (rows st)) (Z.to_nat (max_pages - 1)) + Z.to_nat max_per_store)%nat.
Proof.
  induction stores as [|s stores IH]; intros st; simpl; [lia|].
  destruct (_ || _); [apply IH|].
  pose proof (process_store_length s (normalize_url (or_else (mjoin (s !! "website")) []))
                (domain_of (normalize_url (or_else (mjoin (s !! "website")) []))) st) as Hp.
  destruct (Z.leb_spec max_pages
              (Z.of_nat (length (rows (process_store w max_per_store now_iso s
                 (normalize_url (or_else (mjoin (s !! "website")) []))
                 (domain_of (normalize_url (or_else (mjoin (s !! "website")) []))) st))))).
  - lia.
  - etrans; [apply IH|]. lia.
Qed.

Lemma discover_stops (pre rest : list store) :
  forall st : state,
    (Z.of_nat (length (rows st)) < max_pages)%Z ->
    (max_pages <= Z.of_nat (length (rows (discover_ pre st))))%Z ->
    discover_ (pre ++ rest) st = discover_ pre st.
Proof.
  induction pre as [|s pre IH]; intros st Hlt Hge; simpl in *; [lia|].
  destruct (_ || _); [by apply IH|].
  destruct (Z.leb_spec max_pages
              (Z.of_nat (length (rows (process_store w max_per_store now_iso s
                 (normalize_url (or_else (mjoin (s !! "website")) []))
                 (domain_of (normalize_url (or_else (mjoin (s !! "website")) []))) st)))));
    [done|by apply IH].
Qed.

(** C6, as the code has it. A store adds at most the per-store cap of rows
    (none when the cap is not positive). The global cap is only compared
    with the total after a store is finished, so the total can pass it by
    less than one store's rows: it is at most (global cap - 1) + per-store
    cap. Once a store ends with the total at or above the global cap, the
    loop ends and the stores after it change nothing. *)
Theorem discovery_caps :
  (forall (s : store) (website_ dom : str) (st : state),
     (length (rows (process_store w max_per_store now_iso s website_ dom st))
      <= length (rows st) + Z.to_nat max_per_store)%nat)
  /\ (forall stores : list store,
        (length (main w max_per_store max_pages now_iso stores)
         <= Z.to_nat (max_pages - 1) + Z.to_nat max_per_store)%nat)
  /\ (forall (pre rest : list store) (st : state),
        (Z.of_nat (length (rows st)) < max_pages)%Z ->
        (max_pages <= Z.of_nat (length (rows (discover w max_per_store max_pages now_iso pre st))))%Z ->
        discover w max_per_store max_pages now_iso (pre ++ rest) st
        = discover w max_per_store max_pages now_iso pre st).
Proof.
  split; [exact process_store_length|]. split; [|exact discover_stops].
  intros stores. unfold main. rewrite sorted_length.
  etrans; [apply discover_length|]. simpl. lia.
Qed.

End Caps.

(** *** Twenty-one stores under the default caps *)
Section CapsExample.
Import Py Lib PromoDiscover.

(** C6, as the specification words it, fails. With the default caps (25 per
    store, 350 per run) and 21 stores that each yield their 17 common-path
    URLs, 20 stores give 340 rows, below the cap, so the 21st is processed
    too and the run emits 357 rows. *)
Lemma global_cap_exceeded :
  length (@main ascii_case simple_urls offline 25 350 (fun _ => py "2024-06-01T00:00:00+00:00") (take 20 shops))
  = 340%nat
  /\ length (@main ascii_case simple_urls offline 25 350 (fun _ => py "2024-06-01T00:00:00+00:00") shops)
     = 357%nat
  /\ (350 < Z.of_nat (length (@main ascii_case simple_urls offline 25 350
                            (fun _ => py "2024-06-01T00:00:00+00:00") shops)))%Z.
Proof. by vm_compute. Qed.

(** The bound of the theorem on the same run, and the stop: a 22nd store
    after the 21 changes nothing. *)
Lemma discovery_caps_witness :
  (length (@main ascii_case simple_urls offline 25 350 (fun _ => py "2024-06-01T00:00:00+00:00") shops)
   <= Z.to_nat (350 - 1) + Z.to_nat 25)%nat
  /\ @discover ascii_case simple_urls offline 25 350 (fun _ => py "2024-06-01T00:00:00+00:00")
       (shops ++ [shop 22]) (St [] [] 0)
     = @discover ascii_case simple_urls offline 25 350 (fun _ => py "2024-06-01T00:00:00+00:00")
         shops (St [] [] 0).
Proof.
  split.
  - exact (proj1 (proj2 (@discovery_caps ascii_case simple_urls offline 25 350
                           (fun _ => py "2024-06-01T00:00:00+00:00"))) shops).
  - apply (proj2 (proj2 (@discovery_caps ascii_case simple_urls offline 25 350
                           (fun _ => py "2024-06-01T00:00:00+00:00")))); by vm_compute.
Defined.

End CapsExample.

(** ** Dictionaries, string order and timestamps *)
Section Basics.
Import Py Lib.

Lemma eqb_eq (a b : str) : eqb a b = true <-> a = b.
Proof. unfold eqb. apply bool_decide_eq_true. Qed.

Lemma ltb_irrefl (a : str) : ltb a a = false.
Proof.
  induction a as [|x a IH]; simpl; [done|].
  by rewrite N.ltb_irrefl, N.eqb_refl, IH.
Qed.

Lemma ltb_asym (a b : str) : ltb a b = true -> ltb b a = false.
Proof.
  revert b. induction a as [|x a IH]; intros [|y b]; simpl; try done.
  intros H. apply orb_true_iff in H as [H|H].
  - apply N.ltb_lt in H.
    replace (y <? x) with false by (symmetry; apply N.ltb_ge; lia).
    replace (y =? x) with false by (symmetry; apply N.eqb_neq; lia). done.
  - apply andb_true_iff in H as [Hxy H]. apply N.eqb_eq in Hxy as ->.
    by rewrite N.ltb_irrefl, N.eqb_refl, (IH b H).
Qed.

Lemma ltb_negtrans (a b c : str) : ltb b a = false -> ltb c b = false -> ltb c a = false.
Proof.
  revert b c. induction a as [|x a IH]; intros [|y b] [|z c]; simpl; try done.
  intros H1 H2.
  apply orb_false_iff in H1 as [H1 H1']. apply orb_false_iff in H2 as [H2 H2'].
  apply N.ltb_ge in H1, H2.
  destruct (N.eqb_spec z x) as [Hzx|Hzx].
  - assert (y = x) by lia. subst. rewrite N.eqb_refl in *. simpl in *.
    rewrite N.ltb_irrefl. simpl. eauto.
  - replace (z <? x) with false by (symmetry; apply N.ltb_ge; lia). done.
Qed.

Lemma ltb_total (a b : str) : ltb a b = false -> ltb b a = false -> a = b.
Proof.
  revert b. induction a as [|x a IH]; intros [|y b]; simpl; try done.
  intros H1 H2.
  apply orb_false_iff in H1 as [H1 H1']. apply orb_false_iff in H2 as [H2 H2'].
  apply N.ltb_ge in H1, H2. assert (x = y) as -> by lia.
  rewrite N.eqb_refl in H1', H2'. simpl in *. f_equal. by apply IH.
Qed.

Lemma dict_get_set {V} (k : str) (v : V) (d : list (str * V)) :
  dict_get k (dict_set k v d) = Some v.
Proof.
  induction d as [|[k' v'] d IH]; simpl.
  - by rewrite (proj2 (eqb_eq k k)).
  - destruct (eqb k' k) eqn:E; simpl.
    + by rewrite (proj2 (eqb_eq k k)).
    + by rewrite E.
Qed.

Lemma dict_get_set_ne {V} (k k' : str) (v : V) (d : list (str * V)) :
  k' <> k -> dict_get k' (dict_set k v d) = dict_get k' d.
Proof.
  intros Hne. induction d as [|[k0 v0] d IH]; simpl.
  - destruct (eqb k k') eqn:E; [|done]. apply eqb_eq in E. congruence.
  - destruct (eqb k0 k) eqn:E; simpl.
    + apply eqb_eq in E as ->.
      destruct (eqb k k') eqn:E'; [|done]. apply eqb_eq in E'. congruence.
    + by rewrite IH.
Qed.

Lemma dict_get_elem {V} (k : str) (v : V) (d : list (str * V)) :
  dict_get k d = Some v -> (k, v) ∈ d.
Proof.
  induction d as [|[k' v'] d IH]; simpl; [done|].
  destruct (eqb k' k) eqn:E.
  - apply eqb_eq in E as ->. intros [= ->]. by left.
  - intros H. right. by apply IH.
Qed.

Lemma dict_get_None {V} (k : str) (d : list (str * V)) :
  dict_get k d = None <-> k ∉ map fst d.
Proof.
  induction d as [|[k' v'] d IH]; simpl.
  - split; [intros _; apply not_elem_of_nil|done].
  - destruct (eqb k' k) eqn:E.
    + apply eqb_eq in E as ->. split; [done|]. intros H. destruct H. by left.
    + rewrite IH, not_elem_of_cons. split; [|tauto].
      intros H. split; [|done]. intros ->.
      by rewrite (proj2 (eqb_eq k' k')) in E.
Qed.

Lemma dict_elem_get {V} (k : str) (v : V) (d : list (str * V)) :
  NoDup (map fst d) -> (k, v) ∈ d -> dict_get k d = Some v.
Proof.
  induction d as [|[k' v'] d IH]; simpl; intros Hnd Hin.
  - by apply elem_of_nil in Hin.
  - apply NoDup_cons in Hnd as [Hk' Hnd].
    apply elem_of_cons in Hin as [[= -> ->]|Hin].
    + by rewrite (proj2 (eqb_eq k' k')).
    + destruct (eqb k' k) eqn:E; [|by apply IH].
      apply eqb_eq in E as ->. destruct Hk'.
      apply list_elem_of_fmap. by exists (k, v).
Qed.

Lemma dict_set_keys {V} (k : str) (v : V) (d : list (str * V)) :
  map fst (dict_set k v d) = if bool_decide (k ∈ map fst d) then map fst d else map fst d ++ [k].
Proof.
  induction d as [|[k' v'] d IH]; simpl; [done|].
  destruct (eqb k' k) eqn:E; simpl.
  - apply eqb_eq in E as ->. rewrite bool_decide_eq_true_2; [done|by left].
  - rewrite IH. assert (k' <> k) by (intros ->; by rewrite (proj2 (eqb_eq k k)) in E).
    case_bool_decide as H1; case_bool_decide as H2; try done.
    + destruct H2. by right.
    + apply elem_of_cons in H2 as [?|?]; congruence.
Qed.

Lemma dict_set_NoDup {V} (k : str) (v : V) (d : list (str * V)) :
  NoDup (map fst d) -> NoDup (map fst (dict_set k v d)).
Proof.
  intros Hnd. rewrite dict_set_keys. case_bool_decide; [done|].
  apply NoDup_app. split; [done|]. split; [|apply NoDup_singleton].
  intros x Hx ->%list_elem_of_singleton. done.
Qed.

Lemma dt_le_refl (a : datetime) : dt_le a a.
Proof. unfold dt_le. destruct a; simpl; f_equal; [apply N.ltb_irrefl|apply Z.ltb_irrefl]. Qed.

Lemma dt_gt_le_trans (a b c : datetime) :
  dt_gt b a = Ok true -> dt_le c a -> dt_le c b /\ dt_gt b c = Ok true.
Proof.
  unfold dt_le. destruct a, b, c; simpl; try done; intros [= H1] [= H2].
  - apply N.ltb_lt in H1. apply N.ltb_ge in H2.
    split; f_equal; [apply N.ltb_ge|apply N.ltb_lt]; lia.
  - apply Z.ltb_lt in H1. apply Z.ltb_ge in H2.
    split; f_equal; [apply Z.ltb_ge|apply Z.ltb_lt]; lia.
Qed.

End Basics.

(** ** The merge *)
Section MergeFacts.
Import Py Lib ExportFeed.
Context {C : CaseLib} {F : FloatLib} {D : DatetimeLib}.

Lemma loop_arrivals (now_iso : nat -> str) (filtering : bool) (rows : list row) :
  forall st : state,
    loop now_iso filtering st rows
    = let* latest := resolve_all (latest_by_id st) (arrivals now_iso filtering (ticks st) rows) in
      Ok (St latest (ticks_after filtering (ticks st) rows)).
Proof.
  induction rows as [|r rows IH]; intros [latest t]; simpl; [done|].
  unfold step. fold (published r). simpl.
  destruct (filtering && negb (published r)); simpl; [by rewrite IH|].
  destruct (resolve latest _) as [latest'|e]; simpl; [by rewrite IH|done].
Qed.

Lemma wins_extend (its : list item) (w it : item) :
  wins its w -> (id it = id w -> dt_le (stamp it) (stamp w)) -> wins (its ++ [it]) w.
Proof.
  intros (i & Hi & Hw) Hit. exists i. split; [by apply lookup_app_l_Some|].
  intros j it' Hj Hid. apply lookup_app_Some in Hj as [Hj|[Hlen Hj]]; [by apply Hw|].
  apply list_lookup_singleton_Some in Hj as [_ <-].
  split; [by apply Hit|]. intros _. apply lookup_lt_Some in Hi. lia.
Qed.

Lemma wins_new (its : list item) (it : item) :
  (forall j it', its !! j = Some it' -> id it' = id it ->
                 dt_le (stamp it') (stamp it) /\ dt_gt (stamp it) (stamp it') = Ok true) ->
  wins (its ++ [it]) it.
Proof.
  intros Hold. exists (length its). split; [by apply list_lookup_middle|].
  intros j it' Hj Hid. apply lookup_app_Some in Hj as [Hj|[Hlen Hj]].
  - destruct (Hold j it' Hj Hid) as [Hle Hgt]. split; [done|].
    unfold dt_le. rewrite Hgt. done.
  - apply list_lookup_singleton_Some in Hj as [_ <-]. split; [apply dt_le_refl|done].
Qed.

Lemma dict_set_is_Some {V} (k k0 : str) (v : V) (d : list (str * V)) :
  is_Some (dict_get k d) -> is_Some (dict_get k (dict_set k0 v d)).
Proof.
  intros H. destruct (decide (k = k0)) as [->|Hne].
  - by rewrite dict_get_set.
  - by rewrite dict_get_set_ne.
Qed.

Lemma merged_set (its : list item) (latest : list (str * item)) (it : item) :
  merged its latest ->
  wins (its ++ [it]) it ->
  merged (its ++ [it]) (dict_set (id it) it latest).
Proof.
  intros [Hnd Hw Hseen] Hit. split.
  - by apply dict_set_NoDup.
  - intros k w Hk. destruct (decide (k = id it)) as [->|Hne].
    + rewrite dict_get_set in Hk. by injection Hk as <-.
    + rewrite dict_get_set_ne in Hk by done.
      destruct (Hw k w Hk) as [Hid Hwins]. split; [done|].
      apply wins_extend; [done|]. congruence.
  - intros it' [Hin|Hin%list_elem_of_singleton]%elem_of_app.
    + by apply dict_set_is_Some, Hseen.
    + subst it'. by rewrite dict_get_set.
Qed.

Lemma resolve_merged (its : list item) (latest latest' : list (str * item)) (it : item) :
  merged its latest -> resolve latest it = Ok latest' -> merged (its ++ [it]) latest'.
Proof.
  intros Hm. unfold resolve.
  destruct (dict_get (id it) latest) as [existing|] eqn:Hget.
  - destruct (Hm.(merged_wins _ _) _ _ Hget) as [Hid (i & Hi & Hex)].
    fold (stamp it) (stamp existing).
    destruct (dt_gt (stamp it) (stamp existing)) as [later|] eqn:Hgt; [|done].
    simpl. intros [= <-]. destruct later.
    + apply merged_set; [done|]. apply wins_new. intros j it' Hj Hid'.
      destruct (Hex j it' Hj) as [Hle _]; [congruence|].
      by apply (dt_gt_le_trans (stamp existing)).
    + destruct Hm as [Hnd Hw Hseen]. split; [done| |].
      * intros k w Hk. destruct (Hw k w Hk) as [Hkid Hwins]. split; [done|].
        apply wins_extend; [done|]. intros Hid'.
        assert (w = existing) as -> by congruence. done.
      * intros it' [Hin|Hin%list_elem_of_singleton]%elem_of_app; [by apply Hseen|].
        subst it'. by rewrite Hget.
  - intros [= <-]. apply merged_set; [done|]. apply wins_new.
    intros j it' Hj Hid'. apply list_elem_of_lookup_2 in Hj.
    apply Hm.(merged_seen _ _) in Hj. rewrite Hid', Hget in Hj. by destruct Hj.
Qed.

Lemma resolve_all_merged (new : list item) :
  forall (its : list item) (latest latest' : list (str * item)),
    merged its latest -> resolve_all latest new = Ok latest' -> merged (its ++ new) latest'.
Proof.
  induction new as [|it new IH]; intros its latest latest' Hm; simpl.
  - intros [= <-]. by rewrite app_nil_r.
  - destruct (resolve latest it) as [l1|] eqn:E; [|done]. simpl. intros H.
    replace (its ++ it :: new) with ((its ++ [it]) ++ new) by (by rewrite <- app_assoc).
    eapply IH; [|done]. by eapply resolve_merged.
Qed.

Lemma merged_nil : merged [] [].
Proof.
  split; [constructor|done|]. intros it Hin. by apply elem_of_nil in Hin.
Qed.

(** What a completed run of [main] holds. *)
Lemma main_merged (now_iso : nat -> str) (rows : list row) (f : feed) :
  main now_iso rows = Ok f ->
  exists latest,
    merged (arrivals now_iso (should_filter_publish rows) 0 rows) latest
    /\ items f = sorted (fun x y => ltb (id x) (id y)) (map snd latest)
    /\ generated_at f = now_iso (ticks_after (should_filter_publish rows) 0 rows)
    /\ count f = length (items f).
Proof.
  unfold main. rewrite loop_arrivals. simpl.
  destruct (resolve_all [] _) as [latest|] eqn:E; [|done]. simpl. intros [= <-].
  exists latest. split; [|done].
  by apply (resolve_all_merged _ [] [] latest merged_nil).
Qed.

Lemma merged_item (its : list item) (latest : list (str * item)) (w : item) :
  merged its latest -> w ∈ map snd latest -> dict_get (id w) latest = Some w /\ wins its w.
Proof.
  intros Hm Hin. apply list_elem_of_fmap in Hin as ([k w'] & -> & Hin). simpl.
  apply (dict_elem_get _ _ _ Hm.(merged_nodup _ _)) in Hin.
  destruct (Hm.(merged_wins _ _) _ _ Hin) as [-> Hw]. done.
Qed.

End MergeFacts.

(** ** The published feed *)
Section FeedFacts.
Import Py Lib ExportFeed.
Context {C : CaseLib} {F : FloatLib} {D : DatetimeLib}.

Lemma arrivals_elem (now_iso : nat -> str) (filtering : bool) (rows : list row) :
  forall (t : nat) (it : item),
    it ∈ arrivals now_iso filtering t rows ->
    exists r n, r ∈ rows /\ (filtering = true -> published r = true)
                /\ it = make_item r (now_iso n).
Proof.
  induction rows as [|r rows IH]; intros t it Hin; simpl in Hin.
  - by apply elem_of_nil in Hin.
  - destruct (filtering && negb (published r)) eqn:E.
    + destruct (IH _ _ Hin) as (r' & n & Hr' & Hp & ->). exists r', n. split; [by right|done].
    + apply elem_of_cons in Hin as [->|Hin].
      * exists r, t. split; [by left|]. split; [|done].
        intros ->. simpl in E. by apply negb_false_iff in E.
      * destruct (IH _ _ Hin) as (r' & n & Hr' & Hp & ->). exists r', n. split; [by right|done].
Qed.

Lemma arrivals_complete (now_iso : nat -> str) (filtering : bool) (rows : list row) (r : row) :
  r ∈ rows -> (filtering = true -> published r = true) ->
  forall t : nat, exists n, make_item r (now_iso n) ∈ arrivals now_iso filtering t rows.
Proof.
  intros Hin Hp. induction rows as [|r' rows IH]; intros t; simpl.
  - by apply elem_of_nil in Hin.
  - apply elem_of_cons in Hin as [<-|Hin].
    + replace (filtering && negb (published r)) with false.
      * exists t. by left.
      * destruct filtering; [|done]. simpl. by rewrite Hp.
    + destruct (filtering && negb (published r')).
      * by apply IH.
      * destruct (IH Hin (if needs_clock r' then S t else t)) as [n Hn].
        exists n. by right.
Qed.

Lemma loop_filter (now_iso : nat -> str) (rows : list row) :
  forall st : state,
    loop now_iso true st rows
    = loop now_iso false st (filter (fun r => published r = true) rows).
Proof.
  induction rows as [|r rows IH]; intros st; [done|].
  destruct (published r) eqn:E.
  - rewrite filter_cons_True by done. simpl. unfold step. fold (published r).
    rewrite E. simpl. destruct (resolve _ _); simpl; [apply IH|done].
  - rewrite filter_cons_False by (rewrite E; done).
    simpl. unfold step at 1. fold (published r). rewrite E. simpl. apply IH.
Qed.

Lemma should_filter_publish_true (rows : list row) :
  should_filter_publish rows = true
  <-> has_publish rows = true /\ exists r, r ∈ rows /\ published r = true.
Proof.
  unfold should_filter_publish. rewrite andb_true_iff. split.
  - intros [Hh Hex]. split; [done|]. rewrite Hh in Hex.
    apply existsb_exists in Hex as (v & Hv & Hvt).
    apply in_map_iff in Hv as (r & <- & Hr). exists r. split; [by apply list_elem_of_In|done].
  - intros [Hh (r & Hr & Hp)]. split; [done|]. rewrite Hh.
    apply existsb_exists. exists (to_bool (get r "publish")). split; [|done].
    apply in_map_iff. exists r. split; [done|by apply list_elem_of_In].
Qed.

Lemma items_of_arrivals (its : list item) (latest : list (str * item)) (it : item) :
  merged its latest -> it ∈ its ->
  exists w, w ∈ sorted (fun x y => ltb (id x) (id y)) (map snd latest) /\ id w = id it.
Proof.
  intros Hm Hin. destruct (Hm.(merged_seen _ _) it Hin) as [w Hw].
  exists w. split.
  - rewrite sorted_perm. apply list_elem_of_fmap. exists (id it, w).
    split; [done|]. by apply dict_get_elem.
  - by destruct (Hm.(merged_wins _ _) _ _ Hw).
Qed.

Lemma arrivals_of_items (its : list item) (latest : list (str * item)) (w : item) :
  merged its latest -> w ∈ sorted (fun x y => ltb (id x) (id y)) (map snd latest) ->
  wins its w.
Proof.
  intros Hm Hin. rewrite sorted_perm in Hin. by destruct (merged_item its latest w Hm Hin).
Qed.

(** C5. When the table has a publish column and some row is marked true,
    the merge is the merge of exactly the rows marked true: every published
    item is the item of such a row, and every such row has its id in the
    feed. When no row is marked true, every row of the table has its id in
    the feed. *)
Theorem publish_filter (now_iso : nat -> str) (rows : list row) (f : feed) :
  main now_iso rows = Ok f ->
  (has_publish rows = true -> (exists r, r ∈ rows /\ published r = true) ->
   loop now_iso (should_filter_publish rows) (St [] 0) rows
   = loop now_iso false (St [] 0) (filter (fun r => published r = true) rows)
   /\ (forall it, it ∈ items f ->
         exists r n, r ∈ rows /\ published r = true /\ it = make_item r (now_iso n))
   /\ (forall r, r ∈ rows -> published r = true ->
         exists it, it ∈ items f /\ id it = row_id r))
  /\ ((forall r, r ∈ rows -> published r = false) ->
      forall r, r ∈ rows -> exists it, it ∈ items f /\ id it = row_id r).
Proof.
  intros Hmain. destruct (main_merged _ _ _ Hmain) as (latest & Hm & Hitems & _).
  rewrite Hitems. split.
  - intros Hh Hex.
    assert (Hsf : should_filter_publish rows = true) by (by apply should_filter_publish_true).
    rewrite Hsf in *. split; [apply loop_filter|]. split.
    + intros it Hit. apply (arrivals_of_items _ _ _ Hm) in Hit as (i & Hi & _).
      apply list_elem_of_lookup_2, arrivals_elem in Hi as (r & n & Hr & Hp & ->).
      exists r, n. auto.
    + intros r Hr Hp.
      destruct (arrivals_complete now_iso true rows r Hr (fun _ => Hp) 0%nat) as [n Hn].
      destruct (items_of_arrivals _ _ _ Hm Hn) as (w & Hw & Hid). by exists w.
  - intros Hnone r Hr.
    assert (Hsf : should_filter_publish rows = false).
    { destruct (should_filter_publish rows) eqn:E; [|done].
      apply should_filter_publish_true in E as [_ (r' & Hr' & Hp)].
      by rewrite (Hnone r' Hr') in Hp. }
    rewrite Hsf in *.
    destruct (arrivals_complete now_iso false rows r Hr (fun H => False_ind _ (diff_false_true H)) 0%nat)
      as [n Hn].
    destruct (items_of_arrivals _ _ _ Hm Hn) as (w & Hw & Hid). by exists w.
Qed.

(** C1, as the code has it. In a run that completes, the item kept for an
    id is, among the arriving items with that id, one with the latest
    [captured_at], and of those the one that arrived first: a later arrival
    replaces the held item only when it is strictly later. A [captured_at]
    that does not parse counts as [datetime.min], which no naive timestamp
    precedes, so such an item never replaces one with a naive timestamp and
    is replaced by any that is later than [datetime.min]. *)
Theorem latest_captured_at_wins (now_iso : nat -> str) (rows : list row) (f : feed) :
  main now_iso rows = Ok f ->
  (forall w, w ∈ items f ->
     exists i, arrivals now_iso (should_filter_publish rows) 0 rows !! i = Some w
       /\ forall j it, arrivals now_iso (should_filter_publish rows) 0 rows !! j = Some it ->
            id it = id w ->
            dt_gt (stamp it) (stamp w) = Ok false
            /\ (dt_gt (stamp w) (stamp it) = Ok false -> (i <= j)%nat))
  /\ (forall s, fromisoformat (replace_char 90 (py "+00:00") s) = None ->
                parse_iso s = datetime_min)
  /\ (forall us, dt_gt datetime_min (Naive us) = Ok false)
  /\ (forall us, 0 < us -> dt_gt (Naive us) datetime_min = Ok true).
Proof.
  intros Hmain. destruct (main_merged _ _ _ Hmain) as (latest & Hm & Hitems & _).
  split; [|split; [|split]].
  - intros w Hw. rewrite Hitems in Hw. exact (arrivals_of_items _ _ _ Hm Hw).
  - intros s Hs. unfold parse_iso. by rewrite Hs.
  - intros us. simpl. f_equal. apply N.ltb_ge. lia.
  - intros us Hus. simpl. f_equal. by apply N.ltb_lt.
Qed.

Lemma strictly_sorted (l : list item) :
  StronglySorted (fun a b => ltb (id b) (id a) = false) l ->
  NoDup (map id l) ->
  StronglySorted (fun a b => ltb (id a) (id b) = true) l.
Proof.
  induction 1 as [|a l Hl IH Ha]; intros Hnd; [constructor|].
  simpl in Hnd. apply NoDup_cons in Hnd as [Hna Hnd].
  constructor; [by apply IH|].
  apply Forall_forall. intros b Hb.
  pose proof (proj1 (Forall_forall _ _) Ha b Hb) as Hba. simpl in Hba.
  destruct (ltb (id a) (id b)) eqn:E; [done|].
  destruct Hna. rewrite (ltb_total _ _ E Hba). apply list_elem_of_fmap. by exists b.
Qed.

Lemma merged_ids (its : list item) (latest : list (str * item)) :
  merged its latest -> map id (map snd latest) = map fst latest.
Proof.
  intros Hm. rewrite map_map. apply map_ext_in. intros [k w] Hin. simpl.
  apply list_elem_of_In in Hin.
  apply (dict_elem_get _ _ _ Hm.(merged_nodup _ _)) in Hin.
  by destruct (Hm.(merged_wins _ _) _ _ Hin).
Qed.

Lemma or_else_nonempty (x : option str) (d : str) : or_else x [] <> [] -> or_else x d = or_else x [].
Proof. by destruct x as [[|c r]|]. Qed.

Lemma make_item_clock (r : row) (n1 n2 : str) :
  needs_clock r = false -> make_item r n1 = make_item r n2.
Proof.
  unfold needs_clock. intros H. unfold make_item.
  rewrite (or_else_nonempty _ n1), (or_else_nonempty _ n2); [done| |];
    intros Heq; by rewrite Heq in H.
Qed.

Lemma arrivals_clock (now1 now2 : nat -> str) (filtering : bool) (rows : list row) :
  forallb (fun r => negb (needs_clock r)) rows = true ->
  forall t1 t2 : nat,
    arrivals now1 filtering t1 rows = arrivals now2 filtering t2 rows
    /\ ticks_after filtering t1 rows = t1.
Proof.
  induction rows as [|r rows IH]; intros Hall t1 t2; [done|].
  simpl in Hall. apply andb_true_iff in Hall as [Hr Hall]. apply negb_true_iff in Hr.
  simpl. rewrite Hr. destruct (filtering && negb (published r)); [by apply IH|].
  destruct (IH Hall t1 t2) as [-> ->]. by rewrite (make_item_clock r _ (now2 t2) Hr).
Qed.

(** C2, as the code has it. The items of a feed are strictly ascending by
    id, whatever the order of the table. When every row carries a
    [captured_at], a second run at any other time gives the same items, the
    same choice for each id in the same order; [generated_at], and the
    [captured_at] given to rows that have none, are read from the clock. *)
Theorem merge_rerun_stable (now1 now2 : nat -> str) (rows : list row) (f1 : feed) :
  main now1 rows = Ok f1 ->
  StronglySorted (fun a b => ltb (id a) (id b) = true) (items f1)
  /\ (forallb (fun r => negb (needs_clock r)) rows = true ->
      exists f2, main now2 rows = Ok f2 /\ items f2 = items f1 /\ count f2 = count f1
                 /\ generated_at f1 = now1 0%nat /\ generated_at f2 = now2 0%nat).
Proof.
  intros Hmain. destruct (main_merged _ _ _ Hmain) as (latest & Hm & Hitems & Hgen & Hcount).
  split.
  - rewrite Hitems. apply strictly_sorted.
    + apply sorted_sorted.
      * intros x y. apply ltb_asym.
      * intros x y z. apply ltb_negtrans.
    + rewrite sorted_perm, (merged_ids _ _ Hm). apply Hm.(merged_nodup _ _).
  - intros Hall.
    destruct (arrivals_clock now1 now2 (should_filter_publish rows) rows Hall 0%nat 0%nat)
      as [Harr Ht1].
    destruct (arrivals_clock now2 now1 (should_filter_publish rows) rows Hall 0%nat 0%nat)
      as [_ Ht2].
    revert Hmain. unfold main. rewrite !loop_arrivals. simpl. rewrite <- Harr.
    destruct (resolve_all [] _) as [l|]; [|done]. simpl. intros [= <-]. simpl.
    eexists. split; [done|]. simpl. by rewrite Ht1.
Qed.

(** A run completes when the timestamps it compares are all aware, or all
    naive. *)
Lemma resolve_all_completes (P : datetime -> Prop) (its : list item) :
  (forall a b, P a -> P b -> exists later, dt_gt a b = Ok later) ->
  Forall (fun it => P (stamp it)) its ->
  forall latest : list (str * item),
    (forall k w, dict_get k latest = Some w -> P (stamp w)) ->
    exists latest', resolve_all latest its = Ok latest'.
Proof.
  intros HP. induction 1 as [|it its Hit Hits IH]; intros latest Hl; simpl; [eauto|].
  unfold resolve. destruct (dict_get (id it) latest) as [existing|] eqn:E.
  - fold (stamp it) (stamp existing).
    destruct (HP _ _ Hit (Hl _ _ E)) as [later ->]. simpl. apply IH.
    destruct later; [|done].
    intros k w. destruct (decide (k = id it)) as [->|Hne].
    + rewrite dict_get_set. by intros [= <-].
    + rewrite dict_get_set_ne by done. apply Hl.
  - simpl. apply IH. intros k w. destruct (decide (k = id it)) as [->|Hne].
    + rewrite dict_get_set. by intros [= <-].
    + rewrite dict_get_set_ne by done. apply Hl.
Qed.

Lemma main_completes (now_iso : nat -> str) (rows : list row) :
  Forall (fun it => exists us, stamp it = Aware us)
         (arrivals now_iso (should_filter_publish rows) 0 rows)
  \/ Forall (fun it => exists us, stamp it = Naive us)
            (arrivals now_iso (should_filter_publish rows) 0 rows) ->
  exists f, main now_iso rows = Ok f.
Proof.
  intros H. unfold main. rewrite loop_arrivals. simpl.
  assert (exists latest, resolve_all [] (arrivals now_iso (should_filter_publish rows) 0 rows)
                         = Ok latest) as [latest ->]; [|simpl; eauto].
  destruct H as [H|H].
  - apply (resolve_all_completes (fun d => exists us, d = Aware us)); [|done|done].
    intros a b [x ->] [y ->]. simpl. eauto.
  - apply (resolve_all_completes (fun d => exists us, d = Naive us)); [|done|done].
    intros a b [x ->] [y ->]. simpl. eauto.
Qed.

End FeedFacts.

(** *** Small tables *)
Section FeedExamples.
Import Py Lib ExportFeed.
Local Existing Instance ascii_case.

Lemma feed_of_ok (r : result (@feed decimal_floats)) : raised r = None -> r = Ok (feed_of r).
Proof. by destruct r. Qed.

(** C1, as the specification words it, fails on a tie. Two rows with one
    id and the same [captured_at]: the row that arrived first is kept, not
    the later arrival. *)
Lemma tie_keeps_first_arrival :
  @row_id ascii_case decimal_floats (kettle "First" "2024-01-01T00:00:00+00:00" "")
  = @row_id ascii_case decimal_floats (kettle "Second" "2024-01-01T00:00:00+00:00" "")
  /\ exists f, run (at_ "2024-07-01T00:00:00+00:00") same_instant = Ok f
               /\ map store_name (items f) = [py "First"].
Proof.
  split; [by vm_compute|].
  exists (feed_of (run (at_ "2024-07-01T00:00:00+00:00") same_instant)).
  split; [apply feed_of_ok|]; by vm_compute.
Qed.

(** The other way in which a row with a valid timestamp fails to beat one
    without: against an aware timestamp the comparison with [datetime.min]
    raises, and the run ends without a feed. *)
Lemma unparsable_against_aware_raises :
  raised (run (at_ "2024-07-01T00:00:00+00:00") unparsable_then_aware) = Some TypeError.
Proof. by vm_compute. Qed.

(** The specification's January and June rows: June is kept. *)
Lemma latest_captured_at_wins_witness :
  map store_name (items (feed_of (run (at_ "2024-07-01T00:00:00+00:00") january_june)))
  = [py "June"]
  /\ forall w,
       w ∈ items (feed_of (run (at_ "2024-07-01T00:00:00+00:00") january_june)) ->
       exists i,
         @arrivals ascii_case decimal_floats (at_ "2024-07-01T00:00:00+00:00")
           (should_filter_publish january_june) 0 january_june !! i = Some w
         /\ forall j it,
              @arrivals ascii_case decimal_floats (at_ "2024-07-01T00:00:00+00:00")
                (should_filter_publish january_june) 0 january_june !! j = Some it ->
              id it = id w ->
              dt_gt (@stamp decimal_floats iso_seconds it) (@stamp decimal_floats iso_seconds w)
              = Ok false
              /\ (dt_gt (@stamp decimal_floats iso_seconds w) (@stamp decimal_floats iso_seconds it)
                  = Ok false -> (i <= j)%nat).
Proof.
  split; [by vm_compute|].
  apply (@latest_captured_at_wins ascii_case decimal_floats iso_seconds
           (at_ "2024-07-01T00:00:00+00:00") january_june).
  apply feed_of_ok. by vm_compute.
Defined.

(** C2, as the specification words it, fails. A row without [captured_at]
    is stamped with the time of the run, so the same table merged in
    January 2024 and in January 2025 keeps a different row for the id, and
    the two feeds differ in their items as well as in [generated_at]. *)
Lemma rerun_changes_choice :
  exists f1 f2,
    run (at_ "2024-01-01T00:00:00+00:00") undated_dated = Ok f1
    /\ run (at_ "2025-01-01T00:00:00+00:00") undated_dated = Ok f2
    /\ map store_name (items f1) = [py "Dated"]
    /\ map store_name (items f2) = [py "Undated"]
    /\ generated_at f1 <> generated_at f2.
Proof.
  exists (feed_of (run (at_ "2024-01-01T00:00:00+00:00") undated_dated)),
         (feed_of (run (at_ "2025-01-01T00:00:00+00:00") undated_dated)).
  split; [apply feed_of_ok; by vm_compute|].
  split; [apply feed_of_ok; by vm_compute|].
  repeat split; by vm_compute.
Qed.

(** Two runs a year apart on a table whose rows all carry [captured_at]. *)
Lemma merge_rerun_stable_witness :
  run (at_ "2024-07-01T00:00:00+00:00") january_june
  = Ok (feed_of (run (at_ "2024-07-01T00:00:00+00:00") january_june))
  /\ StronglySorted (fun a b => ltb (id a) (id b) = true)
       (items (feed_of (run (at_ "2024-07-01T00:00:00+00:00") january_june)))
  /\ (forallb (fun r => negb (needs_clock r)) january_june = true ->
      exists f2,
        @main ascii_case decimal_floats iso_seconds (at_ "2025-07-01T00:00:00+00:00") january_june = Ok f2
        /\ items f2 = items (feed_of (run (at_ "2024-07-01T00:00:00+00:00") january_june))
        /\ count f2 = count (feed_of (run (at_ "2024-07-01T00:00:00+00:00") january_june))
        /\ generated_at (feed_of (run (at_ "2024-07-01T00:00:00+00:00") january_june))
           = at_ "2024-07-01T00:00:00+00:00" 0%nat
        /\ generated_at f2 = at_ "2025-07-01T00:00:00+00:00" 0%nat).
Proof.
  split; [apply feed_of_ok; by vm_compute|].
  apply (@merge_rerun_stable ascii_case decimal_floats iso_seconds (at_ "2024-07-01T00:00:00+00:00")
           (at_ "2025-07-01T00:00:00+00:00") january_june).
  apply feed_of_ok. by vm_compute.
Defined.

(** A curated table: one row marked true, one unmarked, one marked false. *)
Lemma publish_filter_witness :
  map store_name (items (feed_of (run (at_ "2024-07-01T00:00:00+00:00") curated)))
  = [py "Reviewed"]
  /\ (has_publish curated = true ->
      (exists r, r ∈ curated /\ published r = true) ->
      @loop ascii_case decimal_floats iso_seconds (at_ "2024-07-01T00:00:00+00:00")
        (should_filter_publish curated) (St [] 0) curated
      = @loop ascii_case decimal_floats iso_seconds (at_ "2024-07-01T00:00:00+00:00") false (St [] 0)
          (filter (fun r => published r = true) curated)
      /\ (forall it : @item decimal_floats,
            it ∈ items (feed_of (run (at_ "2024-07-01T00:00:00+00:00") curated)) ->
            exists r n, r ∈ curated /\ published r = true
                        /\ it = make_item r (at_ "2024-07-01T00:00:00+00:00" n))
      /\ (forall r, r ∈ curated -> published r = true ->
            exists it : @item decimal_floats,
              it ∈ items (feed_of (run (at_ "2024-07-01T00:00:00+00:00") curated))
              /\ id it = @row_id ascii_case decimal_floats r))
  /\ ((forall r, r ∈ curated -> published r = false) ->
      forall r, r ∈ curated ->
        exists it : @item decimal_floats,
          it ∈ items (feed_of (run (at_ "2024-07-01T00:00:00+00:00") curated))
          /\ id it = @row_id ascii_case decimal_floats r).
Proof.
  split; [by vm_compute|].
  apply (@publish_filter ascii_case decimal_floats iso_seconds (at_ "2024-07-01T00:00:00+00:00") curated).
  apply feed_of_ok. by vm_compute.
Defined.

(** Without any row marked true the unmarked and rejected rows are merged
    too: the toaster offers share an id and the later one is kept. *)
Lemma unfiltered_table_keeps_all :
  map store_name (items (feed_of (run (at_ "2024-07-01T00:00:00+00:00") (drop 1 curated))))
  = [py "Rejected"].
Proof. by vm_compute. Qed.

End FeedExamples.


(** ** The shape of the feed *)
Section FeedShape.
Import Py Lib ExportFeed.
Context {C : CaseLib} {F : FloatLib} {D : DatetimeLib}.

Lemma dict_set_length {V} (k : str) (v : V) (d : list (str * V)) :
  (length (dict_set k v d) <= S (length d))%nat.
Proof. induction d as [|[k' v'] d IH]; simpl; [lia|]. destruct (eqb k' k); simpl; lia. Qed.

Lemma resolve_all_length (its : list item) :
  forall latest latest' : list (str * item),
    resolve_all latest its = Ok latest' ->
    (length latest' <= length latest + length its)%nat.
Proof.
  induction its as [|it its IH]; intros latest latest'; simpl.
  - intros [= <-]. lia.
  - unfold resolve at 1. destruct (dict_get (id it) latest) as [existing|].
    + destruct (dt_gt _ _) as [later|]; [|done]. simpl. intros H. apply IH in H.
      destruct later; [|lia].
      pose proof (dict_set_length (id it) it latest). lia.
    + simpl. intros H. apply IH in H.
      pose proof (dict_set_length (id it) it latest). lia.
Qed.

Lemma arrivals_length (now_iso : nat -> str) (filtering : bool) (rows : list row) :
  forall t : nat, (length (arrivals now_iso filtering t rows) <= length rows)%nat.
Proof.
  induction rows as [|r rows IH]; intros t; simpl; [lia|].
  destruct (filtering && negb (published r)); simpl.
  - specialize (IH t). lia.
  - specialize (IH (if needs_clock r then S t else t)). lia.
Qed.

Lemma main_resolved (now_iso : nat -> str) (rows : list row) (f : feed) :
  main now_iso rows = Ok f ->
  exists latest,
    resolve_all [] (arrivals now_iso (should_filter_publish rows) 0 rows) = Ok latest
    /\ merged (arrivals now_iso (should_filter_publish rows) 0 rows) latest
    /\ items f = sorted (fun x y => ltb (id x) (id y)) (map snd latest)
    /\ count f = length (items f).
Proof.
  unfold main. rewrite loop_arrivals. simpl.
  destruct (resolve_all [] _) as [latest|] eqn:E; [|done]. simpl. intros [= <-].
  exists latest. split; [done|]. split; [|done].
  by apply (resolve_all_merged _ [] [] latest merged_nil).
Qed.

Lemma make_item_id (r : row) (now : str) : id (make_item r now) = row_id r.
Proof. unfold row_id. by apply item_id_stable. Qed.

(** X1. The feed of a run that completes holds one item for each id among the
    rows that pass the publish filter, and nothing else: [count] is the
    number of items, no two items share an id, there are at most as many
    items as rows, and an id is in the feed exactly when it is the id of a
    row that passes the filter. *)
Theorem feed_well_formed (now_iso : nat -> str) (rows : list row) (f : feed) :
  main now_iso rows = Ok f ->
  count f = length (items f)
  /\ NoDup (map id (items f))
  /\ (length (items f) <= length rows)%nat
  /\ forall k : str,
       k ∈ map id (items f)
       <-> exists r, r ∈ rows /\ (should_filter_publish rows = true -> published r = true)
                     /\ row_id r = k.
Proof.
  intros Hmain.
  destruct (main_resolved _ _ _ Hmain) as (latest & Hres & Hm & Hitems & Hcount).
  split; [done|]. rewrite Hitems. split; [|split].
  - rewrite sorted_perm, (merged_ids _ _ Hm). apply Hm.(merged_nodup _ _).
  - rewrite sorted_length, length_map. apply resolve_all_length in Hres. simpl in Hres.
    etrans; [exact Hres|]. apply arrivals_length.
  - intros k. split.
    + intros (it & -> & Hit)%list_elem_of_fmap.
      apply (arrivals_of_items _ _ _ Hm) in Hit as (i & Hi & _).
      apply list_elem_of_lookup_2, arrivals_elem in Hi as (r & n & Hr & Hp & ->).
      exists r. by rewrite make_item_id.
    + intros (r & Hr & Hp & <-).
      destruct (arrivals_complete now_iso _ rows r Hr Hp 0%nat) as [n Hn].
      destruct (items_of_arrivals _ _ _ Hm Hn) as (w & Hw & Hid).
      apply list_elem_of_fmap. exists w. split; [|done]. by rewrite Hid, make_item_id.
Qed.

Lemma strictly_sorted_ext (l1 : list item) :
  forall l2 : list item,
    StronglySorted (fun a b => ltb (id a) (id b) = true) l1 ->
    StronglySorted (fun a b => ltb (id a) (id b) = true) l2 ->
    (forall x, x ∈ l1 <-> x ∈ l2) ->
    l1 = l2.
Proof.
  induction l1 as [|a t1 IH]; intros l2 H1 H2 Hext.
  - destruct l2 as [|b t2]; [done|].
    destruct (not_elem_of_nil b). apply Hext. by left.
  - destruct l2 as [|b t2].
    { destruct (not_elem_of_nil a). apply Hext. by left. }
    apply StronglySorted_inv in H1 as [H1 Ha]. apply StronglySorted_inv in H2 as [H2 Hb].
    rewrite Forall_forall in Ha, Hb.
    assert (a = b) as <-.
    { assert (Hin1 : a ∈ b :: t2) by (apply Hext; by left).
      assert (Hin2 : b ∈ a :: t1) by (apply Hext; by left).
      apply elem_of_cons in Hin1 as [?|Hin1]; [done|].
      apply elem_of_cons in Hin2 as [?|Hin2]; [done|].
      apply Hb in Hin1. apply Ha in Hin2. apply ltb_asym in Hin1. congruence. }
    f_equal. apply IH; [done|done|]. intros x. split; intros Hx.
    + assert (Hx' : x ∈ a :: t2) by (apply Hext; by right).
      apply elem_of_cons in Hx' as [->|?]; [|done].
      apply Ha in Hx. by rewrite ltb_irrefl in Hx.
    + assert (Hx' : x ∈ a :: t1) by (apply Hext; by right).
      apply elem_of_cons in Hx' as [->|?]; [|done].
      apply Hb in Hx. by rewrite ltb_irrefl in Hx.
Qed.

Lemma arrivals_no_clock (now_iso : nat -> str) (filtering : bool) (rows : list row) (t : nat)
    (it : item) :
  forallb (fun r => negb (needs_clock r)) rows = true ->
  it ∈ arrivals now_iso filtering t rows
  <-> exists r, r ∈ rows /\ (filtering = true -> published r = true) /\ it = make_item r [].
Proof.
  intros Hall. rewrite forallb_forall in Hall. split.
  - intros (r & n & Hr & Hp & ->)%arrivals_elem. exists r. split; [done|]. split; [done|].
    apply make_item_clock. apply negb_true_iff, Hall. by apply list_elem_of_In.
  - intros (r & Hr & Hp & ->).
    destruct (arrivals_complete now_iso filtering rows r Hr Hp t) as [n Hn].
    rewrite (make_item_clock r [] (now_iso n)); [done|].
    apply negb_true_iff, Hall. by apply list_elem_of_In.
Qed.

Lemma should_filter_publish_ext (rows1 rows2 : list row) :
  (forall r, r ∈ rows1 <-> r ∈ rows2) ->
  (forall r r', r ∈ rows1 -> r' ∈ rows1 -> is_Some (r !! "publish") -> is_Some (r' !! "publish")) ->
  should_filter_publish rows1 = should_filter_publish rows2.
Proof.
  intros Hext Hcols.
  assert (Hhas : has_publish rows1 = has_publish rows2).
  { destruct rows1 as [|r1 t1], rows2 as [|r2 t2]; simpl; try done.
    - destruct (not_elem_of_nil r2). apply Hext. by left.
    - destruct (not_elem_of_nil r1). apply Hext. by left.
    - assert (Hr2 : r2 ∈ r1 :: t1) by (apply Hext; by left).
      assert (Hr1 : r1 ∈ r1 :: t1) by (by left).
      apply bool_decide_ext. split; eauto. }
  apply eq_true_iff_eq. rewrite !should_filter_publish_true, Hhas.
  split; intros [Hh (r & Hr & Hp)]; (split; [done|]); exists r; split; try done; by apply Hext.
Qed.

(** The winners of two merges over the same items are the same, when items
    of one id that tie on the timestamp are equal. *)
Lemma merged_same_items (B1 B2 : list item) (m1 m2 : list (str * item)) :
  merged B1 m1 -> merged B2 m2 ->
  (forall it, it ∈ B1 <-> it ∈ B2) ->
  (forall a b, a ∈ B1 -> b ∈ B1 -> id a = id b ->
     dt_le (stamp a) (stamp b) -> dt_le (stamp b) (stamp a) -> a = b) ->
  forall w, w ∈ map snd m1 -> w ∈ map snd m2.
Proof.
  intros Hmg1 Hmg2 HB HtieB w Hw.
  destruct (merged_item _ _ _ Hmg1 Hw) as [_ (i & Hi & Hwin)].
  assert (HwB1 : w ∈ B1) by (by eapply list_elem_of_lookup_2).
  assert (HwB2 : w ∈ B2) by (by apply HB).
  destruct (Hmg2.(merged_seen _ _) w HwB2) as [w2 Hw2].
  destruct (Hmg2.(merged_wins _ _) _ _ Hw2) as [Hid2 (i2 & Hi2 & Hwin2)].
  assert (Hw2B2 : w2 ∈ B2) by (by eapply list_elem_of_lookup_2).
  assert (Hw2B1 : w2 ∈ B1) by (by apply HB).
  apply list_elem_of_lookup_1 in Hw2B1 as [j Hj].
  apply list_elem_of_lookup_1 in HwB2 as [j2 Hj2].
  destruct (Hwin j w2 Hj Hid2) as [Hle1 _].
  destruct (Hwin2 j2 w Hj2 (eq_sym Hid2)) as [Hle2 _].
  assert (w = w2) as <-.
  { apply HtieB; [done|by eapply list_elem_of_lookup_2|done|done|done]. }
  apply list_elem_of_fmap. exists (id w, w). split; [done|]. by apply dict_get_elem.
Qed.

(** X2. Neither the order of the rows nor their repetition matters when nothing
    is left to the order: if two tables hold the same rows, the rows all
    carry a [captured_at] and share their columns, and rows of one id that
    tie on the timestamp give the same item, then the two tables, merged at
    any times, publish the same items. *)
Theorem merge_order_independent (now1 now2 : nat -> str) (rows1 rows2 : list row)
    (f1 f2 : feed) :
  (forall r, r ∈ rows1 <-> r ∈ rows2) ->
  forallb (fun r => negb (needs_clock r)) rows1 = true ->
  (forall r r', r ∈ rows1 -> r' ∈ rows1 ->
     is_Some (r !! "publish") -> is_Some (r' !! "publish")) ->
  (forall r r', r ∈ rows1 -> r' ∈ rows1 -> row_id r = row_id r' ->
     dt_gt (stamp (make_item r [])) (stamp (make_item r' [])) = Ok false ->
     dt_gt (stamp (make_item r' [])) (stamp (make_item r [])) = Ok false ->
     make_item r [] = make_item r' []) ->
  main now1 rows1 = Ok f1 ->
  main now2 rows2 = Ok f2 ->
  items f1 = items f2.
Proof.
  intros Hext Hclock Hcols Hties Hmain1 Hmain2.
  assert (Hclock2 : forallb (fun r => negb (needs_clock r)) rows2 = true).
  { rewrite forallb_forall in Hclock. apply forallb_forall. intros r Hr. apply Hclock.
    apply list_elem_of_In, Hext. by apply list_elem_of_In. }
  pose proof (should_filter_publish_ext rows1 rows2 Hext Hcols) as Hsf.
  destruct (main_resolved _ _ _ Hmain1) as (l1 & _ & Hm1 & Hitems1 & _).
  destruct (main_resolved _ _ _ Hmain2) as (l2 & _ & Hm2 & Hitems2 & _).
  rewrite <- Hsf in Hm2.
  set (A1 := arrivals now1 (should_filter_publish rows1) 0 rows1) in *.
  set (A2 := arrivals now2 (should_filter_publish rows1) 0 rows2) in *.
  assert (HA : forall it, it ∈ A1 <-> it ∈ A2).
  { intros it. unfold A1, A2. rewrite !arrivals_no_clock by done.
    split; intros (r & Hr & Hp & ->); exists r; split; try done; by apply Hext. }
  assert (Htie : forall a b, a ∈ A1 -> b ∈ A1 -> id a = id b ->
                   dt_le (stamp a) (stamp b) -> dt_le (stamp b) (stamp a) -> a = b).
  { intros a b Ha Hb. unfold A1 in Ha, Hb.
    apply arrivals_no_clock in Ha as (ra & Hra & _ & ->); [|done].
    apply arrivals_no_clock in Hb as (rb & Hrb & _ & ->); [|done].
    intros Hid H1 H2. by apply Hties. }
  rewrite Hitems1, Hitems2. apply strictly_sorted_ext.
  - apply strictly_sorted.
    + apply sorted_sorted; [intros x y; apply ltb_asym|intros x y z; apply ltb_negtrans].
    + rewrite sorted_perm, (merged_ids _ _ Hm1). apply Hm1.(merged_nodup _ _).
  - apply strictly_sorted.
    + apply sorted_sorted; [intros x y; apply ltb_asym|intros x y z; apply ltb_negtrans].
    + rewrite sorted_perm, (merged_ids _ _ Hm2). apply Hm2.(merged_nodup _ _).
  - intros x. rewrite !sorted_perm. split.
    + by apply (merged_same_items A1 A2 l1 l2).
    + apply (merged_same_items A2 A1 l2 l1); [done|done|intros it; symmetry; apply HA|].
      intros a b Ha Hb. apply Htie; by apply HA.
Qed.

(** The merge can only fail in the comparison of two timestamps. *)
Lemma resolve_all_raises (pool : list item) (its : list item) :
  forall (latest : list (str * item)) (e : exn),
    (forall k w, dict_get k latest = Some w -> id w = k /\ w ∈ pool) ->
    (forall it, it ∈ its -> it ∈ pool) ->
    raised (resolve_all latest its) = Some e ->
    e = TypeError
    /\ exists a b, a ∈ pool /\ b ∈ pool /\ id a = id b
                   /\ (exists us, stamp a = Aware us) /\ (exists us, stamp b = Naive us).
Proof.
  induction its as [|it its IH]; intros latest e Hl Hits; simpl; [done|].
  assert (Hit : it ∈ pool) by (apply Hits; by left).
  assert (Hrest : forall x, x ∈ its -> x ∈ pool) by (intros x Hx; apply Hits; by right).
  assert (Hset : forall k w, dict_get k (dict_set (id it) it latest) = Some w ->
                   id w = k /\ w ∈ pool).
  { intros k w. destruct (decide (k = id it)) as [->|Hne].
    - rewrite dict_get_set. by intros [= <-].
    - rewrite dict_get_set_ne by done. apply Hl. }
  unfold resolve. destruct (dict_get (id it) latest) as [existing|] eqn:E.
  - destruct (Hl _ _ E) as [Hid Hex]. fold (stamp it) (stamp existing).
    destruct (dt_gt (stamp it) (stamp existing)) as [later|e'] eqn:Hgt; simpl.
    + destruct later; by apply IH.
    + intros [= <-].
      destruct (stamp it) as [x|x] eqn:Ea, (stamp existing) as [y|y] eqn:Eb;
        simpl in Hgt; try done; injection Hgt as <-; (split; [done|]).
      * exists existing, it. eauto 10.
      * exists it, existing. eauto 10.
  - simpl. by apply IH.
Qed.

(** X3. Between reading deals.csv and writing the feed, a run of the merger
    can fail in one way only: with the TypeError of
    comparing an aware with a naive timestamp, and then two rows share an
    id, one with an aware timestamp and one with a naive one (an unparsable [captured_at] counts as the naive [datetime.min]). *)
Theorem merge_fails_only_on_mixed_stamps (now_iso : nat -> str) (rows : list row) (e : exn) :
  raised (main now_iso rows) = Some e ->
  e = TypeError
  /\ exists r1 r2 n1 n2,
       r1 ∈ rows /\ r2 ∈ rows /\ row_id r1 = row_id r2
       /\ (exists us, stamp (make_item r1 (now_iso n1)) = Aware us)
       /\ (exists us, stamp (make_item r2 (now_iso n2)) = Naive us).
Proof.
  unfold main. rewrite loop_arrivals. cbn [latest_by_id ticks].
  destruct (resolve_all [] _) as [latest|e'] eqn:E; [done|]. simpl. intros [= <-].
  destruct (resolve_all_raises (arrivals now_iso (should_filter_publish rows) 0 rows)
              (arrivals now_iso (should_filter_publish rows) 0 rows) [] e')
    as (He & a & b & Ha & Hb & Hid & Hsa & Hsb); [done|done|by rewrite E|].
  split; [done|].
  apply arrivals_elem in Ha as (r1 & n1 & Hr1 & _ & ->).
  apply arrivals_elem in Hb as (r2 & n2 & Hr2 & _ & ->).
  exists r1, r2, n1, n2. rewrite !make_item_id in Hid. eauto 10.
Qed.

End FeedShape.


(** ** Whitespace and case *)
Section Strings.
Import Py Re Lib.

Lemma lstrip_spaces (l s : str) : forallb isspace l = true -> lstrip (l ++ s) = lstrip s.
Proof.
  induction l as [|c l IH]; [done|]. cbn [forallb app lstrip].
  intros [-> Hl]%andb_true_iff. by apply IH.
Qed.

Lemma lstrip_app (s r : str) : lstrip s <> [] -> lstrip (s ++ r) = lstrip s ++ r.
Proof.
  induction s as [|c s IH]; [done|]. cbn [app lstrip].
  destruct (isspace c); [exact IH|done].
Qed.

Lemma lstrip_all_spaces (s : str) : lstrip s = [] <-> forallb isspace s = true.
Proof.
  induction s as [|c s IH]; [done|]. cbn [lstrip forallb].
  destruct (isspace c); [exact IH|]. split; done.
Qed.

Lemma rstrip_spaces (s r : str) : forallb isspace r = true -> rstrip (s ++ r) = rstrip s.
Proof.
  intros Hr. unfold rstrip. rewrite rev_app_distr, lstrip_spaces; [done|].
  rewrite forallb_forall in *. intros c Hc. apply Hr. by apply in_rev.
Qed.

Lemma strip_spaces (l s r : str) :
  forallb isspace l = true -> forallb isspace r = true -> strip (l ++ s ++ r) = strip s.
Proof.
  intros Hl Hr. unfold strip. rewrite lstrip_spaces by done.
  destruct (lstrip s) as [|c s'] eqn:E.
  - apply lstrip_all_spaces in E.
    replace (lstrip (s ++ r)) with (@nil char); [done|].
    symmetry. apply lstrip_all_spaces. rewrite forallb_app. by rewrite E, Hr.
  - rewrite lstrip_app by (by rewrite E). rewrite E. by apply rstrip_spaces.
Qed.

Lemma isspace_not_letter (c : char) : isspace c = true -> c <= 32 \/ 133 <= c.
Proof.
  unfold isspace. rewrite !orb_true_iff, !andb_true_iff, !N.leb_le, !N.eqb_eq. lia.
Qed.

Lemma isspace_toupper (c : char) : isspace (toupper c) = isspace c.
Proof.
  unfold toupper. destruct ((97 <=? c) && (c <=? 122)) eqn:E; [|done].
  apply andb_true_iff in E as [H1%N.leb_le H2%N.leb_le].
  destruct (isspace c) eqn:Ec; [apply isspace_not_letter in Ec; lia|].
  destruct (isspace (c - 32)) eqn:Ec'; [apply isspace_not_letter in Ec'; lia|done].
Qed.

Lemma tolower_toupper (c : char) : tolower (toupper c) = tolower c.
Proof.
  unfold tolower, toupper.
  destruct (N.leb_spec 97 c), (N.leb_spec c 122); simpl;
    destruct (N.leb_spec 65 c), (N.leb_spec c 90); simpl;
    repeat match goal with |- context [?a <=? ?b] => destruct (N.leb_spec a b) end; simpl; lia.
Qed.

Lemma lstrip_toupper (s : str) : lstrip (map toupper s) = map toupper (lstrip s).
Proof.
  induction s as [|c s IH]; [done|]. cbn [map lstrip]. rewrite isspace_toupper.
  destruct (isspace c); [exact IH|done].
Qed.

Lemma strip_toupper (s : str) : strip (map toupper s) = map toupper (strip s).
Proof.
  unfold strip, rstrip. rewrite lstrip_toupper, <- map_rev, lstrip_toupper.
  by rewrite map_rev.
Qed.

Lemma toupper_ascii (c : char) : c < 128 -> toupper c < 128.
Proof.
  unfold toupper. destruct ((97 <=? c) && (c <=? 122)) eqn:E; [|done].
  apply andb_true_iff in E as [H1%N.leb_le H2%N.leb_le]. lia.
Qed.

Lemma strip_elem_of (c : char) (s : str) : c ∈ strip s -> c ∈ s.
Proof.
  assert (Hl : forall x : str, exists l, x = l ++ lstrip x).
  { induction x as [|d x [l IH]]; [by exists []|]. simpl.
    destruct (isspace d); [|by exists []]. exists (d :: l). simpl. by f_equal. }
  unfold strip, rstrip. intros H.
  destruct (Hl s) as [l Hs]. rewrite Hs. apply elem_of_app. right.
  destruct (Hl (rev (lstrip s))) as [l' Hl'].
  rewrite <- (rev_involutive (lstrip s)), Hl', rev_app_distr. apply elem_of_app. by left.
Qed.

Lemma strip_ascii (s : str) : Forall (fun c => c < 128) s -> Forall (fun c => c < 128) (strip s).
Proof.
  rewrite !Forall_forall. intros H c Hc. by apply H, strip_elem_of.
Qed.

Lemma lstrip_idemp (s : str) : lstrip (lstrip s) = lstrip s.
Proof.
  induction s as [|c s IH]; [done|]. cbn [lstrip].
  destruct (isspace c) eqn:E; [exact IH|]. cbn [lstrip]. by rewrite E.
Qed.

Lemma rstrip_cons (c : char) (s : str) : isspace c = false -> rstrip (c :: s) = c :: rstrip s.
Proof.
  intros Hc. unfold rstrip. cbn [rev].
  destruct (lstrip (rev s)) as [|x xs] eqn:E.
  - apply lstrip_all_spaces in E. rewrite lstrip_spaces by done.
    cbn [lstrip]. by rewrite Hc.
  - rewrite lstrip_app by (by rewrite E). rewrite E, rev_app_distr. done.
Qed.

(** A stripped string is empty, or begins and ends with a character that
    is not whitespace. *)
Lemma lstrip_head (s : str) (c : char) (r : str) : lstrip s = c :: r -> isspace c = false.
Proof.
  induction s as [|x s IH]; [done|]. cbn [lstrip].
  destruct (isspace x) eqn:E; [exact IH|]. by intros [= <- _].
Qed.

Lemma strip_head (s : str) (c : char) (r : str) : strip s = c :: r -> isspace c = false.
Proof.
  unfold strip. destruct (lstrip s) as [|x xs] eqn:E; [done|].
  pose proof (lstrip_head _ _ _ E) as Hx. rewrite rstrip_cons by done. by intros [= <- _].
Qed.

Lemma rstrip_idemp (s : str) : rstrip (rstrip s) = rstrip s.
Proof. unfold rstrip. by rewrite rev_involutive, lstrip_idemp. Qed.

Lemma lstrip_nonspace (c : char) (s : str) : isspace c = false -> lstrip (c :: s) = c :: s.
Proof. intros Hc. cbn [lstrip]. by rewrite Hc. Qed.

Lemma strip_idemp (s : str) : strip (strip s) = strip s.
Proof.
  destruct (strip s) as [|c r] eqn:E; [done|].
  pose proof (strip_head _ _ _ E) as Hc. rewrite <- E.
  unfold strip at 1. rewrite E, lstrip_nonspace by done. rewrite <- E.
  unfold strip. apply rstrip_idemp.
Qed.

(** [re.sub] of a character class by the empty string keeps the other
    characters. *)
Lemma sub_class_filter (p : char -> bool) (s : str) :
  sub (Class p) [] s = List.filter (fun c => negb (p c)) s.
Proof.
  unfold sub. induction s as [|c s IH]; [done|].
  cbn [sub_from match_at run List.filter]. destruct (p c); cbn [negb].
  - replace (pred (length (c :: s) - length s)) with 0%nat by (cbn [length]; lia).
    exact IH.
  - by rewrite IH.
Qed.

End Strings.

Section Titles.
Import Py Re Lib ExportFeed.
Context {C : CaseLib} {F : FloatLib}.

Lemma norm_title_filter (s : str) :
  norm_title s = take 220 (List.filter title_char (sub spaces (py " ") (lower (strip s)))).
Proof.
  unfold norm_title, not_title_char. rewrite sub_class_filter. f_equal.
  apply filter_ext. intros c. apply negb_involutive.
Qed.

(** X4. A normalized title holds only lowercase letters, digits, the space and
    the signs € £ % . - _ /, and at most 220 characters. *)
Theorem norm_title_shape (s : str) :
  Forall (fun c => title_char c = true) (norm_title s)
  /\ (length (norm_title s) <= 220)%nat.
Proof.
  rewrite norm_title_filter. split.
  - apply Forall_take, Forall_forall. intros c Hc.
    apply list_elem_of_In, filter_In in Hc. tauto.
  - rewrite length_take. lia.
Qed.

Lemma norm_title_padding (l s r : str) :
  forallb isspace l = true -> forallb isspace r = true ->
  norm_title (l ++ s ++ r) = norm_title s.
Proof. intros Hl Hr. unfold norm_title. by rewrite strip_spaces. Qed.

(** On ASCII text, [lower] after [upper] is [lower], also under [strip]. *)
Lemma lower_strip_upper (s : str) :
  Forall (fun c => c < 128) s -> lower (strip (upper s)) = lower (strip s).
Proof.
  intros Hs. rewrite (upper_ascii s Hs), strip_toupper.
  pose proof (strip_ascii s Hs) as Hs'.
  rewrite (lower_ascii (map toupper (strip s))), (lower_ascii (strip s) Hs').
  - rewrite map_map. apply map_ext. intros c. apply tolower_toupper.
  - apply Forall_fmap. eapply Forall_impl; [exact Hs'|]. intros c. apply toupper_ascii.
Qed.

Lemma lower_upper (s : str) : Forall (fun c => c < 128) s -> lower (upper s) = lower s.
Proof.
  intros Hs. rewrite (upper_ascii s Hs), (lower_ascii (map toupper s)), (lower_ascii s Hs).
  - rewrite map_map. apply map_ext. intros c. apply tolower_toupper.
  - apply Forall_fmap. eapply Forall_impl; [exact Hs|]. intros c. apply toupper_ascii.
Qed.

Lemma norm_title_upper (s : str) :
  Forall (fun c => c < 128) s -> norm_title (upper s) = norm_title s.
Proof. intros Hs. unfold norm_title. by rewrite lower_strip_upper. Qed.

(** X5. The derived id does not see the case of the store domain and of the
    title, when they are ASCII text, nor whitespace around the title and
    the URL. Outside ASCII the case mappings differ too much for this: the
    sharp s has no capital and becomes SS. *)
Theorem deterministic_id_insensitive (d t u l r l' r' : str) (p : option float) :
  Forall (fun c => c < 128) d ->
  Forall (fun c => c < 128) t ->
  forallb isspace l = true -> forallb isspace r = true ->
  forallb isspace l' = true -> forallb isspace r' = true ->
  deterministic_id (upper d) (l ++ upper t ++ r) p (l' ++ u ++ r')
  = deterministic_id d t p u.
Proof.
  intros Hd Ht Hl Hr Hl' Hr'.
  apply deterministic_id_congr; [by apply lower_upper| |done|by apply strip_spaces].
  by rewrite norm_title_padding, norm_title_upper.
Qed.

End Titles.


(** ** The rows of a page *)
Section PageRows.
Import Py Lib ExtractDeals.
Context {C : CaseLib} {F : FloatLib} {U : UrlLib}.
Variables (soup : node) (page_url store_name_ category_ addr_ : str).
Variables (lat_ lon_ : option float) (now_iso : nat -> str).

Local Abbreviation conf := (confidence_from_text (get_text (py " ") soup)).
Local Abbreviation scan :=
  (scan_tiles soup page_url store_name_ category_ addr_ lat_ lon_ now_iso conf).
Local Abbreviation new_deal := (deal page_url store_name_ category_ addr_ lat_ lon_ now_iso).
Local Abbreviation candidates_of :=
  (family_candidates soup page_url store_name_ category_ addr_ lat_ lon_ now_iso).
Local Abbreviation the_fallback :=
  (fallback_deal soup page_url store_name_ category_ addr_ lat_ lon_ now_iso).
Local Abbreviation wins_family :=
  (family_wins soup page_url store_name_ category_ addr_ lat_ lon_ now_iso).

Lemma join_nonempty (sep : str) (parts : list str) :
  Forall (fun p => p <> []) parts -> parts <> [] -> join sep parts <> [].
Proof.
  intros Hall Hne. destruct parts as [|p rest]; [done|].
  apply Forall_cons in Hall as [Hp _]. destruct p as [|c p]; [done|].
  simpl. by destruct rest.
Qed.

Lemma get_text_nonempty (sep : str) (n : node) : get_text [] n <> [] -> get_text sep n <> [].
Proof.
  unfold get_text. intros H. apply join_nonempty.
  - apply Forall_forall. intros p Hp. by apply list_elem_of_filter in Hp as [Hp _].
  - intros Heq. by rewrite Heq in H.
Qed.

Lemma take_nonempty {A} (n : nat) (l : list A) : l <> [] -> take (S n) l <> [].
Proof. by destruct l. Qed.

Lemma first_with_text_shape (els : list (option node)) (t : str) :
  first_with_text els = Some t -> t <> [] /\ (length t <= 160)%nat.
Proof.
  induction els as [|[el|] els IH]; simpl; [done| |exact IH].
  destruct (eqb (get_text [] el) []) eqn:E; [exact IH|].
  intros [= <-]. split; [|rewrite length_take; lia].
  apply take_nonempty, get_text_nonempty. intros Heq.
  by rewrite Heq in E.
Qed.

Lemma best_title_shape (page : node) (fallback : str) :
  best_title page fallback <> [] /\ (length (best_title page fallback) <= 160)%nat.
Proof.
  unfold best_title. destruct (first_with_text _) as [t|] eqn:E.
  - by apply first_with_text_shape in E.
  - assert (Hlen : (length (take 160 (strip fallback)) <= 160)%nat) by (rewrite length_take; lia).
    destruct (take 160 (strip fallback)) as [|c r]; simpl in *; [split; [done|lia]|].
    split; [done|lia].
Qed.

(** What one tile does to the candidates and to [seen_titles]. *)
Lemma scan_tile_cases (acc : list DealRow * list tile_key) (t : node) :
  let acc' := scan_tile soup page_url store_name_ category_ addr_ lat_ lon_ now_iso conf acc t in
  acc' = acc
  \/ exists title_ p,
       title_ <> [] /\ (length title_ <= 160)%nat
       /\ p <> (None, None, None)
       /\ ((lower title_, p.1.1, p.1.2, p.2) ∉ acc.2)
       /\ acc' = (acc.1 ++ [new_deal title_ p conf (length acc.1)],
                  (lower title_, p.1.1, p.1.2, p.2) :: acc.2).
Proof.
  destruct acc as [cands seen]. unfold scan_tile. cbv zeta.
  destruct (_ <? 20)%nat; [by left|].
  set (p := extract_prices _).
  set (title_ := or_else _ _).
  assert (Ht : title_ <> [] /\ (length title_ <= 160)%nat).
  { subst title_. destruct (first_with_text _) as [g|] eqn:E.
    - apply first_with_text_shape in E as [Hne Hlen]. destruct g; [done|]. done.
    - apply best_title_shape. }
  destruct p as [[np op] d].
  destruct np, op, d; cbn [fst snd]; try (by left);
    (case_bool_decide as Hin; [by left|]; right;
     eexists title_, (_, _, _); cbn [fst snd]; repeat split; try done; apply Ht).
Qed.

Lemma has_offer_deal (title_ : str) (p : option price * option price * option Z) (c : str) (n : nat) :
  p <> (None, None, None) -> has_offer (new_deal title_ p c n) = true.
Proof.
  destruct p as [[[np|] [op|]] [d|]]; intros Hp; try done; unfold has_offer; simpl;
    rewrite ?orb_true_iff; auto using bool_decide_eq_true_2.
  all: try (left; left; by apply bool_decide_eq_true_2).
  all: try (left; right; by apply bool_decide_eq_true_2).
  all: try (right; by apply bool_decide_eq_true_2).
Qed.

Lemma scanned_tile (acc : list DealRow * list tile_key) (t : node) :
  scanned now_iso acc ->
  scanned now_iso (scan_tile soup page_url store_name_ category_ addr_ lat_ lon_ now_iso conf acc t).
Proof.
  intros (Hkeys & Hnd & Hall & Hclock).
  destruct (scan_tile_cases acc t) as [->|(title_ & p & Hne & Hlen & Hp & Hnew & ->)]; [done|].
  split; [|split; [|split]]; cbn [fst snd].
  - rewrite map_app, Hkeys. cbn [map rev]. done.
  - by constructor.
  - apply Forall_app. split; [done|]. constructor; [|constructor].
    split; [by apply has_offer_deal|done].
  - rewrite map_app, Hclock, length_app. cbn [length map].
    rewrite Nat.add_1_r, seq_S, map_app. done.
Qed.

Lemma scanned_tiles (tiles : list node) : scanned now_iso (scan ([], []) tiles).
Proof.
  unfold scan_tiles. generalize (take 40 tiles) as ts.
  assert (H0 : scanned now_iso ([], [])) by (split; [done|split; [constructor|split; [constructor|done]]]).
  revert H0. generalize (@nil DealRow, @nil tile_key) as acc.
  intros acc H0 ts. revert acc H0.
  induction ts as [|t ts IH]; intros acc H0; simpl; [done|].
  apply IH. by apply scanned_tile.
Qed.

Lemma page_data_deal (title_ : str) (p : option price * option price * option Z) (n : nat) :
  let d := new_deal title_ p conf n in
  store_name d = store_name_ /\ category d = category_
  /\ website_domain d = domain_of page_url /\ source_url d = page_url
  /\ in_store_confidence d = conf
  /\ addr d = addr_ /\ lat d = lat_ /\ lon d = lon_.
Proof. done. Qed.

Lemma map_take_seq {A} (f : nat -> A) (n k : nat) :
  take k (map f (seq 0 n)) = map f (seq 0 (length (take k (map f (seq 0 n))))).
Proof.
  rewrite length_take, length_map, length_seq, firstn_map, take_seq. done.
Qed.

(** X6. Every row of a page carries the data of the page: the store, the
    category, the page URL and its domain, the address and the coordinates,
    and the confidence read from the text of the whole page, also for a row
    that comes from a tile. Its title is not empty and has at most 160
    characters, and the rows are stamped in their order, one reading of the
    clock for each candidate. *)
Theorem page_rows_carry_page_data :
  let found := extract_deals_from_page soup page_url store_name_ category_ addr_ lat_ lon_ now_iso in
  Forall (fun d =>
            store_name d = store_name_ /\ category d = category_
            /\ website_domain d = domain_of page_url /\ source_url d = page_url
            /\ in_store_confidence d = confidence_from_text (get_text (py " ") soup)
            /\ addr d = addr_ /\ lat d = lat_ /\ lon d = lon_
            /\ title d <> [] /\ (length (title d) <= 160)%nat) found
  /\ confidence_from_text (get_text (py " ") soup) ∈ [py "HIGH"; py "LOW"; py "MEDIUM"]
  /\ map captured_at found = map now_iso (seq 0 (length found)).
Proof.
  cbv zeta. rewrite extract_deals_find.
  assert (Hconf : conf ∈ [py "HIGH"; py "LOW"; py "MEDIUM"]).
  { unfold confidence_from_text. repeat destruct (existsb _ _); set_solver. }
  destruct (List.find wins_family tile_selectors) as [sel|].
  - destruct (scanned_tiles (select_class sel soup)) as (_ & _ & Hall & Hclock).
    fold (candidates_of sel) in Hall, Hclock.
    assert (Hdata : Forall (fun d =>
              store_name d = store_name_ /\ category d = category_
              /\ website_domain d = domain_of page_url /\ source_url d = page_url
              /\ in_store_confidence d = conf
              /\ addr d = addr_ /\ lat d = lat_ /\ lon d = lon_) (candidates_of sel)).
    { apply family_candidates_deals. intros. apply page_data_deal. }
    split; [|split].
    + apply Forall_take. apply Forall_forall. intros d Hd.
      rewrite Forall_forall in Hall, Hdata.
      destruct (Hall d Hd) as (_ & ? & ?). specialize (Hdata d Hd). tauto.
    + done.
    + rewrite <- (length_map captured_at (take 12 _)), <- !firstn_map, Hclock.
      apply map_take_seq.
  - split; [|split]; [|done|done].
    constructor; [|constructor]. unfold fallback_deal. cbn.
    destruct (best_title_shape soup store_name_). tauto.
Qed.

(** X7. No two rows of a page agree on the lowercased title, both prices and
    the discount; and unless the page gave only the whole-page row, every
    row holds a price or a discount. *)
Theorem page_rows_distinct_offers :
  let found := extract_deals_from_page soup page_url store_name_ category_ addr_ lat_ lon_ now_iso in
  NoDup (map deal_key found)
  /\ (found = [the_fallback] \/ Forall (fun d => has_offer d = true) found).
Proof.
  cbv zeta. rewrite extract_deals_find.
  destruct (List.find wins_family tile_selectors) as [sel|].
  - destruct (scanned_tiles (select_class sel soup)) as (Hkeys & Hnd & Hall & _).
    fold (candidates_of sel) in Hkeys, Hall. split.
    + rewrite <- firstn_map. eapply sublist_NoDup; [|apply sublist_take].
      rewrite Hkeys. by rewrite <- Permutation_rev.
    + right. apply Forall_take. eapply Forall_impl; [exact Hall|]. by intros d [? _].
  - split; [|by left]. apply NoDup_singleton.
Qed.

End PageRows.


(** ** Bounds on what the price heuristic returns *)
Section PriceBounds.
Import Py Re ExtractDeals.

(** The value of a character as a decimal digit is below 10. *)
Lemma decimal_value_bound (c : char) : decimal_value c < 10.
Proof.
  unfold decimal_value. destruct (List.find (in_run c) decimal_runs) as [z|] eqn:E; [|lia].
  apply find_some in E as [_ E]. unfold in_run in E.
  apply andb_true_iff in E as [H1%N.leb_le H2%N.ltb_lt]. lia.
Qed.

Lemma int_of_decimals_fold (w : str) :
  forall acc : N,
    fold_left (fun acc c => 10 * acc + decimal_value c) w acc < 10 ^ N.of_nat (length w) * (acc + 1).
Proof.
  induction w as [|c w IH]; intros acc.
  - simpl. lia.
  - cbn [fold_left length]. specialize (IH (10 * acc + decimal_value c)).
    rewrite Nat2N.inj_succ, N.pow_succ_r'.
    pose proof (decimal_value_bound c).
    eapply N.lt_le_trans; [exact IH|].
    rewrite (N.mul_comm 10 (10 ^ _)), <- N.mul_assoc.
    apply N.mul_le_mono_l. lia.
Qed.

Lemma int_of_decimals_bound (w : str) (n : nat) :
  (length w <= n)%nat -> int_of_decimals w < 10 ^ N.of_nat n.
Proof.
  intros Hn. unfold int_of_decimals.
  eapply N.lt_le_trans; [apply int_of_decimals_fold|].
  rewrite N.mul_1_r. apply N.pow_le_mono_r; lia.
Qed.

(** An amount that [PRICE_RE] captures is below 100000. *)
Lemma to_float_amount_bound (w : str) (p : price) :
  lang (Cat (Repeat 1 5 isdecimal)
            (Maybe (Cat (Class (fun c => (c =? 46) || (c =? 44))) (Repeat 2 2 isdecimal)))) w ->
  to_float w = Some p -> p < 10000000.
Proof.
  intros (w1 & w2 & -> & [Hlen1 Hd1] & [->|(wa & wb & -> & (c & -> & Hc) & [Hlen2 Hd2])]).
  - rewrite app_nil_r. rewrite to_float_whole by (done || lia). intros [= <-].
    pose proof (int_of_decimals_bound w1 5 ltac:(lia)). simpl in *. lia.
  - change (w1 ++ [c] ++ wb) with (w1 ++ c :: wb).
    rewrite to_float_decimals by (done || lia). intros [= <-].
    pose proof (int_of_decimals_bound w1 5 ltac:(lia)).
    pose proof (int_of_decimals_bound wb 2 ltac:(lia)). simpl in *. lia.
Qed.

Lemma price_match_bound (s : str) (caps : captures) (rest : str) (p : price) :
  match_at PRICE_RE s = Some (caps, rest) -> to_float (group "amt" caps) = Some p ->
  p < 10000000.
Proof.
  unfold match_at, PRICE_RE. intros H.
  change (run (Cat ?a ?b) s [] ?k) with (run a s [] (fun s' caps' => run b s' caps' k)) in H.
  apply run_sound in H as (w0 & s0 & caps0 & _ & _ & H).
  change (run (Cat ?a ?b) s0 caps0 ?k) with (run a s0 caps0 (fun s' caps' => run b s' caps' k)) in H.
  apply run_sound in H as (w1 & s1 & caps1 & _ & _ & H).
  apply run_group_sound in H as (w & s2 & caps2 & _ & Hw & H).
  injection H as <- <-. simpl. by apply to_float_amount_bound.
Qed.

Lemma percent_match_digits (s : str) (caps : captures) (rest : str) :
  match_at PERCENT_RE s = Some (caps, rest) ->
  forallb isdecimal (group "1" caps) = true /\ (length (group "1" caps) <= 3)%nat.
Proof.
  unfold match_at, PERCENT_RE. intros H.
  change (run (Cat ?a ?b) s [] ?k) with (run a s [] (fun s' caps' => run b s' caps' k)) in H.
  apply run_group_sound in H as (w & s1 & caps1 & _ & [Hlen Hd] & H).
  change (run (Cat (Star ?p) ?b) s1 ?c ?k)
    with (star_greedy p s1 (fun s' => run b s' c k)) in H.
  apply star_greedy_sound in H as (w2 & s2 & _ & _ & H).
  unfold chr in H. cbn [run] in H. destruct s2 as [|c s2]; [done|]. destruct (37 =? c); [|done].
  injection H as <- <-. change (group "1" (("1", w) :: caps1)) with w. split; [done|lia].
Qed.

Lemma discount_bound (text : str) (pm : captures) :
  search PERCENT_RE text = Some pm -> (0 <= Z.of_N (int_of_decimals (group "1" pm)) < 1000)%Z.
Proof.
  unfold search. intros H. apply head_Some_elem_of in H.
  apply finditer_from_match in H as (s' & rest & H).
  apply percent_match_digits in H as [Hd Hlen].
  pose proof (int_of_decimals_bound _ 3 Hlen). simpl in *. lia.
Qed.

(** X8. Whatever the text: an old price comes only with a new price that is not
    above it; a price is below 100000 (in hundredths, below 10000000); a
    discount is between 0 and 999. *)
Theorem extract_prices_bounds (text : str) :
  let '(new_p, old_p, disc) := extract_prices text in
  (forall o, old_p = Some o -> exists n, new_p = Some n /\ n <= o)
  /\ (forall n, new_p = Some n -> n < 10000000)
  /\ (forall o, old_p = Some o -> o < 10000000)
  /\ (forall z, disc = Some z -> (0 <= z < 1000)%Z).
Proof.
  unfold extract_prices.
  set (prices := omap _ _).
  assert (Hp : Forall (fun p => p < 10000000) prices).
  { apply Forall_forall. intros p Hp. subst prices.
    apply list_elem_of_omap in Hp as (m & Hm & Hp).
    apply elem_of_take in Hm as (i & Hm & _). apply list_elem_of_lookup_2 in Hm.
    apply finditer_from_match in Hm as (s' & rest & Hm).
    by eapply price_match_bound. }
  assert (Hd : forall z, match search PERCENT_RE text with
                         | Some pm => Some (Z.of_N (int_of_decimals (group "1" pm)))
                         | None => None
                         end = Some z -> (0 <= z < 1000)%Z).
  { intros z. destruct (search PERCENT_RE text) as [pm|] eqn:E; [|done].
    intros [= <-]. by apply (discount_bound text). }
  destruct prices as [|p1 [|p2 rest]].
  - cbv beta iota. split; [|split; [|split]]; done.
  - apply Forall_cons in Hp as [Hp1 _]. cbv beta iota.
    split; [|split; [|split]]; try done. by intros n [= <-].
  - apply Forall_cons in Hp as [Hp1 Hp]. apply Forall_cons in Hp as [Hp2 _].
    simpl.
    destruct (p1 <? p2) eqn:E; [apply N.ltb_lt in E|apply N.ltb_ge in E]; simpl;
      (split; [|split; [|split]]; [|by intros n [= <-]|by intros n [= <-]|done]).
    + intros o [= <-]. exists p1. split; [done|lia].
    + intros o [= <-]. exists p2. split; [done|lia].
Qed.

End PriceBounds.


(** ** The run of the extractor *)
Section ExtractorRun.
Import Py Lib ExtractDeals.
Context {C : CaseLib} {F : FloatLib} {U : UrlLib} {I : IntLib}.

Lemma page_candidates_deals (P : DealRow -> Prop) (soup : node)
    (page_url store_name_ category_ addr_ : str) (lat_ lon_ : option float) (now_iso : nat -> str) :
  (forall title_ p n,
     P (deal page_url store_name_ category_ addr_ lat_ lon_ now_iso title_ p
             (confidence_from_text (get_text (py " ") soup)) n)) ->
  Forall P (page_candidates soup page_url store_name_ category_ addr_ lat_ lon_ now_iso).
Proof.
  intros HP. rewrite page_candidates_find.
  destruct (List.find _ tile_selectors) as [sel|].
  - by apply family_candidates_deals.
  - constructor; [apply HP|constructor].
Qed.

Lemma page_candidates_length (soup : node)
    (page_url store_name_ category_ addr_ : str) (lat_ lon_ : option float) (now_iso : nat -> str) :
  (1 <= length (page_candidates soup page_url store_name_ category_ addr_ lat_ lon_ now_iso))%nat.
Proof.
  rewrite page_candidates_find.
  destruct (List.find _ tile_selectors) as [sel|] eqn:E; [|simpl; lia].
  apply find_family_wins in E. destruct (family_candidates _ _ _ _ _ _ _ _ _); [done|simpl; lia].
Qed.

(** What a run of the loop that completes has appended. *)
Lemma main_loop_rows (store_meta : gmap str meta) (page : str -> option node)
    (now_iso : nat -> str) (prs : list promo_row) :
  forall (deals : list DealRow) (ticks : nat) (ds : list DealRow),
    main_loop store_meta page now_iso prs deals ticks = Ok ds ->
    exists new,
      ds = deals ++ new
      /\ (length new <= 12 * length (List.filter (fun pr => bool_decide (is_Some (page (promo_url_of pr)))) prs))%nat
      /\ Forall (fun d => exists pr, pr ∈ prs /\ is_Some (page (promo_url_of pr))
                                     /\ source_url d = promo_url_of pr
                                     /\ website_domain d = domain_of (promo_url_of pr)
                                     /\ store_name d <> [] /\ category d <> []) new
      /\ ((exists pr, pr ∈ prs /\ is_Some (page (promo_url_of pr))) -> new <> []).
Proof.
  induction prs as [|pr prs IH]; intros deals ticks ds; cbn [main_loop].
  - intros [= <-]. exists []. rewrite app_nil_r. split; [done|]. split; [simpl; lia|].
    split; [constructor|]. intros (pr & Hpr & _). by apply elem_of_nil in Hpr.
  - destruct (meta_float _) as [lat_|]; [|done]. cbn [bind].
    destruct (meta_float _) as [lon_|]; [|done]. cbn [bind].
    fold (promo_url_of pr). cbn [List.filter].
    destruct (page (promo_url_of pr)) as [soup|] eqn:Epage.
    + intros H. apply IH in H as (new & -> & Hlen & Hall & Hne).
      set (found := page_candidates _ _ _ _ _ _ _ _) in *.
      exists (take 12 found ++ new). rewrite app_assoc. split; [done|].
      rewrite bool_decide_eq_true_2 by done. cbn [length].
      split; [rewrite length_app, length_take; lia|]. split.
      * apply Forall_app. split.
        -- apply Forall_take. subst found. apply page_candidates_deals.
           intros title_ p n. exists pr. cbn. rewrite Epage.
           split; [by left|]. split; [done|]. split; [done|]. split; [done|].
           split; by destruct (strip _).
        -- eapply Forall_impl; [exact Hall|]. intros d (pr' & Hpr' & Hd). exists pr'.
           split; [by right|done].
      * intros _. subst found.
        pose proof (page_candidates_length soup (promo_url_of pr)
                      (or_else (Some (strip (or_else (mjoin (pr !! "store_name")) []))) (py "(unnamed)"))
                      (or_else (Some (strip (or_else (mjoin (pr !! "category")) []))) (py "unknown"))
                      (from_option meta_addr [] (store_meta !! lower (strip (or_else (mjoin (pr !! "website_domain")) (domain_of (promo_url_of pr))))))
                      lat_ lon_ (fun n => now_iso (ticks + n)%nat)) as Hl.
        destruct (page_candidates _ _ _ _ _ _ _ _); [simpl in Hl; lia|done].
    + intros H. apply IH in H as (new & -> & Hlen & Hall & Hne).
      exists new. split; [done|].
      rewrite bool_decide_eq_false_2 by (by intros [? ?]).
      split; [done|]. split.
      * eapply Forall_impl; [exact Hall|]. intros d (pr' & Hpr' & Hd). exists pr'.
        split; [by right|done].
      * intros (pr' & [->|Hpr']%elem_of_cons & Hp).
        -- rewrite Epage in Hp. by destruct Hp.
        -- apply Hne. eauto.
Qed.

Lemma meta_float_raised (v : option str) (e : exn) :
  raised (meta_float v) = Some e ->
  e = ValueError /\ exists s, v = Some s /\ ~ coordinate_ok s.
Proof.
  unfold meta_float. destruct v as [s|]; [|done].
  destruct (eqb s [] || eqb s (py "nan")) eqn:E; [done|].
  destruct (float_of_str s) as [x|] eqn:Ef; [done|]. simpl. intros [= <-].
  split; [done|]. exists s. split; [done|].
  apply orb_false_iff in E as [E1 E2]. unfold eqb in *.
  apply bool_decide_eq_false in E1, E2.
  intros [?|[?|Hs]]; [done|done|]. rewrite Ef in Hs. by destruct Hs.
Qed.

(** The loop can only fail in the conversion of a coordinate. *)
Lemma main_loop_raised (store_meta : gmap str meta) (page : str -> option node)
    (now_iso : nat -> str) (prs : list promo_row) :
  forall (deals : list DealRow) (ticks : nat) (e : exn),
    raised (main_loop store_meta page now_iso prs deals ticks) = Some e ->
    e = ValueError
    /\ exists pr m, pr ∈ prs /\ store_meta !! promo_domain pr = Some m
                    /\ (~ coordinate_ok (meta_lat m) \/ ~ coordinate_ok (meta_lon m)).
Proof.
  induction prs as [|pr prs IH]; intros deals ticks e; cbn [main_loop]; [done|].
  fold (promo_url_of pr) (promo_domain pr).
  assert (Hrest : forall ds t, raised (main_loop store_meta page now_iso prs ds t) = Some e ->
            e = ValueError
            /\ exists pr0 m, pr0 ∈ pr :: prs /\ store_meta !! promo_domain pr0 = Some m
                    /\ (~ coordinate_ok (meta_lat m) \/ ~ coordinate_ok (meta_lon m))).
  { intros ds t H. apply IH in H as (He & pr0 & m & Hpr0 & Hm). split; [done|].
    exists pr0, m. split; [by right|done]. }
  destruct (meta_float (meta_lat <$> _)) as [lat_|e1] eqn:E1.
  - cbn [bind]. destruct (meta_float (meta_lon <$> _)) as [lon_|e2] eqn:E2.
    + cbn [bind]. destruct (page _); apply Hrest.
    + cbn [bind raised]. intros [= <-].
      pose proof (f_equal raised E2) as H2. apply meta_float_raised in H2 as (He & s & Hs & Hbad).
      split; [done|]. destruct (store_meta !! promo_domain pr) as [m|] eqn:Em; [|done].
      injection Hs as <-. exists pr, m. split; [by left|]. split; [done|by right].
  - cbn [bind raised]. intros [= <-].
    pose proof (f_equal raised E1) as H1. apply meta_float_raised in H1 as (He & s & Hs & Hbad).
    split; [done|]. destruct (store_meta !! promo_domain pr) as [m|] eqn:Em; [|done].
    injection Hs as <-. exists pr, m. split; [by left|]. split; [done|by left].
Qed.

Lemma store_meta_of_rows (stores : list promo_row) (dom : str) (m : meta) :
  store_meta_of stores !! dom = Some m ->
  exists r, r ∈ stores
            /\ meta_lat m = strip (or_else (mjoin (r !! "lat")) [])
            /\ meta_lon m = strip (or_else (mjoin (r !! "lon")) []).
Proof.
  unfold store_meta_of.
  assert (Hgen : forall (acc : gmap str meta),
             (forall d x, acc !! d = Some x ->
                exists r, r ∈ stores
                          /\ meta_lat x = strip (or_else (mjoin (r !! "lat")) [])
                          /\ meta_lon x = strip (or_else (mjoin (r !! "lon")) [])) ->
             forall rest, (forall r, r ∈ rest -> r ∈ stores) ->
             forall d x,
               fold_left (fun m r =>
                 let dom := strip (or_else (mjoin (r !! "website")) []) in
                 if eqb dom [] then m
                 else <[ domain_of dom :=
                           Meta (strip (or_else (mjoin (r !! "addr")) []))
                                (strip (or_else (mjoin (r !! "lat")) []))
                                (strip (or_else (mjoin (r !! "lon")) [])) ]> m) rest acc !! d = Some x ->
               exists r, r ∈ stores
                         /\ meta_lat x = strip (or_else (mjoin (r !! "lat")) [])
                         /\ meta_lon x = strip (or_else (mjoin (r !! "lon")) [])).
  { intros acc Hacc rest. revert acc Hacc.
    induction rest as [|r rest IH]; intros acc Hacc Hsub d x; cbn [fold_left]; [apply Hacc|].
    apply IH; [|intros r' Hr'; apply Hsub; by right].
    cbv zeta. destruct (eqb _ []); [done|].
    intros d' x'. destruct (decide (d' = domain_of (strip (or_else (mjoin (r !! "website")) [])))) as [->|Hne].
    - rewrite lookup_insert_eq. intros [= <-]. exists r. split; [apply Hsub; by left|done].
    - rewrite lookup_insert_ne by done. apply Hacc. }
  apply (Hgen ∅); [|done]. intros d x. by rewrite lookup_empty.
Qed.

(** X9. Between reading its tables and writing its rows, a run of the
    extractor can fail in one way only: with the ValueError
    of [float] on a latitude or longitude of the store table that is, once
    trimmed, neither empty nor "nan" and that [float] refuses. With such a
    table the run fails or not by the pages it visits; without one, it
    completes. *)
Theorem extractor_fails_only_on_coordinates (stores promo_rows : list promo_row)
    (max_pages : Z) (page : str -> option node) (now_iso : nat -> str) :
  (forall e, raised (main stores promo_rows max_pages page now_iso) = Some e ->
     e = ValueError
     /\ exists r, r ∈ stores
          /\ (~ coordinate_ok (strip (or_else (mjoin (r !! "lat")) []))
              \/ ~ coordinate_ok (strip (or_else (mjoin (r !! "lon")) []))))
  /\ ((forall r, r ∈ stores ->
         coordinate_ok (strip (or_else (mjoin (r !! "lat")) []))
         /\ coordinate_ok (strip (or_else (mjoin (r !! "lon")) []))) ->
      raised (main stores promo_rows max_pages page now_iso) = None).
Proof.
  assert (Hfail : forall e, raised (main stores promo_rows max_pages page now_iso) = Some e ->
     e = ValueError
     /\ exists r, r ∈ stores
          /\ (~ coordinate_ok (strip (or_else (mjoin (r !! "lat")) []))
              \/ ~ coordinate_ok (strip (or_else (mjoin (r !! "lon")) [])))).
  { intros e H. unfold main in H.
    apply main_loop_raised in H as (He & pr & m & _ & Hm & Hbad). split; [done|].
    apply store_meta_of_rows in Hm as (r & Hr & Hlat & Hlon).
    exists r. split; [done|]. by rewrite <- Hlat, <- Hlon. }
  split; [exact Hfail|].
  intros Hok. destruct (raised _) as [e|] eqn:E; [|done].
  destruct (Hfail e eq_refl) as (_ & r & Hr & Hbad).
  destruct (Hok r Hr). tauto.
Qed.

Lemma StronglySorted_mono {A} (R S : A -> A -> Prop) (l : list A) :
  (forall a b, R a b -> S a b) -> StronglySorted R l -> StronglySorted S l.
Proof.
  intros HRS. induction 1 as [|a l Hl IH Ha]; constructor; [done|].
  eapply Forall_impl; [exact Ha|]. apply HRS.
Qed.

Lemma slice_to_take {A} (n : Z) (l : list A) : exists k, slice_to n l = take k l.
Proof. unfold slice_to. destruct (0 <=? n)%Z; eauto. Qed.


Lemma deals_of_ok (r : result (list DealRow)) : raised r = None -> r = Ok (deals_of r).
Proof. by destruct r. Qed.

(** X11. The rows of a run that completes: at most 12 for each visited page
    whose fetch gave a body, each under the URL and the domain of such a
    page and with a store name and a category that are not empty; and at
    least one row when some fetch gave a body. *)
Theorem extractor_rows (stores promo_rows : list promo_row)
    (max_pages : Z) (page : str -> option node) (now_iso : nat -> str) (ds : list DealRow) :
  main stores promo_rows max_pages page now_iso = Ok ds ->
  (length ds
   <= 12 * length (List.filter (fun pr => bool_decide (is_Some (page (promo_url_of pr))))
                               (visited max_pages promo_rows)))%nat
  /\ Forall (fun d => exists pr, pr ∈ promo_rows /\ is_Some (page (promo_url_of pr))
                                 /\ source_url d = promo_url_of pr
                                 /\ website_domain d = domain_of (promo_url_of pr)
                                 /\ store_name d <> [] /\ category d <> []) ds
  /\ ((exists pr, pr ∈ visited max_pages promo_rows /\ is_Some (page (promo_url_of pr)))
      -> ds <> []).
Proof.
  unfold main. intros H. apply main_loop_rows in H as (new & -> & Hlen & Hall & Hne).
  rewrite app_nil_l. split; [done|]. split; [|done].
  eapply Forall_impl; [exact Hall|]. intros d (pr & Hpr & Hd). exists pr. split; [|done].
  unfold visited in Hpr. destruct (slice_to_take max_pages (sorted (fun x y => (score y <? score x)%Z) promo_rows)) as [k Hk].
  rewrite Hk in Hpr. apply elem_of_take in Hpr as (i & Hi & _).
  apply list_elem_of_lookup_2 in Hi. by rewrite sorted_perm in Hi.
Qed.

End ExtractorRun.


(** ** Websites *)
Section Websites.
Import Py Lib PromoDiscover.

Lemma eqb_nil_false (c : char) (s : str) : eqb (c :: s) [] = false.
Proof. by apply bool_decide_eq_false_2. Qed.

Lemma strip_last (s : str) : strip s <> [] -> exists r c, strip s = r ++ [c] /\ isspace c = false.
Proof.
  unfold strip, rstrip. intros H.
  destruct (lstrip (rev (lstrip s))) as [|c r] eqn:E; [done|].
  exists (rev r), c. split; [done|]. by apply lstrip_head in E.
Qed.

Lemma rstrip_snoc (s : str) (c : char) : isspace c = false -> rstrip (s ++ [c]) = s ++ [c].
Proof.
  intros Hc. unfold rstrip. rewrite rev_app_distr. cbn [rev app lstrip].
  rewrite Hc. cbn [rev]. by rewrite rev_involutive.
Qed.

Lemma strip_fixed (c : char) (r : str) (d : char) :
  isspace c = false -> isspace d = false -> strip (c :: r ++ [d]) = c :: r ++ [d].
Proof.
  intros Hc Hd. unfold strip. rewrite lstrip_nonspace by done.
  exact (rstrip_snoc (c :: r) d Hd).
Qed.

Lemma normalize_url_value (url : str) :
  normalize_url url
  = match strip url with
    | [] => []
    | c :: r => if is_http (c :: r) then c :: r else py "https://" ++ c :: r
    end.
Proof.
  unfold normalize_url, is_http. destruct (strip url) as [|c r]; [|by rewrite eqb_nil_false].
  by rewrite (proj2 (eqb_eq [] []) eq_refl).
Qed.

Lemma normalize_url_cases (url : str) :
  (strip url = [] /\ normalize_url url = [])
  \/ (strip url <> [] /\ is_http (normalize_url url) = true
      /\ normalize_url url <> []
      /\ normalize_url (normalize_url url) = normalize_url url).
Proof.
  rewrite (normalize_url_value (normalize_url url)), (normalize_url_value url).
  destruct (strip url) as [|c r] eqn:E; [by left|]. right. split; [done|].
  destruct (strip_last url) as (r' & d & Hr' & Hd); [by rewrite E|].
  pose proof (strip_head _ _ _ E) as Hc.
  destruct (is_http (c :: r)) eqn:Eh.
  - split; [done|]. split; [done|]. by rewrite <- E, strip_idemp, E, Eh.
  - assert (Hs : strip (py "https://" ++ c :: r) = py "https://" ++ c :: r).
    { rewrite <- E, Hr'. change (py "https://" ++ r' ++ [d])
        with (104 :: (utf8_decode [116; 116; 112; 115; 58; 47; 47] ++ r') ++ [d]).
      by apply strip_fixed. }
    assert (Hp : is_http (py "https://" ++ c :: r) = true).
    { unfold is_http. apply orb_true_iff. right.
      change (py "https://") with [104; 116; 116; 112; 115; 58; 47; 47]. simpl.
      by destruct (c :: r). }
    split; [done|]. split; [done|]. rewrite Hs. revert Hp.
    generalize (py "https://" ++ c :: r) as x. intros [|h t] Hp; [done|]. by rewrite Hp.
Qed.

(** X12. [normalize_url] gives the empty string, exactly on blank input, or a
    URL with the scheme http or https, and applying it again changes
    nothing: a website that was normalized when the store table was
    written is read back as it is. *)
Theorem normalize_url_idempotent (url : str) :
  normalize_url (normalize_url url) = normalize_url url
  /\ (normalize_url url = [] \/ is_http (normalize_url url) = true)
  /\ (normalize_url url = [] <-> strip url = []).
Proof.
  destruct (normalize_url_cases url) as [[Hs Hn]|(Hs & Hh & Hn & Hi)].
  - rewrite Hn. split; [done|]. split; [by left|done].
  - split; [done|]. split; [by right|]. split; intros; done.
Qed.

End Websites.

(** ** The candidates of a store *)
Section Candidates.
Import Py Lib PromoDiscover.
Context {C : CaseLib} {U : UrlLib}.
Variables (w : web) (max_per_store max_pages : Z) (now_iso : nat -> str).

Lemma fold_dict_get {V} (test : str -> bool) (val : str -> V) (u : str) (l : list str) :
  forall c : list (str * V),
    dict_get u (fold_left (fun c x => if test x then dict_set x (val x) c else c) l c)
    = if existsb (fun x => test x && eqb x u) l then Some (val u) else dict_get u c.
Proof.
  induction l as [|x l IH]; intros c; [done|]. cbn [fold_left existsb]. rewrite IH.
  destruct (existsb _ l); [by rewrite orb_true_r|]. rewrite orb_false_r.
  destruct (test x); cbn [andb]; [|done].
  unfold eqb at 1. case_bool_decide as E.
  - subst x. by rewrite dict_get_set.
  - rewrite dict_get_set_ne; [done|]. congruence.
Qed.

Lemma store_candidates_fold (website : str) :
  store_candidates w website
  = fold_left (fun c u => if has_keyword u && same_domain u website
                          then dict_set u (score_url u (py "homepage_scan"), py "homepage_scan") c
                          else c)
      (homepage_links w website)
      (fold_left (fun c u => if has_keyword u
                             then dict_set u (score_url u (py "sitemap"), py "sitemap") c
                             else c)
         (sitemap_urls w website)
         (fold_left (fun c u => if true
                                then dict_set u (score_url u (py "common_path"), py "common_path") c
                                else c)
            (common_urls website) [])).
Proof.
  unfold store_candidates, common_urls. do 2 f_equal.
Qed.

(** X13. The candidate dictionary of a store, key by key: a URL that the
    homepage scan accepts is recorded as found by it, whatever else found
    it; otherwise a URL of the sitemap with a promo keyword is recorded as
    found by the sitemap, also when it is one of the common paths (whose
    bonus it then loses); otherwise a common path is recorded as such; and
    nothing else is a candidate. *)
Theorem store_candidates_lookup (website u : str) :
  dict_get u (store_candidates w website)
  = if existsb (fun x => has_keyword x && same_domain x website && eqb x u)
               (homepage_links w website)
    then Some (score_url u (py "homepage_scan"), py "homepage_scan")
    else if existsb (fun x => has_keyword x && eqb x u) (sitemap_urls w website)
    then Some (score_url u (py "sitemap"), py "sitemap")
    else if existsb (fun x => eqb x u) (common_urls website)
    then Some (score_url u (py "common_path"), py "common_path")
    else None.
Proof.
  rewrite store_candidates_fold.
  rewrite (fold_dict_get (fun x => has_keyword x && same_domain x website)
             (fun x => (score_url x (py "homepage_scan"), py "homepage_scan"))).
  rewrite (fold_dict_get has_keyword (fun x => (score_url x (py "sitemap"), py "sitemap"))).
  rewrite (fold_dict_get (fun _ => true)
             (fun x => (score_url x (py "common_path"), py "common_path"))).
  done.
Qed.

Lemma strategies_elem :
  py "common_path" ∈ strategies /\ py "sitemap" ∈ strategies /\ py "homepage_scan" ∈ strategies.
Proof.
  unfold strategies. cbn [map]. split; [|split].
  - apply list_elem_of_here.
  - apply list_elem_of_further, list_elem_of_here.
  - do 2 apply list_elem_of_further. apply list_elem_of_here.
Qed.

Lemma dict_set_Forall {V} (P : str * V -> Prop) (k : str) (v : V) (d : list (str * V)) :
  Forall P d -> P (k, v) -> Forall P (dict_set k v d).
Proof.
  intros Hd Hk. induction Hd as [|[k' v'] d Hx Hd IH]; simpl; [by repeat constructor|].
  destruct (eqb k' k); constructor; done.
Qed.

Lemma fold_dict_Forall {V} (P : str * V -> Prop) (test : str -> bool) (val : str -> V)
    (l : list str) :
  (forall x, x ∈ l -> test x = true -> P (x, val x)) ->
  forall c : list (str * V),
    Forall P c ->
    Forall P (fold_left (fun c x => if test x then dict_set x (val x) c else c) l c).
Proof.
  induction l as [|x l IH]; intros Hl c Hc; [done|]. cbn [fold_left].
  apply IH; [intros y Hy; apply Hl; by right|].
  destruct (test x) eqn:E; [|done]. apply dict_set_Forall; [done|]. apply Hl; [by left|done].
Qed.

Lemma fold_dict_NoDup {V} (test : str -> bool) (val : str -> V) (l : list str) :
  forall c : list (str * V),
    NoDup (map fst c) ->
    NoDup (map fst (fold_left (fun c x => if test x then dict_set x (val x) c else c) l c)).
Proof.
  induction l as [|x l IH]; intros c Hc; [done|]. cbn [fold_left]. apply IH.
  destruct (test x); [by apply dict_set_NoDup|done].
Qed.

Lemma store_candidates_ok (website : str) :
  Forall (candidate_ok w website) (store_candidates w website)
  /\ NoDup (map fst (store_candidates w website)).
Proof.
  rewrite store_candidates_fold. split.
  - apply fold_dict_Forall.
    { intros x Hx [Hk Hd]%andb_true_iff. unfold candidate_ok. cbn [fst snd].
      split; [done|]. split; [apply strategies_elem|].
      split; [intros H; by vm_compute in H|]. split; [intros H; by vm_compute in H|done]. }
    apply fold_dict_Forall.
    { intros x Hx Hk. unfold candidate_ok. cbn [fst snd].
      split; [done|]. split; [apply strategies_elem|].
      split; [intros H; by vm_compute in H|]. split; [done|intros H; by vm_compute in H]. }
    apply (fold_dict_Forall _ (fun _ => true)
             (fun x => (score_url x (py "common_path"), py "common_path"))); [|constructor].
    intros x Hx _. unfold candidate_ok. cbn [fst snd].
    split; [done|]. split; [apply strategies_elem|]. split; [done|].
    split; intros H; by vm_compute in H.
  - do 2 apply fold_dict_NoDup.
    apply (fold_dict_NoDup (fun _ => true)
             (fun x => (score_url x (py "common_path"), py "common_path"))). constructor.
Qed.

Local Abbreviation keep_ := (keep max_per_store now_iso).
Local Abbreviation discover_ := (discover w max_per_store max_pages now_iso).

Lemma keep_discovered (stores : list store) (s : store) (store_name_ category_ : str)
    (cands : list (str * (Z * str))) :
  let website_ := normalize_url (or_else (mjoin (s !! "website")) []) in
  s ∈ stores ->
  is_http website_ = true -> domain_of website_ <> [] ->
  Forall (candidate_ok w website_) cands ->
  forall (kept : Z) (seen : list str) (rs : list PromoUrlRow),
    discovered w now_iso stores seen rs ->
    discovered w now_iso stores (keep_ store_name_ category_ website_ (domain_of website_) cands kept seen rs).1
               (keep_ store_name_ category_ website_ (domain_of website_) cands kept seen rs).2.
Proof.
  intros website_ Hs Hh Hd Hc. induction Hc as [|[u [sc via]] cands Hu Hc IH];
    intros kept seen rs Hinv; cbn [keep]; [done|].
  destruct (max_per_store <=? kept)%Z; [done|].
  case_bool_decide as Hseen; [by apply IH|].
  apply IH. destruct Hinv as (Hall & Hnd & Hsub & Hclock).
  split; [|split; [|split]].
  - apply Forall_app. split; [done|]. constructor; [|constructor].
    unfold row_ok. cbn.
    split; [by destruct store_name_|]. split; [by destruct category_|].
    split; [done|]. split; [done|]. split; [done|]. split; [done|]. by exists s.
  - rewrite map_app. cbn [map]. apply NoDup_app. split; [done|]. split; [|apply NoDup_singleton].
    intros x (r & -> & Hr)%list_elem_of_fmap Hx. apply list_elem_of_singleton in Hx.
    cbn [promo_url] in Hx. apply Hseen. rewrite <- Hx. by apply Hsub.
  - intros r [Hr|Hr%list_elem_of_singleton]%elem_of_app.
    + right. by apply Hsub.
    + subst r. by left.
  - rewrite map_app, Hclock, length_app. cbn [length map].
    by rewrite Nat.add_1_r, seq_S, map_app.
Qed.

Lemma discover_discovered (stores : list store) (rest : list store) :
  (forall s, s ∈ rest -> s ∈ stores) ->
  forall st : state,
    discovered w now_iso stores (seen_global st) (rows st) ->
    discovered w now_iso stores (seen_global (discover_ rest st)) (rows (discover_ rest st)).
Proof.
  induction rest as [|s rest IH]; intros Hsub st Hinv; cbn [discover]; [done|].
  assert (Hrest : forall x, x ∈ rest -> x ∈ stores) by (intros x Hx; apply Hsub; by right).
  destruct (eqb _ [] || eqb _ []) eqn:E; [by apply IH|].
  apply orb_false_iff in E as [E1 E2]. unfold eqb in E1, E2.
  apply bool_decide_eq_false in E1, E2.
  destruct (normalize_url_cases (or_else (mjoin (s !! "website")) [])) as [[_ Hn]|(_ & Hh & _)];
    [done|].
  assert (Hp : discovered w now_iso stores
                 (seen_global (process_store w max_per_store now_iso s
                    (normalize_url (or_else (mjoin (s !! "website")) []))
                    (domain_of (normalize_url (or_else (mjoin (s !! "website")) []))) st))
                 (rows (process_store w max_per_store now_iso s
                    (normalize_url (or_else (mjoin (s !! "website")) []))
                    (domain_of (normalize_url (or_else (mjoin (s !! "website")) []))) st))).
  { unfold process_store.
    pose proof (keep_discovered stores s (strip (or_else (mjoin (s !! "name")) []))
                  (strip (or_else (mjoin (s !! "category")) []))
                  (ranked w (normalize_url (or_else (mjoin (s !! "website")) [])))
                  ltac:(apply Hsub; by left) Hh E2) as Hk.
    cbv zeta in Hk.
    destruct (keep _ _ _ _ _ _ _ _ _ _) as [seen rs] eqn:Ek.
    cbn [seen_global rows].
    specialize (Hk ltac:(unfold ranked; rewrite sorted_perm; apply store_candidates_ok)
                   0%Z (seen_global st) (rows st) Hinv).
    by rewrite Ek in Hk. }
  destruct (max_pages <=? _)%Z; [done|]. by apply IH.
Qed.

(** X14. Every row of promo_urls.csv is well formed: its store name and
    category are not empty; its website is the normalized website of a
    store of the table, with the scheme http or https, and its domain is
    that of the website and not empty; its strategy is one of the three and
    its score is the score of its URL under that strategy; a URL found by
    the sitemap or the homepage scan is one that the network gave and holds
    a promo keyword, and one found by the homepage scan is on the domain of
    the website. *)
Theorem promo_rows_well_formed (stores : list store) :
  Forall (row_ok w stores) (main w max_per_store max_pages now_iso stores).
Proof.
  unfold main. rewrite sorted_perm.
  apply (discover_discovered stores stores (fun _ H => H) (St [] [] 0)).
  split; [constructor|]. split; [constructor|]. split; [|done].
  intros r Hr. by apply elem_of_nil in Hr.
Qed.

(** X15. No URL is emitted twice, across all stores; the rows are written by
    descending score, rows of equal score in the order of their discovery;
    and the k-th row discovered carries the k-th reading of the clock. *)
Theorem promo_rows_distinct_sorted (stores : list store) :
  let found := rows (discover w max_per_store max_pages now_iso stores (St [] [] 0)) in
  let out := main w max_per_store max_pages now_iso stores in
  out ≡ₚ found
  /\ NoDup (map promo_url out)
  /\ StronglySorted (fun a b => (priority_score b <= priority_score a)%Z) out
  /\ map captured_at found = map now_iso (seq 0 (length found)).
Proof.
  cbv zeta. unfold main.
  destruct (discover_discovered stores stores (fun _ H => H) (St [] [] 0))
    as (_ & Hnd & _ & Hclock).
  { split; [constructor|]. split; [constructor|]. split; [|done].
    intros r Hr. by apply elem_of_nil in Hr. }
  split; [apply sorted_perm|]. split; [by rewrite sorted_perm|]. split; [|done].
  eapply StronglySorted_mono; [|apply sorted_sorted].
  - intros a b H. simpl in H. by apply Z.ltb_ge in H.
  - intros x y. rewrite !Z.ltb_lt, Z.ltb_ge. lia.
  - intros x y z. rewrite !Z.ltb_ge. lia.
Qed.

End Candidates.


(** ** Sitemaps and homepage links *)
Section Links.
Import Py Re Lib PromoLinks.
Context {U : UrlLib}.

Lemma star_lazy_sound {R} (p : char -> bool) :
  forall (s : str) (k : str -> option R) (x : R),
    star_lazy p s k = Some x ->
    exists w s', s = w ++ s' /\ forallb p w = true /\ k s' = Some x.
Proof.
  induction s as [|c s IH]; intros k x H; simpl in H.
  - destruct (k []) eqn:E; [|done]. injection H as ->. by exists [], [].
  - destruct (k (c :: s)) eqn:E.
    + injection H as ->. by exists [], (c :: s).
    + destruct (p c) eqn:Hc; [|done]. apply IH in H as (w & s' & -> & Hall & Hk).
      exists (c :: w), s'. repeat split; simpl; auto. by rewrite Hc, Hall.
Qed.

(** Group 1 of a match holds no newline. *)
Lemma match_loc_group (s g rest : str) : match_loc s = Some (g, rest) -> 10 ∉ g.
Proof.
  unfold match_loc. intros H.
  apply run_sound in H as (w0 & s1 & caps1 & _ & _ & H).
  apply star_greedy_sound in H as (w1 & s2 & _ & _ & H).
  apply star_lazy_sound in H as (w2 & s3 & -> & Hw2 & H).
  apply star_greedy_sound in H as (w3 & s4 & _ & _ & H).
  apply run_sound in H as (w4 & s5 & caps5 & _ & _ & H).
  injection H as <- <-. rewrite consumed_app.
  intros Hin. rewrite forallb_forall in Hw2. apply list_elem_of_In, Hw2 in Hin. done.
Qed.

Lemma findall_loc_from_group (g : str) :
  forall (s : str) (skip : nat), g ∈ findall_loc_from skip s -> 10 ∉ g.
Proof.
  induction s as [|c s IH]; intros skip H.
  - destruct skip; simpl in H; by apply elem_of_nil in H.
  - destruct skip; simpl in H; [|by eapply IH].
    destruct (match_loc (c :: s)) as [[g' rest]|] eqn:E; [|by eapply IH].
    apply elem_of_cons in H as [->|H]; [by eapply match_loc_group|by eapply IH].
Qed.

Lemma startswith_nil (s : str) : startswith s [] = true.
Proof. by destruct s. Qed.

Lemma before_char_elem (ch c : char) (s : str) : c ∈ before_char ch s -> c ∈ s /\ c <> ch.
Proof.
  induction s as [|x s IH]; simpl; [by intros ?%elem_of_nil|].
  destruct (N.eqb_spec x ch) as [->|Hne]; [by intros ?%elem_of_nil|].
  intros [->|H]%elem_of_cons.
  - split; [by left|done].
  - destruct (IH H). split; [by right|done].
Qed.

Lemma startswith_before_char (ch : char) (p s : str) :
  ch ∉ p -> startswith s p = true -> startswith (before_char ch s) p = true.
Proof.
  revert s. induction p as [|a p IH]; intros s Hp; [by rewrite !startswith_nil|].
  destruct s as [|c s]; [done|]. cbn [startswith].
  intros [Hac%N.eqb_eq Hs]%andb_true_iff. subst c. cbn [before_char].
  destruct (N.eqb_spec a ch) as [->|Hne]; [destruct Hp; by left|].
  cbn [startswith]. rewrite N.eqb_refl. apply IH; [|done].
  intros Hin. apply Hp. by right.
Qed.

Lemma is_http_before_fragment (s : str) :
  startswith s (py "http://") || startswith s (py "https://") = true ->
  is_http (before_char 35 s) = true.
Proof.
  unfold is_http. intros [H|H]%orb_true_iff; apply orb_true_iff; [left|right];
    (apply startswith_before_char; [|done]); intros Hin; vm_compute in Hin;
    repeat (apply elem_of_cons in Hin as [Hin|Hin]; [done|]); by apply elem_of_nil in Hin.
Qed.

Lemma add_elem (x y : str) (found : list str) : x ∈ add y found <-> x = y \/ x ∈ found.
Proof.
  unfold add. case_bool_decide as H.
  - split; [by right|]. by intros [->|?].
  - rewrite elem_of_app, list_elem_of_singleton. tauto.
Qed.

Lemma add_NoDup (y : str) (found : list str) : NoDup found -> NoDup (add y found).
Proof.
  unfold add. case_bool_decide as H; [done|]. intros Hnd.
  apply NoDup_app. split; [done|]. split; [|apply NoDup_singleton].
  intros x Hx ->%list_elem_of_singleton. done.
Qed.

Lemma add_length (y : str) (found : list str) : (length (add y found) <= S (length found))%nat.
Proof. unfold add. case_bool_decide; [lia|]. rewrite length_app. simpl. lia. Qed.

(** The loop that fills a set from a list of texts. *)
Lemma fold_add (P : str -> Prop) {A} (test : A -> bool) (val : A -> str) (l : list A) :
  (forall a, a ∈ l -> test a = true -> P (val a)) ->
  forall found : list str,
    Forall P found -> NoDup found ->
    let found' := fold_left (fun found a => if test a then add (val a) found else found) l found in
    Forall P found' /\ NoDup found' /\ (length found' <= length found + length l)%nat
    /\ (forall x, x ∈ found -> x ∈ found').
Proof.
  induction l as [|a l IH]; intros Hl found HP Hnd; cbn [fold_left].
  - cbv zeta. split; [done|]. split; [done|]. split; [lia|done].
  - destruct (IH (fun b Hb => Hl b (list_elem_of_further _ _ _ Hb))
               (if test a then add (val a) found else found)) as (H1 & H2 & H3 & H4).
    + destruct (test a) eqn:E; [|done]. apply Forall_forall. intros x [->|Hx]%add_elem.
      * apply Hl; [by left|done].
      * by apply (proj1 (Forall_forall _ _) HP).
    + destruct (test a); [by apply add_NoDup|done].
    + cbv zeta. split; [done|]. split; [done|]. split.
      * etrans; [exact H3|]. cbn [length].
        destruct (test a); [pose proof (add_length (val a) found)|]; lia.
      * intros x Hx. apply H4. destruct (test a); [apply add_elem; by right|done].
Qed.

Lemma add_locs_shape (max_urls : nat) (xml : str) (found : list str) :
  Forall clean_url found -> NoDup found ->
  Forall clean_url (add_locs max_urls xml found)
  /\ NoDup (add_locs max_urls xml found)
  /\ (length (add_locs max_urls xml found) <= length found + max_urls)%nat.
Proof.
  intros HP Hnd. unfold add_locs.
  destruct (fold_add clean_url
              (fun loc => startswith (strip loc) (py "http://")
                          || startswith (strip loc) (py "https://"))
              (fun loc => before_char 35 (strip loc))
              (take max_urls (findall_loc xml))) with (found := found)
    as (H1 & H2 & H3 & _); [|done|done|].
  - intros loc Hloc Hh. apply elem_of_take in Hloc as (i & Hloc & _).
    apply list_elem_of_lookup_2, findall_loc_from_group in Hloc.
    split; [by apply is_http_before_fragment|]. split.
    + intros Hin. by apply before_char_elem in Hin as [_ ?].
    + intros Hin. apply before_char_elem in Hin as [Hin _]. by apply strip_elem_of in Hin.
  - split; [done|]. split; [done|]. etrans; [exact H3|]. rewrite length_take. lia.
Qed.

Variable fetch : str -> option str.

Lemma sitemap_scan_shape (site_base : str) (max_urls : nat) (paths : list str) :
  let found := sitemap_scan fetch site_base max_urls paths [] in
  Forall clean_url found /\ NoDup found /\ (length found <= max_urls)%nat
  /\ ((forall path, path ∈ paths -> fetch (urljoin site_base path) = None) -> found = []).
Proof.
  cbv zeta. induction paths as [|path rest IH]; cbn [sitemap_scan].
  - split; [constructor|]. split; [constructor|]. split; [simpl; lia|done].
  - assert (Hrest : (forall p, p ∈ path :: rest -> fetch (urljoin site_base p) = None) ->
                    sitemap_scan fetch site_base max_urls rest [] = []).
    { intros H. apply IH. intros p Hp. apply H. by right. }
    destruct (fetch (urljoin site_base path)) as [[|c xml]|] eqn:Ef.
    + destruct IH as (H1 & H2 & H3 & _). done.
    + destruct (add_locs_shape max_urls (c :: xml) []) as (H1 & H2 & H3);
        [constructor|constructor|].
      destruct (add_locs max_urls (c :: xml) []) as [|u found'] eqn:Ea.
      * destruct IH as (H1' & H2' & H3' & _). done.
      * split; [done|]. split; [done|]. split; [simpl in *; lia|].
        intros H. specialize (H path ltac:(by left)). congruence.
    + destruct IH as (H1 & H2 & H3 & _). done.
Qed.

(** X16. The URLs that [sitemap_urls] returns are absolute http or https URLs,
    cut before a fragment and free of line breaks, no two alike, and at most
    4000; there are none when no sitemap could be fetched. *)
Theorem sitemap_urls_shape (site_base : str) :
  let found := sitemap_urls fetch site_base in
  Forall clean_url found /\ NoDup found /\ (length found <= 4000)%nat
  /\ ((forall path, path ∈ SITEMAP_CANDIDATES -> fetch (urljoin site_base path) = None) ->
      found = []).
Proof. apply sitemap_scan_shape. Qed.

Lemma fold_left_pointwise {A B} (f g : A -> B -> A) (l : list B) :
  (forall a b, f a b = g a b) -> forall a, fold_left f l a = fold_left g l a.
Proof.
  intros Hfg. induction l as [|b l IH]; intros a; [done|]. simpl. by rewrite Hfg, IH.
Qed.

Lemma extract_links_shape (base_url : str) (hrefs : list str) :
  let out := extract_links_from_html base_url hrefs in
  Forall (fun u => is_http u = true /\ (35 ∉ u)) out /\ NoDup out
  /\ (length out <= length hrefs)%nat.
Proof.
  cbv zeta. unfold extract_links_from_html.
  destruct (fold_add (fun u => is_http u = true /\ (35 ∉ u))
              (fun href => negb (eqb (strip href) [])
                           && (startswith (urljoin base_url (strip href)) (py "http://")
                               || startswith (urljoin base_url (strip href)) (py "https://")))
              (fun href => before_char 35 (urljoin base_url (strip href)))
              hrefs) with (found := @nil str) as (H1 & H2 & H3 & _);
    [|constructor|constructor|].
  - intros href _ [_ Hh]%andb_true_iff. split; [by apply is_http_before_fragment|].
    intros Hin. by apply before_char_elem in Hin as [_ ?].
  - replace (fold_left _ hrefs []) with
      (fold_left (fun found a =>
         if negb (eqb (strip a) [])
            && (startswith (urljoin base_url (strip a)) (py "http://")
                || startswith (urljoin base_url (strip a)) (py "https://"))
         then add (before_char 35 (urljoin base_url (strip a))) found else found) hrefs []);
      [done|].
    apply fold_left_pointwise. intros out href. cbv zeta. by destruct (eqb (strip href) []).
Qed.

Lemma homepage_links_clean (anchors : str -> list str) (website : str) :
  Forall (fun u => is_http u = true /\ (35 ∉ u)) (homepage_links fetch anchors website).
Proof.
  unfold homepage_links. destruct (fetch website) as [[|c html]|]; try constructor.
  apply extract_links_shape.
Qed.

(** X17. The links that [extract_links_from_html] returns are absolute http or
    https URLs, cut before a fragment, no two alike, and at most one for
    each anchor; a homepage that cannot be fetched gives none. *)
Theorem homepage_links_shape (anchors : str -> list str) (website : str) :
  let out := homepage_links fetch anchors website in
  Forall (fun u => is_http u = true /\ (35 ∉ u)) out /\ NoDup out
  /\ (fetch website = None -> out = [])
  /\ (forall html, fetch website = Some html -> (length out <= length (anchors html))%nat).
Proof.
  cbv zeta. unfold homepage_links.
  destruct (fetch website) as [[|c html]|].
  - split; [constructor|]. split; [constructor|]. split; [done|]. intros; simpl; lia.
  - destruct (extract_links_shape website (anchors (c :: html))) as (H1 & H2 & H3).
    split; [done|]. split; [done|]. split; [done|]. by intros ? [= <-].
  - split; [constructor|]. split; [constructor|]. split; [done|]. done.
Qed.

End Links.

(** ** The rows that the crawl finds *)
Section CrawledRows.
Import Py Lib PromoDiscover.
Context {C : CaseLib} {U : UrlLib}.

(** X18. With the network read through [sitemap_urls] and
    [extract_links_from_html], every row that was not found as a common
    path carries an absolute http or https URL without a fragment. *)
Theorem crawled_rows_absolute (fetch : str -> option str) (anchors : str -> list str)
    (max_per_store max_pages : Z) (now_iso : nat -> str) (stores : list store) :
  Forall (fun r => discovered_via r <> py "common_path" ->
                   is_http (promo_url r) = true /\ (35 ∉ promo_url r))
         (main (crawled fetch anchors) max_per_store max_pages now_iso stores).
Proof.
  unfold main. rewrite sorted_perm.
  destruct (discover_discovered (crawled fetch anchors) max_per_store max_pages now_iso
              stores stores (fun _ H => H) (St [] [] 0)) as (Hall & _).
  { split; [constructor|]. split; [constructor|]. split; [|done].
    intros r Hr. by apply elem_of_nil in Hr. }
  eapply Forall_impl; [exact Hall|]. intros r (_ & _ & _ & _ & _ & Hc & _) Hvia.
  destruct Hc as (_ & Hs & _ & Hsm & Hhp). cbn [fst snd] in *.
  unfold strategies in Hs. cbn [map] in Hs.
  apply elem_of_cons in Hs as [Hs|Hs]; [done|].
  apply elem_of_cons in Hs as [Hs|Hs].
  - destruct (Hsm Hs) as [Hin _]. cbn [crawled sitemap_urls] in Hin.
    destruct (sitemap_scan_shape fetch (website r) 4000 PromoLinks.SITEMAP_CANDIDATES) as [Hsh _].
    rewrite Forall_forall in Hsh. destruct (Hsh _ Hin) as (? & ? & _). done.
  - apply list_elem_of_singleton in Hs.
    destruct (Hhp Hs) as (Hin & _). cbn [crawled homepage_links] in Hin.
    pose proof (homepage_links_clean fetch anchors (website r)) as Hsh.
    rewrite Forall_forall in Hsh. by apply Hsh.
Qed.

End CrawledRows.


(** ** The store discovery *)
Section Osm.
Import Py Lib OsmDiscover.
Context {C : CaseLib} {F : FloatLib}.



Lemma categories_elem :
  py "gadgets/electronics" ∈ categories /\ py "clothes" ∈ categories
  /\ py "jewellery" ∈ categories /\ py "perfumes/beauty" ∈ categories
  /\ py "home appliances" ∈ categories.
Proof.
  unfold categories. cbn [map]. split; [|split; [|split; [|split]]].
  - apply list_elem_of_here.
  - apply list_elem_of_further, list_elem_of_here.
  - do 2 apply list_elem_of_further. apply list_elem_of_here.
  - do 3 apply list_elem_of_further. apply list_elem_of_here.
  - do 4 apply list_elem_of_further. apply list_elem_of_here.
Qed.

Lemma infer_category_cases (t : tags) :
  exists b1 b2 b3 b4 b5 : bool,
    (forall t' : tags, t !! "shop" = t' !! "shop" ->
       infer_category t'
       = if b1 then py "gadgets/electronics"
         else if b2 then py "clothes"
         else if b3 then py "jewellery"
         else if b4 then py "perfumes/beauty"
         else if b5 then py "home appliances"
         else py "gadgets/electronics").
Proof.
  eexists _, _, _, _, _. intros t' H. unfold infer_category. rewrite <- H.
  destruct (existsb (eqb (lower (or_else (t' !! "amenity") []))) _); reflexivity.
Qed.

(** X20. The category of a store is one of the five of the application and
    depends on the [shop] tag only: the [amenity] tag is read and changes
    nothing. *)
Theorem infer_category_by_shop (t t' : tags) :
  infer_category t ∈ categories
  /\ (t !! "shop" = t' !! "shop" -> infer_category t = infer_category t').
Proof.
  destruct (infer_category_cases t) as (b1 & b2 & b3 & b4 & b5 & H).
  split.
  - rewrite (H t eq_refl). destruct categories_elem as (H1 & H2 & H3 & H4 & H5).
    destruct b1; [exact H1|]. destruct b2; [exact H2|]. destruct b3; [exact H3|].
    destruct b4; [exact H4|]. destruct b5; [exact H5|exact H1].
  - intros Hs. by rewrite (H t eq_refl), (H t' Hs).
Qed.








End Osm.


(** ** Sitemaps, integers, slices and store rows on known values *)
Section MoreValues.
Import Py Lib.

Example findall_loc_values :
  PromoLinks.findall_loc sitemap_xml
  = [py "https://shop.ie/sale"; py "https://shop.ie/offers#top"; py "ftp://shop.ie/x";
     py "https://shop.ie/sale"]
  /\ @PromoLinks.sitemap_urls simple_urls (fun _ => Some sitemap_xml) (py "https://shop.ie")
     = [py "https://shop.ie/sale"; py "https://shop.ie/offers"].
Proof. split; by vm_compute. Qed.

Example simple_int_values :
  map simple_int [py "12"; py " 12 "; py "+5"; py "-3"; py "12.0"; py ""]
  = [Some 12%Z; Some 12%Z; Some 5%Z; Some (-3)%Z; None; None].
Proof. by vm_compute. Qed.

Example slice_to_values :
  map (fun n => ExtractDeals.slice_to n [0; 1; 2; 3; 4]) [-7; -2; -1; 0; 1; 5; 9]%Z
  = [[]; [0; 1; 2]; [0; 1; 2; 3]; []; [0]; [0; 1; 2; 3; 4]; [0; 1; 2; 3; 4]].
Proof. by vm_compute. Qed.

Example osm_values :
  OsmDiscover.build_addr address_tags = py "12, Main St, D02"
  /\ @OsmDiscover.infer_category ascii_case address_tags = py "clothes"
  /\ map (OsmDiscover.split_char 44) [py "a,b,,c"; []; py ","]
     = [[py "a"; py "b"; []; py "c"]; [[]]; [[]; []]].
Proof. repeat split; by vm_compute. Qed.

End MoreValues.

(** ** The theorems on small inputs *)
Section MoreExamples.
Import Py Lib.
Local Existing Instance ascii_case.

(** The curated table: its feed holds the one reviewed item. *)
Lemma feed_well_formed_witness :
  map ExportFeed.store_name (ExportFeed.items curated_feed) = [py "Reviewed"]
  /\ ExportFeed.count curated_feed = length (ExportFeed.items curated_feed)
  /\ NoDup (map ExportFeed.id (ExportFeed.items curated_feed))
  /\ (length (ExportFeed.items curated_feed) <= length curated)%nat
  /\ forall k : str,
       k ∈ map ExportFeed.id (ExportFeed.items curated_feed)
       <-> exists r, r ∈ curated
                     /\ (ExportFeed.should_filter_publish curated = true -> published r = true)
                     /\ @row_id ascii_case decimal_floats r = k.
Proof.
  split; [by vm_compute|].
  apply (@feed_well_formed ascii_case decimal_floats iso_seconds (at_ "2024-07-01T00:00:00+00:00") curated).
  apply feed_of_ok. by vm_compute.
Defined.

(** The January and June rows in both orders, merged a year apart. *)
Lemma merge_order_independent_witness :
  map ExportFeed.store_name
      (ExportFeed.items (feed_of (run (at_ "2024-07-01T00:00:00+00:00") january_june)))
  = [py "June"]
  /\ ExportFeed.items (feed_of (run (at_ "2024-07-01T00:00:00+00:00") january_june))
     = ExportFeed.items (feed_of (run (at_ "2025-07-01T00:00:00+00:00") june_january)).
Proof.
  split; [by vm_compute|].
  apply (@merge_order_independent ascii_case decimal_floats iso_seconds
           (at_ "2024-07-01T00:00:00+00:00") (at_ "2025-07-01T00:00:00+00:00")
           january_june june_january).
  - intros r. unfold june_january, january_june. cbn [rev app].
    rewrite !elem_of_cons, !elem_of_nil.
    split; (intros [H|[H|H]]; [right; left; exact H|left; exact H|destruct H]).
  - by vm_compute.
  - intros r r' _ Hr' _. unfold january_june in Hr'.
    apply elem_of_cons in Hr' as [->|Hr']; [eexists; vm_compute; reflexivity|].
    apply list_elem_of_singleton in Hr' as ->. eexists; vm_compute; reflexivity.
  - intros r r' Hr Hr' _. unfold january_june in Hr, Hr'.
    apply elem_of_cons in Hr as [->|Hr]; [|apply list_elem_of_singleton in Hr as ->];
      (apply elem_of_cons in Hr' as [->|Hr']; [|apply list_elem_of_singleton in Hr' as ->]);
      intros H1 H2;
      [reflexivity | vm_compute in H2; discriminate H2 | vm_compute in H1; discriminate H1
      | reflexivity].
  - apply feed_of_ok. by vm_compute.
  - apply feed_of_ok. by vm_compute.
Defined.

(** The unparsable and the aware timestamp of one kettle offer. *)
Lemma merge_fails_only_on_mixed_stamps_witness :
  TypeError = TypeError
  /\ exists r1 r2 n1 n2,
       r1 ∈ unparsable_then_aware /\ r2 ∈ unparsable_then_aware
       /\ @row_id ascii_case decimal_floats r1 = @row_id ascii_case decimal_floats r2
       /\ (exists us, @stamp decimal_floats iso_seconds
                        (ExportFeed.make_item r1 (at_ "2024-07-01T00:00:00+00:00" n1)) = Aware us)
       /\ (exists us, @stamp decimal_floats iso_seconds
                        (ExportFeed.make_item r2 (at_ "2024-07-01T00:00:00+00:00" n2)) = Naive us).
Proof.
  apply (@merge_fails_only_on_mixed_stamps ascii_case decimal_floats iso_seconds
           (at_ "2024-07-01T00:00:00+00:00") unparsable_then_aware TypeError).
  by vm_compute.
Defined.

(** Two spellings of the kettle offer of shop.ie. *)
Lemma deterministic_id_insensitive_witness :
  @ExportFeed.deterministic_id ascii_case decimal_floats (upper (py "shop.ie"))
    (py "  " ++ upper (py "kettle 2l") ++ [9]) None ([32] ++ py "https://shop.ie/offers" ++ [10])
  = @ExportFeed.deterministic_id ascii_case decimal_floats (py "shop.ie") (py "kettle 2l") None
      (py "https://shop.ie/offers").
Proof.
  apply (@deterministic_id_insensitive ascii_case decimal_floats (py "shop.ie") (py "kettle 2l")
           (py "https://shop.ie/offers") (py "  ") [9] [32] [10] None);
    try reflexivity;
    apply Forall_forall; intros c Hc; vm_compute in Hc;
    repeat (apply elem_of_cons in Hc as [->|Hc]; [reflexivity|]); by apply elem_of_nil in Hc.
Defined.

(** The listing, visited once: four rows under its URL. *)
Lemma extractor_rows_witness :
  map ExtractDeals.title (deals_of listing_run) = map py ["Kettle"; "Toaster"; "Blender"; "Iron"]
  /\ (length (deals_of listing_run)
      <= 12 * length (List.filter
                        (fun pr => bool_decide (is_Some ((fun _ : str => Some listing)
                                                           (@promo_url_of pr))))
                        (@ExtractDeals.visited simple_ints 350 [listing_row])))%nat
  /\ Forall (fun d => exists pr, pr ∈ [listing_row]
                                 /\ is_Some ((fun _ : str => Some listing) (promo_url_of pr))
                                 /\ ExtractDeals.source_url d = promo_url_of pr
                                 /\ ExtractDeals.website_domain d
                                    = @ExtractDeals.domain_of ascii_case simple_urls (promo_url_of pr)
                                 /\ ExtractDeals.store_name d <> []
                                 /\ ExtractDeals.category d <> []) (deals_of listing_run)
  /\ ((exists pr, pr ∈ @ExtractDeals.visited simple_ints 350 [listing_row]
                  /\ is_Some ((fun _ : str => Some listing) (promo_url_of pr)))
      -> deals_of listing_run <> []).
Proof.
  split; [by vm_compute|].
  apply (@extractor_rows ascii_case decimal_floats simple_urls simple_ints [shop_store] [listing_row] 350
           (fun _ => Some listing) (at_ "2024-06-01T00:00:00+00:00")).
  apply deals_of_ok. by vm_compute.
Defined.

End MoreExamples.
